(** * Task lifecycle manager and connection registry

    A shallow embedding of [backend/utils/task_manager.py] (class
    [TaskManager]), of the task cancellation route of [backend/main.py]
    and of the connection part of [backend/utils/websocket_manager.py]
    (class [WebSocketManager]), with the properties the design document
    states about them.

    Conventions of the embedding.
    - The Redis server is a value of type [Redis]: string keys holding a task
      document, set keys and list keys.  The commands the code issues
      ([SET .. EX], [GET], [SADD], [SREM], [LPUSH], [RPOP], [LLEN], [SCARD])
      are total functions on it.  A connection failure of the real client is
      outside the model, hence the [except Exception] handlers that only
      guard Redis calls have no counterpart.
    - A stored task is the dictionary built by [create_task]; [json.dumps]
      and [json.loads] are inverse of each other on it, so the document is
      kept as a record.  Opaque payloads ([parameters], [result]) are kept
      as their JSON text.
    - [datetime.now().isoformat()] is an argument [now] of each operation,
      [uuid.uuid4()] is the argument [task_id] of [create_task].  A method
      that reads the clock twice ([create_task], [connect],
      [send_personal_message]) has a form with one argument per reading,
      named with the suffix [_at], and the form with one value for both,
      under the name of the method.
    - The module-level [logger] is a list of records, newest first.
    - The [EX 86400] of every [SET] is kept with the document.  No time
      passes inside the model: a history of calls ([exec_all]) fits in the
      retention window, and a history of operations ([exec_ops]) lets the
      document of any task expire at any point.
    - The methods of [TaskManager] are run one after the other; a method of
      [WebSocketManager] is a coroutine, suspended where it awaits.

    The second half of the file covers the rest of the two classes and
    their callers: the listing, queue length and expiry methods of
    [TaskManager], the task routes and background tasks of
    [backend/main.py], the subscription, information and sending methods
    of [WebSocketManager], and two message handlers of
    [backend/api/websocket_routes.py].  Further conventions there.
    - The Redis client replies in bytes or, with [decode_responses=True],
      in [str]; the methods that call [.decode()] on a reply take the flag
      as an argument.
    - The order in which a set or a dictionary is iterated, and the keys
      [SCAN] yields, are parameters, constrained in the statements.
    - The sending methods are run from call to return with nothing in
      between; the answers of the network to [send_text] and [close] are
      parameters.  A message is a finite map from keys to values. *)

From Stdlib Require Import ZArith Lia.
From stdpp Require Import base strings pretty gmap list sorting.

Local Open Scope Z_scope.

(** ** Enumerations *)

(** [TaskStatus]: the code stores and compares the [.value] strings. *)
Inductive TaskStatus := PENDING | RUNNING | COMPLETED | FAILED | CANCELLED.

Definition TaskStatus_value (s : TaskStatus) : string :=
  match s with
  | PENDING => "pending"
  | RUNNING => "running"
  | COMPLETED => "completed"
  | FAILED => "failed"
  | CANCELLED => "cancelled"
  end.

Inductive TaskPriority := LOW | MEDIUM | HIGH | CRITICAL.

Definition TaskPriority_value (p : TaskPriority) : Z :=
  match p with LOW => 1 | MEDIUM => 2 | HIGH => 3 | CRITICAL => 4 end.

(** [priority.name.lower()] *)
Definition TaskPriority_name_lower (p : TaskPriority) : string :=
  match p with
  | LOW => "low"
  | MEDIUM => "medium"
  | HIGH => "high"
  | CRITICAL => "critical"
  end.

#[global] Instance TaskPriority_eq_dec : EqDecision TaskPriority.
Proof. solve_decision. Defined.

(** ** The task document *)

Definition payload := string.
Definition timestamp := string.

(** The dictionary [task_data] of [create_task], key by key.  [priority]
    holds [priority.value]; [retry_task] reads it back with
    [TaskPriority(task_data["priority"])], so the field is kept as the
    enumeration member.  The projections are also reachable as
    [Task.status], [Task.user_id], ... where an argument of the same name
    is in scope. *)
Module Task.
Record task_data := mk_task {
  task_id : string;
  task_type : string;
  user_id : string;
  parameters : payload;
  status : string;
  priority : TaskPriority;
  max_retries : Z;
  retry_count : Z;
  timeout_seconds : Z;
  created_at : timestamp;
  updated_at : timestamp;
  started_at : option timestamp;
  completed_at : option timestamp;
  result : option payload;
  error : option string;
  progress : Z
}.
End Task.
Export Task.

#[global] Instance task_data_eq_dec : EqDecision task_data.
Proof. solve_decision. Defined.

(** Assignments [current_data[key] = v]. *)
Definition set_status (v : string) (t : task_data) : task_data :=
  mk_task (task_id t) (task_type t) (user_id t) (parameters t) v (priority t)
    (max_retries t) (retry_count t) (timeout_seconds t) (created_at t)
    (updated_at t) (started_at t) (completed_at t) (result t) (error t)
    (progress t).

Definition set_updated_at (v : timestamp) (t : task_data) : task_data :=
  mk_task (task_id t) (task_type t) (user_id t) (parameters t) (status t)
    (priority t) (max_retries t) (retry_count t) (timeout_seconds t)
    (created_at t) v (started_at t) (completed_at t) (result t) (error t)
    (progress t).

Definition set_started_at (v : option timestamp) (t : task_data) : task_data :=
  mk_task (task_id t) (task_type t) (user_id t) (parameters t) (status t)
    (priority t) (max_retries t) (retry_count t) (timeout_seconds t)
    (created_at t) (updated_at t) v (completed_at t) (result t) (error t)
    (progress t).

Definition set_completed_at (v : option timestamp) (t : task_data) : task_data :=
  mk_task (task_id t) (task_type t) (user_id t) (parameters t) (status t)
    (priority t) (max_retries t) (retry_count t) (timeout_seconds t)
    (created_at t) (updated_at t) (started_at t) v (result t) (error t)
    (progress t).

Definition set_result (v : option payload) (t : task_data) : task_data :=
  mk_task (task_id t) (task_type t) (user_id t) (parameters t) (status t)
    (priority t) (max_retries t) (retry_count t) (timeout_seconds t)
    (created_at t) (updated_at t) (started_at t) (completed_at t) v (error t)
    (progress t).

Definition set_error (v : option string) (t : task_data) : task_data :=
  mk_task (task_id t) (task_type t) (user_id t) (parameters t) (status t)
    (priority t) (max_retries t) (retry_count t) (timeout_seconds t)
    (created_at t) (updated_at t) (started_at t) (completed_at t) (result t) v
    (progress t).

Definition set_progress (v : Z) (t : task_data) : task_data :=
  mk_task (task_id t) (task_type t) (user_id t) (parameters t) (status t)
    (priority t) (max_retries t) (retry_count t) (timeout_seconds t)
    (created_at t) (updated_at t) (started_at t) (completed_at t) (result t)
    (error t) v.

Definition set_retry_count (v : Z) (t : task_data) : task_data :=
  mk_task (task_id t) (task_type t) (user_id t) (parameters t) (status t)
    (priority t) (max_retries t) v (timeout_seconds t) (created_at t)
    (updated_at t) (started_at t) (completed_at t) (result t) (error t)
    (progress t).

(** Python truthiness of an optional string: [None] and [""] are false. *)
Definition truthy (o : option string) : bool :=
  match o with
  | None => false
  | Some s => if decide (s = "") then false else true
  end.

(** ** The Redis server *)

Record Redis := mk_redis {
  kv : gmap string (task_data * Z);      (* string keys: document, EX seconds *)
  sets : gmap string (gset string);      (* set keys *)
  lists : gmap string (list string)      (* list keys, head = left end *)
}.

Definition redis_empty : Redis := mk_redis ∅ ∅ ∅.

(** Redis has no empty sets or lists: a key whose last member goes away
    is deleted. *)
Definition put_set (k : string) (s : gset string)
    (m : gmap string (gset string)) : gmap string (gset string) :=
  if decide (s = ∅) then delete k m else <[k:=s]> m.

Definition put_list (k : string) (l : list string)
    (m : gmap string (list string)) : gmap string (list string) :=
  match l with [] => delete k m | _ => <[k:=l]> m end.

Definition smembers (k : string) (r : Redis) : gset string :=
  default ∅ (sets r !! k).

Definition lrange (k : string) (r : Redis) : list string :=
  default [] (lists r !! k).

Definition redis_set (k : string) (v : task_data) (ex : Z) (r : Redis) : Redis :=
  mk_redis (<[k:=(v, ex)]> (kv r)) (sets r) (lists r).

Definition redis_get (k : string) (r : Redis) : option task_data :=
  fst <$> kv r !! k.

Definition redis_delete (k : string) (r : Redis) : Redis :=
  mk_redis (delete k (kv r)) (sets r) (lists r).

Definition redis_sadd (k : string) (x : string) (r : Redis) : Redis :=
  mk_redis (kv r) (put_set k (smembers k r ∪ {[x]}) (sets r)) (lists r).

Definition redis_srem (k : string) (x : string) (r : Redis) : Redis :=
  mk_redis (kv r) (put_set k (smembers k r ∖ {[x]}) (sets r)) (lists r).

Definition redis_scard (k : string) (r : Redis) : Z :=
  Z.of_nat (size (smembers k r)).

Definition redis_lpush (k : string) (x : string) (r : Redis) : Redis :=
  mk_redis (kv r) (sets r) (put_list k (x :: lrange k r) (lists r)).

(** [RPOP]: the right end is the last element of the list. *)
Definition redis_rpop (k : string) (r : Redis) : option string * Redis :=
  match reverse (lrange k r) with
  | [] => (None, r)
  | x :: rest => (Some x, mk_redis (kv r) (sets r) (put_list k (reverse rest) (lists r)))
  end.

Definition redis_llen (k : string) (r : Redis) : Z :=
  Z.of_nat (length (lrange k r)).

(** ** Exceptions, the logger and the state of the process *)

Inductive exn :=
  | RuntimeError (msg : string)
  | HTTPException (status_code : Z) (detail : string).

Inductive outcome (A : Type) :=
  | Returned (a : A)
  | Raised (e : exn).
Arguments Returned {A} a.
Arguments Raised {A} e.

Inductive level := INFO | WARNING | ERROR.

Record log_record := mk_log { levelname : level; message : string }.

(** The attributes of a [TaskManager] instance the operations read, and
    the [logger] of the module. *)
Record TaskManager := mk_tm {
  redis_client : Redis;
  initialized : bool;
  logger : list log_record
}.

Definition task_prefix : string := "task:".
Definition user_tasks_prefix : string := "user_tasks:".
Definition active_tasks_prefix : string := "active_tasks".
Definition task_queue_prefix : string := "task_queue:".

(** A method body: it reads and updates the manager and either returns or
    raises. *)
Definition M (A : Type) : Type := TaskManager → outcome A * TaskManager.

#[global] Instance M_ret : MRet M := λ A a tm, (Returned a, tm).

#[global] Instance M_bind : MBind M := λ A B k c tm,
  match c tm with
  | (Returned a, tm') => k a tm'
  | (Raised e, tm') => (Raised e, tm')
  end.

Definition raise {A : Type} (e : exn) : M A := λ tm, (Raised e, tm).

Definition self : M TaskManager := λ tm, (Returned tm, tm).

(** [await self.redis_client.<command>(...)] for a command that returns
    nothing the code uses. *)
Definition redis_do (f : Redis → Redis) : M unit := λ tm,
  (Returned (), mk_tm (f (redis_client tm)) (initialized tm) (logger tm)).

(** ... and for a command whose reply is used. *)
Definition redis_call {A : Type} (f : Redis → A * Redis) : M A := λ tm,
  let '(a, r) := f (redis_client tm) in
  (Returned a, mk_tm r (initialized tm) (logger tm)).

Definition log (l : level) (msg : string) : M unit := λ tm,
  (Returned (), mk_tm (redis_client tm) (initialized tm) (mk_log l msg :: logger tm)).

(** [try: body except HTTPException: raise except Exception as e: h e] *)
Definition try_except {A : Type} (body : M A) (h : string → M A) : M A := λ tm,
  match body tm with
  | (Raised (RuntimeError msg), tm') => h msg tm'
  | res => res
  end.

(** [if not self.initialized: raise RuntimeError(...)] *)
Definition require_initialized : M unit :=
  tm ← self;
  if initialized tm then mret ()
  else raise (RuntimeError "Task Manager not initialized").

(** ** [class TaskManager] *)

Definition queue_name (priority : TaskPriority) : string :=
  task_queue_prefix +:+ TaskPriority_name_lower priority.

(** [initialize]: [ping] always answers in the model. *)
Definition initialize (redis_client : Redis) : M unit := λ tm,
  (Returned (),
   mk_tm redis_client true
     (mk_log INFO "Task Manager initialized successfully" :: logger tm)).

(** [create_task]; [task_id] is the identifier drawn by [uuid.uuid4()],
    [now] and [later] are the two readings of the clock that fill
    [created_at] and [updated_at].  The callers in [main.py] rely on the
    defaults [priority = MEDIUM], [max_retries = 3],
    [timeout_seconds = 300]. *)
Definition create_task_at (task_type user_id : string) (parameters : payload)
    (priority : TaskPriority) (max_retries timeout_seconds : Z)
    (task_id : string) (now later : timestamp) : M string :=
  require_initialized;;
  let task_data :=
    mk_task task_id task_type user_id parameters (TaskStatus_value PENDING)
      priority max_retries 0 timeout_seconds now later None None None None 0 in
  redis_do (redis_set (task_prefix +:+ task_id) task_data 86400);;
  redis_do (redis_sadd (user_tasks_prefix +:+ user_id) task_id);;
  redis_do (redis_sadd active_tasks_prefix task_id);;
  redis_do (redis_lpush (queue_name priority) task_id);;
  log INFO ("Task created: " +:+ task_id +:+ " for user " +:+ user_id);;
  mret task_id.

(** The same with one value for both readings, for the histories in which
    nothing depends on [updated_at] being later than [created_at]. *)
Definition create_task (task_type user_id : string) (parameters : payload)
    (priority : TaskPriority) (max_retries timeout_seconds : Z)
    (task_id : string) (now : timestamp) : M string :=
  create_task_at task_type user_id parameters priority max_retries
    timeout_seconds task_id now now.

Definition get_task_status (task_id : string) : M (option task_data) :=
  require_initialized;;
  tm ← self;
  mret (redis_get (task_prefix +:+ task_id) (redis_client tm)).

(** [status in [COMPLETED.value, FAILED.value, CANCELLED.value]] *)
Definition is_terminal (status : string) : bool :=
  bool_decide (status ∈ [TaskStatus_value COMPLETED; TaskStatus_value FAILED;
                         TaskStatus_value CANCELLED]).

Definition update_task_status (task_id status : string) (progress : option Z)
    (error : option string) (result : option payload) (now : timestamp)
    : M unit :=
  require_initialized;;
  current_data ← get_task_status task_id;
  match current_data with
  | None => log WARNING ("Task " +:+ task_id +:+ " not found for status update")
  | Some current_data =>
      let current_data := set_status status current_data in
      let current_data := set_updated_at now current_data in
      let current_data :=
        match progress with
        | Some p => set_progress p current_data
        | None => current_data
        end in
      let current_data :=
        match error with
        | Some e => set_error (Some e) current_data
        | None => current_data
        end in
      let current_data :=
        match result with
        | Some r => set_result (Some r) current_data
        | None => current_data
        end in
      let current_data :=
        if bool_decide (status = TaskStatus_value RUNNING)
           && negb (truthy (started_at current_data))
        then set_started_at (Some now) current_data
        else current_data in
      let current_data :=
        if is_terminal status then set_completed_at (Some now) current_data
        else current_data in
      (if is_terminal status
       then redis_do (redis_srem active_tasks_prefix task_id)
       else mret ());;
      redis_do (redis_set (task_prefix +:+ task_id) current_data 86400);;
      log INFO ("Task " +:+ task_id +:+ " status updated to " +:+ status)
  end.

Definition complete_task (task_id : string) (result : option payload)
    (now : timestamp) : M unit :=
  update_task_status task_id (TaskStatus_value COMPLETED) (Some 100) None
    result now.

Definition fail_task (task_id : string) (error : string) (now : timestamp)
    : M unit :=
  update_task_status task_id (TaskStatus_value FAILED) None (Some error) None
    now.

(** [reason] defaults to ["Cancelled by user"]. *)
Definition cancel_task (task_id : string) (reason : string) (now : timestamp)
    : M unit :=
  update_task_status task_id (TaskStatus_value CANCELLED) None (Some reason)
    None now.

Definition retry_task (task_id : string) (now : timestamp) : M bool :=
  require_initialized;;
  task_data ← get_task_status task_id;
  match task_data with
  | None =>
      log WARNING ("Task " +:+ task_id +:+ " not found for retry");;
      mret false
  | Some task_data =>
      if bool_decide (max_retries task_data ≤ retry_count task_data) then
        log WARNING ("Task " +:+ task_id +:+ " has exceeded max retries");;
        mret false
      else
        let task_data := set_retry_count (retry_count task_data + 1) task_data in
        let task_data := set_status (TaskStatus_value PENDING) task_data in
        let task_data := set_updated_at now task_data in
        let task_data := set_started_at None task_data in
        let task_data := set_completed_at None task_data in
        let task_data := set_error None task_data in
        let task_data := set_progress 0 task_data in
        redis_do (redis_set (task_prefix +:+ task_id) task_data 86400);;
        redis_do (redis_sadd active_tasks_prefix task_id);;
        redis_do (redis_lpush (queue_name (priority task_data)) task_id);;
        log INFO ("Task " +:+ task_id +:+ " queued for retry (attempt "
                  +:+ pretty (retry_count task_data) +:+ ")");;
        mret true
  end.

Definition get_active_tasks_count : M Z :=
  tm ← self;
  if initialized tm then mret (redis_scard active_tasks_prefix (redis_client tm))
  else mret 0.

Definition get_task_queue_length (priority : TaskPriority) : M Z :=
  tm ← self;
  if initialized tm then mret (redis_llen (queue_name priority) (redis_client tm))
  else mret 0.

(** *** Replies of the Redis client

    With [redis.Redis(decode_responses=False)], the default, set members
    and popped elements are [bytes] and the code's [task_id.decode()] gives
    the identifier.  With [decode_responses=True], the client [main.py]
    builds, they are [str], which has no [decode]: the call raises
    [AttributeError] inside the [try] block of the method.  The option
    belongs to the client handed to [initialize]; it is an argument of the
    methods that decode a reply. *)
Definition str_has_no_decode : string :=
  "'str' object has no attribute 'decode'".

(** [priority.name] *)
Definition TaskPriority_name (p : TaskPriority) : string :=
  match p with
  | LOW => "LOW"
  | MEDIUM => "MEDIUM"
  | HIGH => "HIGH"
  | CRITICAL => "CRITICAL"
  end.

(** [get_next_task]: an empty reply of [RPOP] is dropped; a truthy one is
    decoded and returned, or, when the reply is a [str], the exception of
    [task_id.decode()] is logged by the handler and [None] is returned. *)
Definition get_next_task (decode_responses : bool) (priority : TaskPriority)
    : M (option string) :=
  tm ← self;
  if initialized tm then
    task_id ← redis_call (redis_rpop (queue_name priority));
    if truthy task_id then
      if decode_responses then
        log ERROR ("Failed to get next task from " +:+ TaskPriority_name priority
                   +:+ " queue: " +:+ str_has_no_decode);;
        mret None
      else mret task_id
    else mret None
  else mret None.

(** ** The route [DELETE /tasks/{task_id}] of [main.py] *)

Module Main.

Definition cancel_task (task_id user_id : string) (now : timestamp)
    : M (string * string) :=
  try_except
    (task_status ← get_task_status task_id;
     match task_status with
     | None => raise (HTTPException 404 "Task not found")
     | Some task_status =>
         if negb (bool_decide (Task.user_id task_status = user_id)) then
           raise (HTTPException 403 "Not authorized to cancel this task")
         else if bool_decide (status task_status ∈ ["completed"; "failed"; "cancelled"]) then
           raise (HTTPException 400 "Task cannot be cancelled")
         else
           cancel_task task_id "Cancelled by user" now;;
           mret ("Task cancelled successfully", task_id)
     end)
    (λ e,
       log ERROR ("Error cancelling task: " +:+ e);;
       raise (HTTPException 500 e)).

(** [execute_content_generation] and its siblings start with
    [update_task_status(task_id, "running")]. *)
Definition mark_running (task_id : string) (now : timestamp) : M unit :=
  update_task_status task_id "running" None None None now.

End Main.

(** * [class WebSocketManager]: the connection registry *)

Module WS.

(** A [fastapi.WebSocket] object, by identity. *)
Definition WebSocket := nat.

Record metadata := mk_metadata {
  connected_at : timestamp;
  last_activity : timestamp;
  message_count : Z
}.

(** [asyncio.Lock] is not reentrant and has no owner: [acquire] on a
    locked lock waits, whoever locked it.  The model remembers whether the
    holder is the coroutine under study ([This]) or another one, which is
    what the [async with] discipline of the class guarantees: only the
    coroutine that acquired the lock releases it. *)
Inductive holder := This | Other.

(** The attributes of the manager, the sockets [close()] was awaited on
    (newest first) and the module's [logger]. *)
Record state := mk_state {
  active_connections : gmap string WebSocket;
  subscriptions : gmap string (gset string);
  connection_metadata : gmap string metadata;
  _lock : option holder;
  closed : list WebSocket;
  logger : list log_record
}.

(** [WebSocketManager()] *)
Definition init : state := mk_state ∅ ∅ ∅ None [] [].

Definition set_active_connections (v : gmap string WebSocket) (s : state) : state :=
  mk_state v (subscriptions s) (connection_metadata s) (_lock s) (closed s) (logger s).

Definition set_subscriptions (v : gmap string (gset string)) (s : state) : state :=
  mk_state (active_connections s) v (connection_metadata s) (_lock s) (closed s) (logger s).

Definition set_connection_metadata (v : gmap string metadata) (s : state) : state :=
  mk_state (active_connections s) (subscriptions s) v (_lock s) (closed s) (logger s).

Definition set_lock (v : option holder) (s : state) : state :=
  mk_state (active_connections s) (subscriptions s) (connection_metadata s) v
    (closed s) (logger s).

Definition add_closed (ws : WebSocket) (s : state) : state :=
  mk_state (active_connections s) (subscriptions s) (connection_metadata s)
    (_lock s) (ws :: closed s) (logger s).

Definition add_log (l : level) (msg : string) (s : state) : state :=
  mk_state (active_connections s) (subscriptions s) (connection_metadata s)
    (_lock s) (closed s) (mk_log l msg :: logger s).

(** ** Coroutines

    An [async def] body is a tree of the operations at which it can be
    suspended, with the synchronous code between them. *)
Inductive coro (A : Type) : Type :=
  | Done (a : A)                              (* return *)
  | Get (k : state → coro A)                  (* read the attributes *)
  | Put (s : state) (k : coro A)              (* write them *)
  | Acquire (k : coro A)                      (* await self._lock.acquire() *)
  | Release (k : coro A)                      (* self._lock.release() *)
  | Close (ws : WebSocket) (k : option string → coro A).
      (* await websocket.close(); [Some msg] when it raises *)
Arguments Done {A} a.
Arguments Get {A} k.
Arguments Put {A} s k.
Arguments Acquire {A} k.
Arguments Release {A} k.
Arguments Close {A} ws k.

Fixpoint coro_bind {A B : Type} (k : A → coro B) (c : coro A) : coro B :=
  match c with
  | Done a => k a
  | Get f => Get (λ s, coro_bind k (f s))
  | Put s c => Put s (coro_bind k c)
  | Acquire c => Acquire (coro_bind k c)
  | Release c => Release (coro_bind k c)
  | Close ws f => Close ws (λ r, coro_bind k (f r))
  end.

#[global] Instance coro_ret : MRet coro := λ A a, Done a.
#[global] Instance coro_mbind : MBind coro := λ A B k c, coro_bind k c.

Definition get : coro state := Get Done.
Definition modify (f : state → state) : coro unit := Get (λ s, Put (f s) (Done ())).
Definition log (l : level) (msg : string) : coro unit := modify (add_log l msg).
Definition close (ws : WebSocket) : coro (option string) := Close ws Done.

(** [async with self._lock: body] *)
Definition with_lock {A : Type} (body : coro A) : coro A :=
  Acquire (a ← body; Release (Done a)).

Definition disconnect (user_id : string) : coro unit :=
  with_lock (
    s ← get;
    match active_connections s !! user_id with
    | Some websocket =>
        raised ← close websocket;
        match raised with
        | Some e =>
            log WARNING ("Error closing WebSocket for user " +:+ user_id
                         +:+ ": " +:+ e)
        | None => mret ()
        end;;
        modify (λ s, set_active_connections (delete user_id (active_connections s)) s);;
        modify (λ s, if decide (is_Some (subscriptions s !! user_id))
                     then set_subscriptions (delete user_id (subscriptions s)) s
                     else s);;
        modify (λ s, if decide (is_Some (connection_metadata s !! user_id))
                     then set_connection_metadata
                            (delete user_id (connection_metadata s)) s
                     else s);;
        s ← get;
        log INFO ("WebSocket disconnected for user " +:+ user_id
                  +:+ ". Active connections: "
                  +:+ pretty (size (active_connections s)))
    | None => mret ()
    end).

(** [connect]; [now] and [later] are the two readings of the clock that
    fill ["connected_at"] and ["last_activity"]. *)
Definition connect_at (user_id : string) (websocket : WebSocket)
    (now later : timestamp) : coro unit :=
  with_lock (
    s ← get;
    (if decide (is_Some (active_connections s !! user_id))
     then disconnect user_id
     else mret ());;
    modify (λ s, set_active_connections
                   (<[user_id:=websocket]> (active_connections s)) s);;
    modify (λ s, set_subscriptions (<[user_id:=∅]> (subscriptions s)) s);;
    modify (λ s, set_connection_metadata
                   (<[user_id:=mk_metadata now later 0]> (connection_metadata s)) s);;
    s ← get;
    log INFO ("WebSocket connected for user " +:+ user_id
              +:+ ". Active connections: "
              +:+ pretty (size (active_connections s)))).

(** The same with one value for both readings, where nothing depends on
    the metadata. *)
Definition connect (user_id : string) (websocket : WebSocket) (now : timestamp)
    : coro unit :=
  connect_at user_id websocket now now.

(** ** The event loop

    A coroutine runs without interruption until it returns or awaits
    something that is not ready: a lock that is held, or the network. *)
Inductive progress (A : Type) : Type :=
  | Finished (a : A) (s : state)
  | Blocked (k : coro A) (s : state)           (* waiting in [acquire()], then [k] *)
  | Awaiting (ws : WebSocket) (k : option string → coro A) (s : state).
Arguments Finished {A} a s.
Arguments Blocked {A} k s.
Arguments Awaiting {A} ws k s.

Fixpoint resume {A : Type} (c : coro A) (s : state) : progress A :=
  match c with
  | Done a => Finished a s
  | Get k => resume (k s) s
  | Put s' k => resume k s'
  | Acquire k =>
      match _lock s with
      | None => resume k (set_lock (Some This) s)
      | Some _ => Blocked k s
      end
  | Release k => resume k (set_lock None s)
  | Close ws k => Awaiting ws k (add_closed ws s)
  end.

(** What the other coroutines can do to the state while this one is
    suspended: anything, except releasing a lock this one holds or taking
    the lock in its name. *)
Definition interference (s s' : state) : Prop :=
  _lock s = Some This ↔ _lock s' = Some This.

Section event_loop.
Context {A : Type}.
(** The answer of the network to [close()] on each socket. *)
Variable close_raises : WebSocket → option string.

(** The coroutine is woken up: the lock wait is retried, the network
    answers. *)
Inductive wakes : progress A → progress A → Prop :=
  | wakes_blocked k s s' :
      interference s s' → wakes (Blocked k s) (resume (Acquire k) s')
  | wakes_awaiting ws k s s' :
      interference s s' →
      wakes (Awaiting ws k s) (resume (k (close_raises ws)) s').

(** Run to completion when nothing else interferes; [None] when the
    coroutine is still blocked on the lock. *)
Fixpoint run_alone (fuel : nat) (p : progress A) : option (A * state) :=
  match p with
  | Finished a s => Some (a, s)
  | Blocked k s =>
      match fuel with
      | O => None
      | S fuel => run_alone fuel (resume (Acquire k) s)
      end
  | Awaiting ws k s =>
      match fuel with
      | O => None
      | S fuel => run_alone fuel (resume (k (close_raises ws)) s)
      end
  end.
End event_loop.

End WS.

(** * The remaining methods of [TaskManager] *)

(** ** Listing the tasks of a user *)

(** [tasks.sort(key=lambda x: x["created_at"], reverse=True)]: Python's
    sort is stable, also with [reverse=True]; strings compare by code
    point.  The stable sort is unique, here by insertion: an element goes
    behind those whose key is at least its own. *)
Fixpoint insert_created_at_desc (x : task_data) (l : list task_data)
    : list task_data :=
  match l with
  | [] => [x]
  | y :: l' =>
      if decide (String.le (created_at x) (created_at y))
      then y :: insert_created_at_desc x l'
      else x :: l
  end.

Definition sort_created_at_desc (l : list task_data) : list task_data :=
  foldl (λ sorted x, insert_created_at_desc x sorted) [] l.

(** A bound of a Python slice on a list of length [n]. *)
Definition slice_index (n : nat) (i : Z) : nat :=
  if bool_decide (i < 0) then Z.to_nat (Z.max (i + Z.of_nat n) 0)
  else Z.to_nat (Z.min i (Z.of_nat n)).

(** [l[start:stop]] *)
Definition py_slice {A : Type} (l : list A) (start stop : Z) : list A :=
  take (slice_index (length l) stop - slice_index (length l) start)
       (drop (slice_index (length l) start) l).

(** The loop [for task_id in task_ids: ...] over decoded identifiers. *)
Fixpoint collect_tasks (status_filter : option string) (task_ids : list string)
    (tasks : list task_data) : M (list task_data) :=
  match task_ids with
  | [] => mret tasks
  | task_id :: task_ids =>
      task_data ← get_task_status task_id;
      match task_data with
      | Some task_data =>
          if truthy status_filter
             && negb (bool_decide (Some (status task_data) = status_filter))
          then collect_tasks status_filter task_ids tasks
          else collect_tasks status_filter task_ids (tasks ++ [task_data])
      | None => collect_tasks status_filter task_ids tasks
      end
  end.

(** [get_user_tasks]; [iter] is the order in which Python iterates over
    the set [SMEMBERS] replies with, which nothing fixes.  [limit] defaults
    to 10, [status_filter] to [None], [offset] to 0. *)
Definition get_user_tasks (decode_responses : bool)
    (iter : gset string → list string)
    (user_id : string) (limit : Z) (status_filter : option string)
    (offset : Z) : M (list task_data) :=
  require_initialized;;
  tm ← self;
  let task_ids := smembers (user_tasks_prefix +:+ user_id) (redis_client tm) in
  if decide (task_ids = ∅) then mret []
  else if decode_responses then
    log ERROR ("Failed to get user tasks for " +:+ user_id +:+ ": "
               +:+ str_has_no_decode);;
    mret []
  else
    tasks ← collect_tasks status_filter (iter task_ids) [];
    let tasks := sort_created_at_desc tasks in
    let start := offset in
    let end_ := offset + limit in
    mret (py_slice tasks start end_).

(** ** Queue lengths *)

(** [get_all_queue_lengths]: a dictionary from tier names to lengths. *)
Definition get_all_queue_lengths : M (gmap string Z) :=
  tm ← self;
  if initialized tm then
    mret (foldl (λ queue_lengths priority,
                   <[TaskPriority_name_lower priority :=
                       redis_llen (queue_name priority) (redis_client tm)]>
                     queue_lengths)
                ∅ [LOW; MEDIUM; HIGH; CRITICAL])
  else mret ∅.

(** ** Expiry sweep *)

(** The body of [for key in task_keys: ...]; the reply says whether the
    key was cleaned up. *)
Definition cleanup_key (cutoff_timestamp : timestamp) (key : string) : M bool :=
  tm ← self;
  match redis_get key (redis_client tm) with
  | Some task_info =>
      if String.ltb (created_at task_info) cutoff_timestamp then
        redis_do (redis_delete key);;
        (if truthy (Some (Task.user_id task_info))
         then redis_do (redis_srem (user_tasks_prefix +:+ Task.user_id task_info)
                          (Task.task_id task_info))
         else mret ());;
        redis_do (redis_srem active_tasks_prefix (Task.task_id task_info));;
        mret true
      else mret false
  | None => mret false
  end.

Fixpoint cleanup_keys (cutoff_timestamp : timestamp) (task_keys : list string)
    (cleaned_count : Z) : M Z :=
  match task_keys with
  | [] => mret cleaned_count
  | key :: task_keys =>
      cleaned ← cleanup_key cutoff_timestamp key;
      cleanup_keys cutoff_timestamp task_keys
        (if (cleaned : bool) then cleaned_count + 1 else cleaned_count)
  end.

(** [cleanup_expired_tasks].  [cutoff_timestamp] is
    [(datetime.now() - timedelta(hours=max_age_hours)).isoformat()];
    [scan_iter] lists the keys [SCAN] yields for the pattern ["task:*"],
    in its order and possibly with repetitions.  Only string keys can
    match: the set and list keys of the code are ["active_tasks"],
    ["user_tasks:..."] and ["task_queue:..."]. *)
Definition cleanup_expired_tasks (scan_iter : Redis → list string)
    (cutoff_timestamp : timestamp) : M Z :=
  tm ← self;
  if initialized tm then
    let task_keys := scan_iter (redis_client tm) in
    cleaned_count ← cleanup_keys cutoff_timestamp task_keys 0;
    log INFO ("Cleaned up " +:+ pretty cleaned_count +:+ " expired tasks");;
    mret cleaned_count
  else mret 0.

(** * The task routes of [main.py] *)

Module Routes.

(** [redis.Redis(..., decode_responses=True)] in [lifespan]. *)
Definition decode_responses : bool := true.

(** [GET /tasks/{task_id}] *)
Definition get_task_status (task_id : string) : M task_data :=
  try_except
    (task_status ← get_task_status task_id;
     match task_status with
     | None => raise (HTTPException 404 "Task not found")
     | Some task_status => mret task_status
     end)
    (λ e,
       log ERROR ("Error getting task status: " +:+ e);;
       raise (HTTPException 500 e)).

(** [GET /tasks/user/{user_id}], answering [{"tasks": tasks}]. *)
Definition get_user_tasks (iter : gset string → list string)
    (user_id : string) (limit offset : Z) : M (list task_data) :=
  try_except
    (get_user_tasks decode_responses iter user_id limit None offset)
    (λ e,
       log ERROR ("Error getting user tasks: " +:+ e);;
       raise (HTTPException 500 e)).

End Routes.

(** * The remaining methods of [WebSocketManager] *)

(** ** Subscriptions and connection information

    The methods with no [await] in their body: as coroutines they return
    without being suspended. *)

Module Registry.

Definition add_subscription (user_id subscription_type : string) : WS.coro unit :=
  WS.modify (λ s, if decide (is_Some (WS.subscriptions s !! user_id)) then s
                  else WS.set_subscriptions
                         (<[user_id:=∅]> (WS.subscriptions s)) s);;
  WS.modify (λ s, WS.set_subscriptions
                    (alter (λ subs, subs ∪ {[subscription_type]}) user_id
                       (WS.subscriptions s)) s);;
  WS.log INFO ("User " +:+ user_id +:+ " subscribed to " +:+ subscription_type).

Definition remove_subscription (user_id subscription_type : string)
    : WS.coro unit :=
  s ← WS.get;
  if decide (is_Some (WS.subscriptions s !! user_id)) then
    WS.modify (λ s, WS.set_subscriptions
                      (alter (λ subs, subs ∖ {[subscription_type]}) user_id
                         (WS.subscriptions s)) s);;
    WS.log INFO ("User " +:+ user_id +:+ " unsubscribed from "
                 +:+ subscription_type)
  else mret ().

Definition get_user_subscriptions (user_id : string) : WS.coro (gset string) :=
  s ← WS.get;
  mret (default ∅ (WS.subscriptions s !! user_id)).

(** [def get_connection_count] *)
Definition get_connection_count (s : WS.state) : Z :=
  Z.of_nat (size (WS.active_connections s)).

(** The dictionary [get_connection_info] returns; ["subscriptions"] is
    [list(subscriptions)], kept as the set it lists. *)
Record connection_info := mk_info {
  info_user_id : string;
  connected : bool;
  info_connected_at : option timestamp;
  info_last_activity : option timestamp;
  info_message_count : Z;
  info_subscriptions : gset string
}.

Definition get_connection_info (user_id : string) (s : WS.state)
    : option connection_info :=
  match WS.active_connections s !! user_id with
  | None => None
  | Some _ =>
      let metadata := WS.connection_metadata s !! user_id in
      let subscriptions := default ∅ (WS.subscriptions s !! user_id) in
      Some (mk_info user_id true
              (WS.connected_at <$> metadata)
              (WS.last_activity <$> metadata)
              (default 0 (WS.message_count <$> metadata))
              subscriptions)
  end.

End Registry.

(** ** Sending

    The methods that write to a socket.  Each is run from its call to its
    return with no other coroutine in between: the result is [None] when
    it waits for a lock that is held.  The clock is read as [now]
    throughout a call, and a [logger.debug] record is below the configured
    level ([LOG_LEVEL], "info" by default). *)

Module Delivery.

(** A value of a message: a string, a task document, or any other JSON
    value as its text. *)
Inductive value :=
  | Str (s : string)
  | Json (p : payload)
  | TaskDict (t : task_data).

Definition message := gmap string value.

(** The manager and the messages the sockets accepted, newest first
    ([json.dumps(message)] is kept as the message). *)
Record world := mk_world {
  manager : WS.state;
  sent : list (WS.WebSocket * message)
}.

(** What the code does not decide: the answer of the network to
    [send_text] and [close] on each socket ([Some msg] when it raises), and
    the order in which the two dictionaries are iterated. *)
Record environment := mk_environment {
  send_raises : WS.WebSocket → option string;
  close_raises : WS.WebSocket → option string;
  connection_items :
    gmap string WS.WebSocket → list (string * WS.WebSocket);
  subscription_items :
    gmap string (gset string) → list (string * gset string)
}.

(** A registry coroutine run to its return. *)
Fixpoint finish {A : Type} (close_raises : WS.WebSocket → option string)
    (c : WS.coro A) (s : WS.state) : option (A * WS.state) :=
  match c with
  | WS.Done a => Some (a, s)
  | WS.Get k => finish close_raises (k s) s
  | WS.Put s' k => finish close_raises k s'
  | WS.Acquire k =>
      match WS._lock s with
      | None => finish close_raises k (WS.set_lock (Some WS.This) s)
      | Some _ => None
      end
  | WS.Release k => finish close_raises k (WS.set_lock None s)
  | WS.Close ws k => finish close_raises (k (close_raises ws)) (WS.add_closed ws s)
  end.

Definition D (A : Type) : Type := world → option (A * world).

#[global] Instance D_ret : MRet D := λ A a w, Some (a, w).

#[global] Instance D_bind : MBind D := λ A B k c w,
  match c w with
  | Some (a, w') => k a w'
  | None => None
  end.

Section methods.
Variable env : environment.

Definition registry {A : Type} (c : WS.coro A) : D A := λ w,
  match finish (close_raises env) c (manager w) with
  | Some (a, s) => Some (a, mk_world s (sent w))
  | None => None
  end.

(** [await websocket.send_text(json.dumps(message))] *)
Definition send_text (websocket : WS.WebSocket) (data : message)
    : D (option string) := λ w,
  match send_raises env websocket with
  | None => Some (None, mk_world (manager w) ((websocket, data) :: sent w))
  | Some e => Some (Some e, w)
  end.

(** The block under [# Update metadata]. *)
Definition update_metadata (user_id : string) (now : timestamp) (s : WS.state)
    : WS.state :=
  match WS.connection_metadata s !! user_id with
  | Some m =>
      WS.set_connection_metadata
        (<[user_id:=WS.mk_metadata (WS.connected_at m) now (WS.message_count m + 1)]>
           (WS.connection_metadata s)) s
  | None => s
  end.

(** [send_personal_message]; [now] is the reading of the clock that
    stamps the message, [later] the one made after the send, for
    ["last_activity"]. *)
Definition send_personal_message_at (user_id : string) (message : message)
    (now later : timestamp) : D bool :=
  s ← registry WS.get;
  match WS.active_connections s !! user_id with
  | None =>
      registry (WS.log WARNING ("Cannot send message to user " +:+ user_id
                                +:+ ": not connected"));;
      mret false
  | Some websocket =>
      let message := <["timestamp":=Str now]> message in
      raised ← send_text websocket message;
      match raised with
      | None =>
          registry (WS.modify (update_metadata user_id later));;
          mret true
      | Some e =>
          registry (WS.log ERROR ("Error sending message to user " +:+ user_id
                                  +:+ ": " +:+ e));;
          registry (WS.disconnect user_id);;
          mret false
      end
  end.

(** The same with one value for both readings. *)
Definition send_personal_message (user_id : string) (message : message)
    (now : timestamp) : D bool :=
  send_personal_message_at user_id message now now.

(** [for user_id in disconnected_users: await self.disconnect(user_id)] *)
Fixpoint disconnect_each (disconnected_users : list string) : D unit :=
  match disconnected_users with
  | [] => mret ()
  | user_id :: disconnected_users =>
      registry (WS.disconnect user_id);;
      disconnect_each disconnected_users
  end.

Fixpoint broadcast_loop (message : message) (exclude_users : list string)
    (now : timestamp) (items : list (string * WS.WebSocket))
    (disconnected_users : list string) : D (list string) :=
  match items with
  | [] => mret disconnected_users
  | (user_id, websocket) :: items =>
      if bool_decide (user_id ∈ exclude_users) then
        broadcast_loop message exclude_users now items disconnected_users
      else
        raised ← send_text websocket message;
        match raised with
        | None =>
            registry (WS.modify (update_metadata user_id now));;
            broadcast_loop message exclude_users now items disconnected_users
        | Some e =>
            registry (WS.log ERROR ("Error broadcasting to user " +:+ user_id
                                    +:+ ": " +:+ e));;
            broadcast_loop message exclude_users now items
              (disconnected_users ++ [user_id])
        end
  end.

Definition broadcast_message (message : message)
    (exclude_users : option (list string)) (now : timestamp) : D unit :=
  let exclude_users := default [] exclude_users in
  let message := <["timestamp":=Str now]> message in
  s ← registry WS.get;
  disconnected_users ←
    broadcast_loop message exclude_users now
      (connection_items env (WS.active_connections s)) [];
  disconnect_each disconnected_users;;
  s ← registry WS.get;
  registry (WS.log INFO
    ("Broadcast message sent to "
     +:+ pretty (Z.of_nat (size (WS.active_connections s))
                 - Z.of_nat (length exclude_users))
     +:+ " users")).

Fixpoint subscribers_loop (subscription_type : string) (message : message)
    (now : timestamp) (items : list (string * gset string))
    (sent_count : Z) (disconnected_users : list string)
    : D (Z * list string) :=
  match items with
  | [] => mret (sent_count, disconnected_users)
  | (user_id, subscriptions) :: items =>
      s ← registry WS.get;
      match WS.active_connections s !! user_id with
      | Some websocket =>
          if bool_decide (subscription_type ∈ subscriptions) then
            raised ← send_text websocket message;
            match raised with
            | None =>
                registry (WS.modify (update_metadata user_id now));;
                subscribers_loop subscription_type message now items
                  (sent_count + 1) disconnected_users
            | Some e =>
                registry (WS.log ERROR
                  ("Error sending subscription message to user " +:+ user_id
                   +:+ ": " +:+ e));;
                subscribers_loop subscription_type message now items
                  sent_count (disconnected_users ++ [user_id])
            end
          else
            subscribers_loop subscription_type message now items
              sent_count disconnected_users
      | None =>
          subscribers_loop subscription_type message now items
            sent_count disconnected_users
      end
  end.

Definition send_to_subscribers (subscription_type : string) (message : message)
    (now : timestamp) : D unit :=
  let message := <["timestamp":=Str now]> message in
  let message := <["subscription_type":=Str subscription_type]> message in
  s ← registry WS.get;
  '(sent_count, disconnected_users) ←
    subscribers_loop subscription_type message now
      (subscription_items env (WS.subscriptions s)) 0 [];
  disconnect_each disconnected_users;;
  registry (WS.log INFO
    ("Subscription message sent to " +:+ pretty sent_count
     +:+ " users subscribed to " +:+ subscription_type)).

Fixpoint ping_loop (ping_message : message)
    (items : list (string * WS.WebSocket)) (disconnected_users : list string)
    : D (list string) :=
  match items with
  | [] => mret disconnected_users
  | (user_id, websocket) :: items =>
      raised ← send_text websocket ping_message;
      match raised with
      | None => ping_loop ping_message items disconnected_users
      | Some e =>
          registry (WS.log WARNING ("Ping failed for user " +:+ user_id
                                    +:+ ": " +:+ e));;
          ping_loop ping_message items (disconnected_users ++ [user_id])
      end
  end.

Definition ping_all_connections (now : timestamp) : D unit :=
  let ping_message : message :=
    <["timestamp":=Str now]> {["type" := Str "ping"]} in
  s ← registry WS.get;
  disconnected_users ←
    ping_loop ping_message (connection_items env (WS.active_connections s)) [];
  disconnect_each disconnected_users;;
  s ← registry WS.get;
  registry (WS.log INFO
    ("Pinged " +:+ pretty (size (WS.active_connections s))
     +:+ " connections, removed " +:+ pretty (length disconnected_users)
     +:+ " dead connections")).

Definition send_task_update (user_id task_id status : string)
    (result : option payload) (error : option string) (now : timestamp)
    : D unit :=
  let update_message : message :=
    <["timestamp":=Str now]> (<["status":=Str status]>
      (<["task_id":=Str task_id]> {["type" := Str "task_update"]})) in
  let update_message :=
    match result with
    | Some result => <["result":=Json result]> update_message
    | None => update_message
    end in
  let update_message :=
    match error with
    | Some error => <["error":=Str error]> update_message
    | None => update_message
    end in
  send_personal_message user_id update_message now;;
  mret ().

Definition send_system_alert (alert_type message severity : string)
    (now : timestamp) : D unit :=
  let alert_message : Delivery.message :=
    <["timestamp":=Str now]> (<["severity":=Str severity]>
      (<["message":=Str message]> (<["alert_type":=Str alert_type]>
        {["type" := Str "system_alert"]}))) in
  broadcast_message alert_message None now.

Definition send_analytics_update (user_id : string) (analytics_data : payload)
    (now : timestamp) : D unit :=
  let analytics_message : message :=
    <["timestamp":=Str now]> (<["data":=Json analytics_data]>
      {["type" := Str "analytics_update"]}) in
  send_personal_message user_id analytics_message now;;
  mret ().

(** [def get_connected_users] and [def get_all_connections_info], in the
    order of the dictionary. *)
Definition get_connected_users (s : WS.state) : list string :=
  (connection_items env (WS.active_connections s)).*1.

Definition get_all_connections_info (s : WS.state)
    : list Registry.connection_info :=
  omap (λ user_id, Registry.get_connection_info user_id s)
       (connection_items env (WS.active_connections s)).*1.

End methods.

End Delivery.

(** * The message handlers of [api/websocket_routes.py]

    The records of the module's [logger] go to the list of the manager's. *)

Module WebSocketRoutes.

(** [str(e)] *)
Definition str_exn (e : exn) : string :=
  match e with
  | RuntimeError msg => msg
  | HTTPException status_code detail => pretty status_code +:+ ": " +:+ detail
  end.

Section handlers.
Variable env : Delivery.environment.

(** [task_manager = TaskManager()] is a new instance at every request:
    no client, not initialised. *)
Definition handle_task_status_request (user_id task_id : string)
    (now : timestamp) : Delivery.D unit :=
  let task_manager := mk_tm redis_empty false [] in
  match get_task_status task_id task_manager with
  | (Returned (Some task_status), _) =>
      Delivery.send_personal_message env user_id
        (<["status":=Delivery.TaskDict task_status]>
           (<["task_id":=Delivery.Str task_id]>
              {["type" := Delivery.Str "task_status_response"]})) now;;
      mret ()
  | (Returned None, _) =>
      Delivery.send_personal_message env user_id
        (<["error":=Delivery.Str "Task not found"]>
           (<["task_id":=Delivery.Str task_id]>
              {["type" := Delivery.Str "task_status_response"]})) now;;
      mret ()
  | (Raised e, _) =>
      Delivery.registry env
        (WS.log ERROR ("Error getting task status for " +:+ task_id +:+ ": "
                       +:+ str_exn e));;
      Delivery.send_personal_message env user_id
        (<["message":=Delivery.Str ("Error retrieving task status: "
                                    +:+ str_exn e)]>
           {["type" := Delivery.Str "error"]}) now;;
      mret ()
  end.

Definition handle_subscription_request (user_id subscription_type : string)
    (now : timestamp) : Delivery.D unit :=
  Delivery.registry env (Registry.add_subscription user_id subscription_type);;
  Delivery.send_personal_message env user_id
    (<["message":=Delivery.Str ("Subscribed to " +:+ subscription_type
                                +:+ " updates")]>
       (<["subscription_type":=Delivery.Str subscription_type]>
          {["type" := Delivery.Str "subscription_confirmed"]})) now;;
  mret ().

End handlers.

End WebSocketRoutes.

(** * The background tasks of [main.py] *)

Module Background.

(** The two global instances of [main.py]. *)
Record system := mk_system {
  task_manager : TaskManager;
  websocket_manager : Delivery.world
}.

(** A coroutine of [main.py] on them; [None] when it waits for a lock
    that is held.  The records of the [logger] of [main.py] go to the list
    of the task manager's, as in the routes. *)
Definition B (A : Type) : Type := system → option (outcome A * system).

#[global] Instance B_ret : MRet B := λ A a σ, Some (Returned a, σ).

#[global] Instance B_bind : MBind B := λ A B k c σ,
  match c σ with
  | Some (Returned a, σ') => k a σ'
  | Some (Raised e, σ') => Some (Raised e, σ')
  | None => None
  end.

Definition tasks {A : Type} (m : M A) : B A := λ σ,
  let '(o, tm) := m (task_manager σ) in
  Some (o, mk_system tm (websocket_manager σ)).

Definition sockets {A : Type} (d : Delivery.D A) : B A := λ σ,
  match d (websocket_manager σ) with
  | Some (a, w) => Some (Returned a, mk_system (task_manager σ) w)
  | None => None
  end.

(** [await crew.<method>(...)]: the crew answers with a result, or raises
    an exception known by its [str].  While the coroutine waits the other
    requests run: [meanwhile] is what they do to the task manager. *)
Definition await_crew (meanwhile : TaskManager → TaskManager)
    (answer : payload + string) : B payload := λ σ,
  Some (match answer with
        | inl result => Returned result
        | inr e => Raised (RuntimeError e)
        end,
        mk_system (meanwhile (task_manager σ)) (websocket_manager σ)).

(** [try: body except Exception as e: handler(str(e))] *)
Definition try_except {A : Type} (body : B A) (handler : string → B A) : B A :=
  λ σ,
  match body σ with
  | Some (Raised e, σ') => handler (WebSocketRoutes.str_exn e) σ'
  | r => r
  end.

Section workers.
Variable env : Delivery.environment.

(** The body shared, up to the name in the log and the method of the crew,
    by the three background tasks. *)
Definition execute (name task_id user_id : string)
    (meanwhile : TaskManager → TaskManager) (answer : payload + string)
    (now later : timestamp) : B unit :=
  try_except
    (tasks (update_task_status task_id "running" None None None now);;
     result ← await_crew meanwhile answer;
     tasks (complete_task task_id (Some result) later);;
     sockets (Delivery.send_task_update env user_id task_id "completed"
                (Some result) None later))
    (λ e,
       tasks (log ERROR (name +:+ " task " +:+ task_id +:+ " failed: " +:+ e));;
       tasks (fail_task task_id e later);;
       sockets (Delivery.send_task_update env user_id task_id "failed"
                  None (Some e) later)).

Definition execute_content_generation := execute "Content generation".
Definition execute_trend_analysis := execute "Trend analysis".
Definition execute_video_creation := execute "Video creation".

End workers.

End Background.

(** * Vocabulary of the statements *)

(** ** Records written back *)

(** The record [update_task_status] writes back for a stored record [t]. *)
Definition updated (status : string) (progress : option Z)
    (error : option string) (result : option payload) (now : timestamp)
    (t : task_data) : task_data :=
  mk_task (task_id t) (task_type t) (user_id t) (parameters t) status
    (priority t) (max_retries t) (retry_count t) (timeout_seconds t)
    (created_at t) now
    (if bool_decide (status = "running") && negb (truthy (started_at t))
     then Some now else started_at t)
    (if is_terminal status then Some now else completed_at t)
    (match result with Some r => Some r | None => Task.result t end)
    (match error with Some e => Some e | None => Task.error t end)
    (match progress with Some p => p | None => Task.progress t end).

(** The record [retry_task] writes back below the retry limit. *)
Definition retried (now : timestamp) (t : task_data) : task_data :=
  mk_task (task_id t) (task_type t) (user_id t) (parameters t) "pending"
    (priority t) (max_retries t) (retry_count t + 1) (timeout_seconds t)
    (created_at t) now None None (result t) None 0.

(** ** Observations on the server *)

(** The stored record of a task, the queue of a tier and the active set. *)
Definition stored (task_id : string) (tm : TaskManager) : option task_data :=
  redis_get (task_prefix +:+ task_id) (redis_client tm).

Definition queue (priority : TaskPriority) (tm : TaskManager) : list string :=
  lrange (queue_name priority) (redis_client tm).

Definition active_tasks (tm : TaskManager) : gset string :=
  smembers active_tasks_prefix (redis_client tm).

(** ** Calls and histories *)

(** The calls a client of the manager can make. *)
Inductive call :=
  | CreateTask (task_type user_id : string) (parameters : payload)
      (priority : TaskPriority) (max_retries timeout_seconds : Z)
      (task_id : string) (now : timestamp)
  | UpdateTaskStatus (task_id status : string) (progress : option Z)
      (error : option string) (result : option payload) (now : timestamp)
  | CompleteTask (task_id : string) (result : option payload) (now : timestamp)
  | FailTask (task_id error : string) (now : timestamp)
  | CancelTask (task_id reason : string) (now : timestamp)
  | RetryTask (task_id : string) (now : timestamp)
  | GetNextTask (decode_responses : bool) (priority : TaskPriority).

(** The manager after a call. *)
Definition exec (c : call) (tm : TaskManager) : TaskManager :=
  match c with
  | CreateTask ty u ps p mr to tid now => snd (create_task ty u ps p mr to tid now tm)
  | UpdateTaskStatus tid s p e r now => snd (update_task_status tid s p e r now tm)
  | CompleteTask tid r now => snd (complete_task tid r now tm)
  | FailTask tid e now => snd (fail_task tid e now tm)
  | CancelTask tid reason now => snd (cancel_task tid reason now tm)
  | RetryTask tid now => snd (retry_task tid now tm)
  | GetNextTask dr p => snd (get_next_task dr p tm)
  end.

Definition exec_all (cs : list call) (tm : TaskManager) : TaskManager :=
  foldl (λ tm c, exec c tm) tm cs.

(** [CompleteTask], [FailTask] and [CancelTask] are status updates. *)
Definition as_update (c : call) : call :=
  match c with
  | CompleteTask tid r now => UpdateTaskStatus tid "completed" (Some 100) None r now
  | FailTask tid e now => UpdateTaskStatus tid "failed" None (Some e) None now
  | CancelTask tid reason now => UpdateTaskStatus tid "cancelled" None (Some reason) None now
  | c => c
  end.

Definition outcome_of {A : Type} (m : M A) (tm : TaskManager) : outcome A :=
  fst (m tm).

Definition state_after {A : Type} (m : M A) (tm : TaskManager) : TaskManager :=
  snd (m tm).

(** A manager freshly initialised on an empty server, and three small
    histories used as concrete inputs below. *)
Definition manager0 : TaskManager :=
  state_after (initialize redis_empty) (mk_tm redis_empty false []).

Definition manager_failed : TaskManager :=
  exec_all [CreateTask "content_generation" "u1" "{}" MEDIUM 3 300 "t1" "09:00";
            FailTask "t1" "boom" "09:01"] manager0.

Definition manager_completed : TaskManager :=
  exec_all [CreateTask "content_generation" "u1" "{}" MEDIUM 3 300 "t1" "09:00";
            UpdateTaskStatus "t1" "running" None None None "09:01";
            CompleteTask "t1" (Some "[1, 2, 3]") "09:02"] manager0.

Definition manager_running : TaskManager :=
  exec_all [CreateTask "content_generation" "u1" "{}" MEDIUM 3 300 "t1" "09:00";
            UpdateTaskStatus "t1" "running" (Some 50) None None "09:01"] manager0.

(** ** Invariants and conditions on histories *)

(** The bound on [retry_count]. *)
Definition retry_bounded (tm : TaskManager) : Prop :=
  ∀ tid t, stored tid tm = Some t → retry_count t ≤ max_retries t.

Definition nonneg_max_retries (c : call) : Prop :=
  match c with
  | CreateTask _ _ _ _ max_retries _ _ _ => 0 ≤ max_retries
  | _ => True
  end.

(** The identifiers a call pushes on tier [p], and the identifier it hands
    out from tier [p], as the caller sees them. *)
Definition pushed (p : TaskPriority) (c : call) (tm : TaskManager) : list string :=
  match c with
  | CreateTask _ _ _ q _ _ task_id _ => if decide (q = p) then [task_id] else []
  | RetryTask task_id now =>
      match outcome_of (retry_task task_id now) tm, stored task_id tm with
      | Returned true, Some t => if decide (priority t = p) then [task_id] else []
      | _, _ => []
      end
  | _ => []
  end.

Definition popped (p : TaskPriority) (c : call) (tm : TaskManager) : list string :=
  match c with
  | GetNextTask dr q =>
      if decide (q = p) then
        match outcome_of (get_next_task dr q) tm with
        | Returned (Some task_id) => [task_id]
        | _ => []
        end
      else []
  | _ => []
  end.

Fixpoint enqueued (p : TaskPriority) (cs : list call) (tm : TaskManager)
    : list string :=
  match cs with
  | [] => []
  | c :: cs => pushed p c tm ++ enqueued p cs (exec c tm)
  end.

Fixpoint dequeued (p : TaskPriority) (cs : list call) (tm : TaskManager)
    : list string :=
  match cs with
  | [] => []
  | c :: cs => popped p c tm ++ dequeued p cs (exec c tm)
  end.

(** The identifier a call removes from tier [p], the reply of its [RPOP],
    whatever becomes of it. *)
Definition removed (p : TaskPriority) (c : call) (tm : TaskManager) : list string :=
  match c with
  | GetNextTask _ q =>
      if decide (q = p) then
        if initialized tm then option_list (last (queue p tm)) else []
      else []
  | _ => []
  end.

Fixpoint taken (p : TaskPriority) (cs : list call) (tm : TaskManager)
    : list string :=
  match cs with
  | [] => []
  | c :: cs => removed p c tm ++ taken p cs (exec c tm)
  end.



(** The registry once ["u1"] has connected on channel [1]. *)
Definition u1_connected : WS.state :=
  WS.mk_state {["u1" := 1%nat]} {["u1" := ∅]}
    {["u1" := WS.mk_metadata "09:00" "09:00" 0]} None []
    [mk_log INFO "WebSocket connected for user u1. Active connections: 1"].

(** ["u1"] is connected on channel [1] and a [disconnect("u1")] is under
    way: it has taken the lock and awaits [close()] on channel [1].  The
    state as the coroutine [h] stands for sees it. *)
Definition u1_disconnecting (h : WS.holder) : WS.state :=
  WS.set_lock (Some h) (WS.add_closed 1%nat u1_connected).

(** ** Vocabulary of the further properties *)

(** A record is older than the cutoff of a sweep. *)
Definition expired (cutoff_timestamp : timestamp) (t : task_data) : Prop :=
  String.ltb (created_at t) cutoff_timestamp = true.

(** What [SCAN] guarantees for the pattern ["task:*"]: the keys yielded
    are exactly the matching keys present (each at least once). *)
Definition scans_task_keys (scan_iter : Redis → list string) : Prop :=
  ∀ r k, k ∈ scan_iter r ↔
         is_Some (kv r !! k) ∧ String.prefix task_prefix k = true.

(** A scan in the order of the server's key table. *)
Definition scan_in_table_order (r : Redis) : list string :=
  filter (λ k, String.prefix task_prefix k = true) (map_to_list (kv r)).*1.

(** The sweep as a function on the server: the count and the server after
    the loop over [task_keys]. *)
Definition sweep_key (cutoff_timestamp : timestamp) (key : string) (r : Redis)
    : bool * Redis :=
  match redis_get key r with
  | Some task_info =>
      if String.ltb (created_at task_info) cutoff_timestamp then
        let r := redis_delete key r in
        let r := if truthy (Some (user_id task_info))
                 then redis_srem (user_tasks_prefix +:+ user_id task_info)
                        (task_id task_info) r
                 else r in
        (true, redis_srem active_tasks_prefix (task_id task_info) r)
      else (false, r)
  | None => (false, r)
  end.

Fixpoint sweep (cutoff_timestamp : timestamp) (task_keys : list string)
    (cleaned_count : Z) (r : Redis) : Z * Redis :=
  match task_keys with
  | [] => (cleaned_count, r)
  | key :: task_keys =>
      let '(cleaned, r) := sweep_key cutoff_timestamp key r in
      sweep cutoff_timestamp task_keys
        (if (cleaned : bool) then cleaned_count + 1 else cleaned_count) r
  end.

(** A key of [keys] whose record is older than the cutoff removes the
    identifier [x] of that record from the set [K]: the active set, and
    the index of the owner when the owner is not the empty string. *)
Definition sweeps_out (cutoff : timestamp) (keys : list string) (r : Redis)
    (K x : string) : Prop :=
  ∃ k t ex, k ∈ keys ∧ kv r !! k = Some (t, ex) ∧ expired cutoff t ∧
            task_id t = x ∧
            (K = active_tasks_prefix ∨
             (user_id t ≠ "" ∧ K = user_tasks_prefix +:+ user_id t)).

(** The index of the tasks of a user. *)
Definition user_tasks (user_id : string) (tm : TaskManager) : gset string :=
  smembers (user_tasks_prefix +:+ user_id) (redis_client tm).

(** Three facts about a server the manager has filled: a record sits under
    the key of its own identifier; the record of an active identifier,
    where the server still holds one, is not terminal; a record is listed
    in the index of its owner. *)
Definition keys_name_records (tm : TaskManager) : Prop :=
  ∀ tid t, stored tid tm = Some t → task_id t = tid.

Definition active_tasks_live (tm : TaskManager) : Prop :=
  ∀ tid t, tid ∈ active_tasks tm → stored tid tm = Some t →
           is_terminal (status t) = false.

Definition records_indexed (tm : TaskManager) : Prop :=
  ∀ tid t, stored tid tm = Some t → tid ∈ user_tasks (user_id t) tm.

(** Every [set] of a task document carries [ex=86400]: the server drops
    the key [task:<id>] once that time has run out, and touches neither
    the sets nor the lists, which are written without an expiry.  The
    embedding has no clock of the server; a history may instead let the
    document of any task expire at any point, which covers every moment
    at which the server can really drop it. *)
Definition expire (task_id : string) (tm : TaskManager) : TaskManager :=
  mk_tm (redis_delete (task_prefix +:+ task_id) (redis_client tm))
        (initialized tm) (logger tm).

(** Calls, sweeps and the expiry of task documents. *)
Inductive op :=
  | Call (c : call)
  | CleanupExpiredTasks (cutoff_timestamp : timestamp)
  | KeyExpires (task_id : string).

Definition exec_op (scan_iter : Redis → list string) (o : op) (tm : TaskManager)
    : TaskManager :=
  match o with
  | Call c => exec c tm
  | CleanupExpiredTasks cutoff =>
      state_after (cleanup_expired_tasks scan_iter cutoff) tm
  | KeyExpires task_id => expire task_id tm
  end.

Definition exec_ops (scan_iter : Redis → list string) (os : list op)
    (tm : TaskManager) : TaskManager :=
  foldl (λ tm o, exec_op scan_iter o tm) tm os.

(** The fields of a record no method assigns after creation. *)
Definition same_identity (t t' : task_data) : Prop :=
  task_id t' = task_id t ∧ task_type t' = task_type t ∧
  user_id t' = user_id t ∧ parameters t' = parameters t ∧
  priority t' = priority t ∧ max_retries t' = max_retries t ∧
  timeout_seconds t' = timeout_seconds t ∧ created_at t' = created_at t.

(** The operation is a [create_task] that drew the identifier [tid]. *)
Definition creates (tid : string) (o : op) : Prop :=
  match o with
  | Call (CreateTask _ _ _ _ _ _ task_id _) => task_id = tid
  | _ => False
  end.





(** The number of [retry_task(tid)] calls of a history that returned
    [True]. *)
Definition retry_granted (tid : string) (c : call) (tm : TaskManager) : Z :=
  match c with
  | RetryTask task_id now =>
      if decide (task_id = tid) then
        match outcome_of (retry_task task_id now) tm with
        | Returned true => 1
        | _ => 0
        end
      else 0
  | _ => 0
  end.

Fixpoint retries_granted (tid : string) (cs : list call) (tm : TaskManager) : Z :=
  match cs with
  | [] => 0
  | c :: cs => retry_granted tid c tm + retries_granted tid cs (exec c tm)
  end.

(** The listing of a user's tasks. *)

(** A record passes the status filter of [get_user_tasks]. *)
Definition kept (status_filter : option string) (t : task_data) : bool :=
  negb (truthy status_filter
        && negb (bool_decide (Some (status t) = status_filter))).

(** The records found for a list of identifiers, in that order, filtered. *)
Definition listed (status_filter : option string) (task_ids : list string)
    (tm : TaskManager) : list task_data :=
  filter (λ t, kept status_filter t = true)
         (omap (λ task_id, stored task_id tm) task_ids).

(** The order of the listing: most recent [created_at] first. *)
Definition newer_first (a b : task_data) : Prop :=
  String.le (created_at b) (created_at a).

(** An iteration order of sets: each member once. *)
Definition enumerates (iter : gset string → list string) : Prop :=
  ∀ s, iter s ≡ₚ elements s.

(** A manager holding two tasks of one user in one tier. *)
Definition manager_two_tasks : TaskManager :=
  exec_all [CreateTask "content_generation" "u1" "{}" HIGH 3 300 "a" "09:00";
            CreateTask "trend_analysis" "u1" "{}" HIGH 3 300 "c" "09:02"]
    manager0.

(** ** Vocabulary of the registry properties *)

(** The registry after [disconnect(user_id)] returned. *)
Definition without (close_raises : WS.WebSocket → option string)
    (user_id : string) (s : WS.state) : WS.state :=
  match WS.active_connections s !! user_id with
  | Some websocket =>
      WS.mk_state (delete user_id (WS.active_connections s))
        (delete user_id (WS.subscriptions s))
        (delete user_id (WS.connection_metadata s))
        (WS._lock s) (websocket :: WS.closed s)
        (mk_log INFO ("WebSocket disconnected for user " +:+ user_id
                      +:+ ". Active connections: "
                      +:+ pretty (size (delete user_id (WS.active_connections s))))
         :: match close_raises websocket with
            | Some e => [mk_log WARNING ("Error closing WebSocket for user "
                                         +:+ user_id +:+ ": " +:+ e)]
            | None => []
            end ++ WS.logger s)
  | None => s
  end.

(** The entries of the three dictionaries agree: an identity has metadata
    exactly when it has a connection, and then it has a subscription set. *)
Definition coherent (s : WS.state) : Prop :=
  dom (WS.connection_metadata s) = dom (WS.active_connections s) ∧
  dom (WS.active_connections s) ⊆ dom (WS.subscriptions s).

(** The metadata of a connection after one more message at [now]. *)
Definition one_more_message (now : timestamp) (m : WS.metadata) : WS.metadata :=
  WS.mk_metadata (WS.connected_at m) now (WS.message_count m + 1).

(** The arguments of a [send_task_update] call, and a sequence of such
    calls on one manager: what [main.py] does with the instance it
    creates. *)
Record task_update := mk_task_update {
  to_user : string;
  about_task : string;
  new_status : string;
  with_result : option payload;
  with_error : option string;
  sent_at : timestamp
}.

Fixpoint send_task_updates (env : Delivery.environment)
    (updates : list task_update) : Delivery.D unit :=
  match updates with
  | [] => mret ()
  | u :: updates =>
      Delivery.send_task_update env (to_user u) (about_task u) (new_status u)
        (with_result u) (with_error u) (sent_at u);;
      send_task_updates env updates
  end.

(** The sends of a loop over [attempts], split by the answer of the
    network. *)
Definition accepted (env : Delivery.environment)
    (attempts : list (string * WS.WebSocket)) : list (string * WS.WebSocket) :=
  filter (λ kv, Delivery.send_raises env kv.2 = None) attempts.

Definition refused (env : Delivery.environment)
    (attempts : list (string * WS.WebSocket)) : list (string * WS.WebSocket) :=
  filter (λ kv, is_Some (Delivery.send_raises env kv.2)) attempts.

(** The registry after [disconnect] was awaited for each of [users]. *)
Definition without_all (close_raises : WS.WebSocket → option string)
    (users : list string) (s : WS.state) : WS.state :=
  foldl (λ s user_id, without close_raises user_id s) s users.

(** The connections, subscriptions, lock and closed sockets are the same. *)
Definition same_registry (s s' : WS.state) : Prop :=
  WS.active_connections s' = WS.active_connections s ∧
  WS.subscriptions s' = WS.subscriptions s ∧
  WS._lock s' = WS._lock s ∧
  WS.closed s' = WS.closed s.

(** The sends [send_to_subscribers] attempts: the connected identities of
    [items] whose set holds the subscription type. *)
Definition subscribed (connections : gmap string WS.WebSocket)
    (subscription_type : string) (items : list (string * gset string))
    : list (string * WS.WebSocket) :=
  omap (λ kv, if bool_decide (subscription_type ∈ kv.2)
              then (λ ws, (kv.1, ws)) <$> connections !! kv.1
              else None) items.

(** The calls made on the manager of [api/websocket_routes.py], each with
    the environment it runs in, and a sequence of them, each run to its
    return before the next. *)
Inductive ws_call :=
  | Connect (user_id : string) (websocket : WS.WebSocket) (now : timestamp)
  | Disconnect (user_id : string)
  | AddSubscription (user_id subscription_type : string)
  | RemoveSubscription (user_id subscription_type : string)
  | SendPersonalMessage (user_id : string) (message : Delivery.message)
      (now : timestamp)
  | BroadcastMessage (message : Delivery.message)
      (exclude_users : option (list string)) (now : timestamp)
  | SendToSubscribers (subscription_type : string) (message : Delivery.message)
      (now : timestamp)
  | PingAllConnections (now : timestamp)
  | HandleTaskStatusRequest (user_id task_id : string) (now : timestamp)
  | HandleSubscriptionRequest (user_id subscription_type : string)
      (now : timestamp).

Definition perform (env : Delivery.environment) (c : ws_call)
    : Delivery.D unit :=
  match c with
  | Connect user_id websocket now =>
      Delivery.registry env (WS.connect user_id websocket now)
  | Disconnect user_id => Delivery.registry env (WS.disconnect user_id)
  | AddSubscription user_id subscription_type =>
      Delivery.registry env (Registry.add_subscription user_id subscription_type)
  | RemoveSubscription user_id subscription_type =>
      Delivery.registry env
        (Registry.remove_subscription user_id subscription_type)
  | SendPersonalMessage user_id message now =>
      Delivery.send_personal_message env user_id message now;; mret ()
  | BroadcastMessage message exclude_users now =>
      Delivery.broadcast_message env message exclude_users now
  | SendToSubscribers subscription_type message now =>
      Delivery.send_to_subscribers env subscription_type message now
  | PingAllConnections now => Delivery.ping_all_connections env now
  | HandleTaskStatusRequest user_id task_id now =>
      WebSocketRoutes.handle_task_status_request env user_id task_id now
  | HandleSubscriptionRequest user_id subscription_type now =>
      WebSocketRoutes.handle_subscription_request env user_id
        subscription_type now
  end.

Fixpoint perform_all (cs : list (Delivery.environment * ws_call))
    : Delivery.D unit :=
  match cs with
  | [] => mret ()
  | (env, c) :: cs => perform env c;; perform_all cs
  end.

(** * Properties *)

(** ** The Redis commands *)

Section redis_facts.
Implicit Types (r : Redis) (k x : string) (t : task_data).

Lemma lookup_put_list k k' (l : list string) (m : gmap string (list string)) :
  default [] (put_list k l m !! k') =
  if decide (k = k') then l else default [] (m !! k').
Proof.
  unfold put_list.
  destruct l; case_decide; simplify_map_eq; done.
Qed.

Lemma lookup_put_set k k' (s : gset string) (m : gmap string (gset string)) :
  default ∅ (put_set k s m !! k') =
  if decide (k = k') then s else default ∅ (m !! k').
Proof.
  unfold put_set.
  repeat case_decide; simplify_map_eq; done.
Qed.

Lemma redis_get_set k k' t ex r :
  redis_get k' (redis_set k t ex r) =
  if decide (k = k') then Some t else redis_get k' r.
Proof.
  unfold redis_get, redis_set; simpl.
  case_decide; simplify_map_eq; done.
Qed.

Lemma redis_get_sadd k' k x r : redis_get k' (redis_sadd k x r) = redis_get k' r.
Proof. done. Qed.

Lemma redis_get_srem k' k x r : redis_get k' (redis_srem k x r) = redis_get k' r.
Proof. done. Qed.

Lemma redis_get_lpush k' k x r : redis_get k' (redis_lpush k x r) = redis_get k' r.
Proof. done. Qed.

Lemma lrange_set k' k t ex r : lrange k' (redis_set k t ex r) = lrange k' r.
Proof. done. Qed.

Lemma lrange_sadd k' k x r : lrange k' (redis_sadd k x r) = lrange k' r.
Proof. done. Qed.

Lemma lrange_srem k' k x r : lrange k' (redis_srem k x r) = lrange k' r.
Proof. done. Qed.

Lemma lrange_lpush k' k x r :
  lrange k' (redis_lpush k x r) =
  if decide (k = k') then x :: lrange k r else lrange k' r.
Proof. unfold lrange at 1, redis_lpush; cbn [lists]. apply lookup_put_list. Qed.

Lemma smembers_lpush k' k x r : smembers k' (redis_lpush k x r) = smembers k' r.
Proof. done. Qed.

Lemma smembers_sadd k' k x r :
  smembers k' (redis_sadd k x r) =
  if decide (k = k') then smembers k r ∪ {[x]} else smembers k' r.
Proof. unfold smembers at 1, redis_sadd; cbn [sets]. apply lookup_put_set. Qed.

Lemma smembers_srem k' k x r :
  smembers k' (redis_srem k x r) =
  if decide (k = k') then smembers k r ∖ {[x]} else smembers k' r.
Proof. unfold smembers at 1, redis_srem; cbn [sets]. apply lookup_put_set. Qed.

(** [RPOP] on a list whose right end is [x]. *)
Lemma redis_rpop_snoc k (l : list string) x r :
  lrange k r = l ++ [x] →
  ∃ r', redis_rpop k r = (Some x, r') ∧ kv r' = kv r ∧ sets r' = sets r ∧
        ∀ k', lrange k' r' = if decide (k = k') then l else lrange k' r.
Proof.
  intros Hl. unfold redis_rpop. rewrite Hl, reverse_snoc.
  eexists; split; [done|]. split; [done|]. split; [done|].
  intros k'. unfold lrange at 1; cbn [lists].
  rewrite lookup_put_list, reverse_involutive. done.
Qed.

Lemma redis_rpop_nil k r : lrange k r = [] → redis_rpop k r = (None, r).
Proof. intros Hl. unfold redis_rpop. rewrite Hl. done. Qed.
End redis_facts.

(** Keys built from one prefix are distinct when the suffixes are. *)
Lemma append_inj_r (p s1 s2 : string) : p +:+ s1 = p +:+ s2 → s1 = s2.
Proof. induction p as [|a p IH]; simpl; [done|]. intros [=]. auto. Qed.

Lemma queue_name_inj (p q : TaskPriority) : queue_name p = queue_name q → p = q.
Proof.
  intros H. apply append_inj_r in H. by destruct p, q.
Qed.

(** ** Equations of the methods *)

Ltac run_M :=
  unfold require_initialized;
  unfold mbind, M_bind, mret, M_ret, self, raise, redis_do, redis_call, log;
  cbn [initialized redis_client logger].

Ltac start_M tm Hinit :=
  destruct tm as [rc ini lg]; cbn [initialized] in Hinit; subst ini;
  cbn [redis_client logger initialized] in *.

Lemma get_task_status_eq tm task_id :
  initialized tm = true →
  get_task_status task_id tm = (Returned (stored task_id tm), tm).
Proof. intros Hinit. start_M tm Hinit. reflexivity. Qed.

Lemma update_task_status_found tm task_id status progress error result now t :
  initialized tm = true →
  stored task_id tm = Some t →
  update_task_status task_id status progress error result now tm =
  (Returned (),
   mk_tm
     (redis_set (task_prefix +:+ task_id)
        (updated status progress error result now t) 86400
        (if is_terminal status
         then redis_srem active_tasks_prefix task_id (redis_client tm)
         else redis_client tm))
     true
     (mk_log INFO ("Task " +:+ task_id +:+ " status updated to " +:+ status)
        :: logger tm)).
Proof.
  intros Hinit Hget. start_M tm Hinit. unfold stored in Hget.
  unfold update_task_status, get_task_status. run_M.
  cbn [redis_client] in Hget. rewrite Hget.
  unfold updated. cbn [TaskStatus_value].
  destruct progress, error, result, (is_terminal status),
    (bool_decide (status = "running")), t as [? ? ? ? ? ? ? ? ? ? ? st ? ? ? ?];
    cbn; try destruct (truthy st); reflexivity.
Qed.

Lemma update_task_status_missing tm task_id status progress error result now :
  initialized tm = true →
  stored task_id tm = None →
  update_task_status task_id status progress error result now tm =
  (Returned (),
   mk_tm (redis_client tm) true
     (mk_log WARNING ("Task " +:+ task_id +:+ " not found for status update")
        :: logger tm)).
Proof.
  intros Hinit Hget. start_M tm Hinit. unfold stored in Hget.
  unfold update_task_status, get_task_status. run_M.
  cbn [redis_client] in Hget. rewrite Hget. reflexivity.
Qed.

Lemma retry_task_missing tm task_id now :
  initialized tm = true →
  stored task_id tm = None →
  retry_task task_id now tm =
  (Returned false,
   mk_tm (redis_client tm) true
     (mk_log WARNING ("Task " +:+ task_id +:+ " not found for retry")
        :: logger tm)).
Proof.
  intros Hinit Hget. start_M tm Hinit. unfold stored in Hget.
  unfold retry_task, get_task_status. run_M.
  cbn [redis_client] in Hget. rewrite Hget. reflexivity.
Qed.

Lemma retry_task_exhausted tm task_id now t :
  initialized tm = true →
  stored task_id tm = Some t →
  max_retries t ≤ retry_count t →
  retry_task task_id now tm =
  (Returned false,
   mk_tm (redis_client tm) true
     (mk_log WARNING ("Task " +:+ task_id +:+ " has exceeded max retries")
        :: logger tm)).
Proof.
  intros Hinit Hget Hle. start_M tm Hinit. unfold stored in Hget.
  unfold retry_task, get_task_status. run_M.
  cbn [redis_client] in Hget. rewrite Hget.
  rewrite bool_decide_eq_true_2 by done. reflexivity.
Qed.

Lemma retry_task_below_limit tm task_id now t :
  initialized tm = true →
  stored task_id tm = Some t →
  retry_count t < max_retries t →
  retry_task task_id now tm =
  (Returned true,
   mk_tm
     (redis_lpush (queue_name (priority t)) task_id
        (redis_sadd active_tasks_prefix task_id
           (redis_set (task_prefix +:+ task_id) (retried now t) 86400
              (redis_client tm))))
     true
     (mk_log INFO ("Task " +:+ task_id +:+ " queued for retry (attempt "
                   +:+ pretty (retry_count t + 1) +:+ ")")
        :: logger tm)).
Proof.
  intros Hinit Hget Hlt. start_M tm Hinit. unfold stored in Hget.
  unfold retry_task, get_task_status. run_M.
  cbn [redis_client] in Hget. rewrite Hget.
  rewrite bool_decide_eq_false_2 by lia. reflexivity.
Qed.

Lemma create_task_at_eq tm task_type user_id parameters priority max_retries
    timeout_seconds task_id now later :
  initialized tm = true →
  create_task_at task_type user_id parameters priority max_retries
    timeout_seconds task_id now later tm =
  (Returned task_id,
   mk_tm
     (redis_lpush (queue_name priority) task_id
        (redis_sadd active_tasks_prefix task_id
           (redis_sadd (user_tasks_prefix +:+ user_id) task_id
              (redis_set (task_prefix +:+ task_id)
                 (mk_task task_id task_type user_id parameters "pending"
                    priority max_retries 0 timeout_seconds now later None None
                    None None 0)
                 86400 (redis_client tm)))))
     true
     (mk_log INFO ("Task created: " +:+ task_id +:+ " for user " +:+ user_id)
        :: logger tm)).
Proof. intros Hinit. start_M tm Hinit. reflexivity. Qed.

Lemma create_task_eq tm task_type user_id parameters priority max_retries
    timeout_seconds task_id now :
  initialized tm = true →
  create_task task_type user_id parameters priority max_retries
    timeout_seconds task_id now tm =
  (Returned task_id,
   mk_tm
     (redis_lpush (queue_name priority) task_id
        (redis_sadd active_tasks_prefix task_id
           (redis_sadd (user_tasks_prefix +:+ user_id) task_id
              (redis_set (task_prefix +:+ task_id)
                 (mk_task task_id task_type user_id parameters "pending"
                    priority max_retries 0 timeout_seconds now now None None
                    None None 0)
                 86400 (redis_client tm)))))
     true
     (mk_log INFO ("Task created: " +:+ task_id +:+ " for user " +:+ user_id)
        :: logger tm)).
Proof. intros Hinit. unfold create_task. by rewrite create_task_at_eq. Qed.

Lemma get_next_task_eq tm decode_responses priority :
  initialized tm = true →
  get_next_task decode_responses priority tm =
  let '(reply, r) := redis_rpop (queue_name priority) (redis_client tm) in
  (Returned (if truthy reply && negb decode_responses then reply else None),
   mk_tm r true
     (if truthy reply && decode_responses
      then mk_log ERROR ("Failed to get next task from "
                         +:+ TaskPriority_name priority +:+ " queue: "
                         +:+ str_has_no_decode) :: logger tm
      else logger tm)).
Proof.
  intros Hinit. start_M tm Hinit.
  unfold get_next_task. run_M.
  destruct (redis_rpop _ _) as [reply r].
  by destruct (truthy reply), decode_responses.
Qed.

Lemma require_initialized_false {A} (k : unit → M A) tm :
  initialized tm = false →
  (require_initialized ≫= k) tm =
  (Raised (RuntimeError "Task Manager not initialized"), tm).
Proof. intros H. run_M. rewrite H. done. Qed.

Lemma update_task_status_uninitialized tm task_id status progress error result now :
  initialized tm = false →
  update_task_status task_id status progress error result now tm =
  (Raised (RuntimeError "Task Manager not initialized"), tm).
Proof. intros H. unfold update_task_status. by apply require_initialized_false. Qed.

Lemma retry_task_uninitialized tm task_id now :
  initialized tm = false →
  retry_task task_id now tm =
  (Raised (RuntimeError "Task Manager not initialized"), tm).
Proof. intros H. unfold retry_task. by apply require_initialized_false. Qed.

Lemma create_task_uninitialized tm task_type user_id parameters priority
    max_retries timeout_seconds task_id now :
  initialized tm = false →
  create_task task_type user_id parameters priority max_retries
    timeout_seconds task_id now tm =
  (Raised (RuntimeError "Task Manager not initialized"), tm).
Proof.
  intros H. unfold create_task, create_task_at.
  by apply require_initialized_false.
Qed.

Lemma get_next_task_uninitialized tm decode_responses priority :
  initialized tm = false →
  get_next_task decode_responses priority tm = (Returned None, tm).
Proof. intros H. unfold get_next_task. run_M. by rewrite H. Qed.

(** ** Sequences of calls *)

Lemma exec_as_update c tm : exec c tm = exec (as_update c) tm.
Proof. by destruct c. Qed.

(** Reduction of a statement about any call to the four methods behind
    the calls. *)
Lemma call_cases (P : call → Prop) :
  (∀ ty u ps p mr to tid now, P (CreateTask ty u ps p mr to tid now)) →
  (∀ tid s p e r now, P (UpdateTaskStatus tid s p e r now)) →
  (∀ tid now, P (RetryTask tid now)) →
  (∀ dr p, P (GetNextTask dr p)) →
  ∀ c, P (as_update c).
Proof. intros H1 H2 H3 H4 []; cbn; auto. Qed.

Lemma exec_all_cons c cs tm : exec_all (c :: cs) tm = exec_all cs (exec c tm).
Proof. done. Qed.

Lemma exec_all_app cs1 cs2 tm :
  exec_all (cs1 ++ cs2) tm = exec_all cs2 (exec_all cs1 tm).
Proof. apply foldl_app. Qed.

(** What a call does to the manager, by cases. *)
Lemma exec_uninitialized c tm : initialized tm = false → exec c tm = tm.
Proof.
  intros H. rewrite exec_as_update. destruct c; cbn [as_update exec].
  - by rewrite create_task_uninitialized.
  - by rewrite update_task_status_uninitialized.
  - by rewrite update_task_status_uninitialized.
  - by rewrite update_task_status_uninitialized.
  - by rewrite update_task_status_uninitialized.
  - by rewrite retry_task_uninitialized.
  - by rewrite get_next_task_uninitialized.
Qed.

Lemma exec_initialized c tm : initialized (exec c tm) = initialized tm.
Proof.
  destruct (initialized tm) eqn:Hinit; [|by rewrite exec_uninitialized].
  rewrite exec_as_update. destruct c; cbn [as_update exec].
  - by rewrite create_task_eq.
  - destruct (stored task_id0 tm) eqn:Hs.
    + by erewrite update_task_status_found.
    + by rewrite update_task_status_missing.
  - destruct (stored task_id0 tm) eqn:Hs.
    + by erewrite update_task_status_found.
    + by rewrite update_task_status_missing.
  - destruct (stored task_id0 tm) eqn:Hs.
    + by erewrite update_task_status_found.
    + by rewrite update_task_status_missing.
  - destruct (stored task_id0 tm) eqn:Hs.
    + by erewrite update_task_status_found.
    + by rewrite update_task_status_missing.
  - destruct (stored task_id0 tm) as [t|] eqn:Hs.
    + destruct (decide (max_retries t ≤ retry_count t)).
      * by erewrite retry_task_exhausted.
      * erewrite retry_task_below_limit; [done..|lia].
    + by rewrite retry_task_missing.
  - rewrite get_next_task_eq by done. by destruct (redis_rpop _ _).
Qed.

Lemma exec_all_initialized cs tm : initialized (exec_all cs tm) = initialized tm.
Proof.
  revert tm. induction cs as [|c cs IH]; intros tm; [done|].
  rewrite exec_all_cons, IH. apply exec_initialized.
Qed.

(** ** What the calls do to a stored record and to the queues *)

Lemma task_key_eq (tid tid' : string) :
  task_prefix +:+ tid = task_prefix +:+ tid' ↔ tid = tid'.
Proof. split; [apply append_inj_r | by intros ->]. Qed.

Lemma redis_get_set_task tid tid' t ex r :
  redis_get (task_prefix +:+ tid') (redis_set (task_prefix +:+ tid) t ex r) =
  if decide (tid = tid') then Some t else redis_get (task_prefix +:+ tid') r.
Proof.
  rewrite redis_get_set.
  destruct (decide (tid = tid')) as [->|Hne]; [by rewrite decide_True|].
  rewrite decide_False; [done|]. by rewrite task_key_eq.
Qed.

Lemma lrange_lpush_queue p q x r :
  lrange (queue_name q) (redis_lpush (queue_name p) x r) =
  if decide (p = q) then x :: lrange (queue_name p) r else lrange (queue_name q) r.
Proof.
  rewrite lrange_lpush.
  destruct (decide (p = q)) as [->|Hne]; [by rewrite decide_True|].
  rewrite decide_False; [done|]. intros H. by apply queue_name_inj in H.
Qed.

Lemma redis_rpop_spec k r :
  ∃ r', redis_rpop k r = (last (lrange k r), r') ∧ kv r' = kv r ∧
        sets r' = sets r ∧
        ∀ k', lrange k' r' = if decide (k = k') then removelast (lrange k r)
                             else lrange k' r.
Proof.
  destruct (lrange k r) as [|x l _] eqn:Hl using rev_ind.
  - exists r. rewrite redis_rpop_nil by done. repeat split; try done.
    intros k'. case_decide; [by subst|done].
  - destruct (redis_rpop_snoc k l x r Hl) as (r' & Hpop & Hkv & Hsets & Hq).
    exists r'. rewrite Hpop, last_snoc, removelast_last. done.
Qed.

Section calls.
Variable tm : TaskManager.
Hypothesis Hinit : initialized tm = true.

Lemma stored_create ty u ps p mr to tid now tid' :
  stored tid' (exec (CreateTask ty u ps p mr to tid now) tm) =
  if decide (tid = tid')
  then Some (mk_task tid ty u ps "pending" p mr 0 to now now None None None None 0)
  else stored tid' tm.
Proof.
  cbn [exec]. rewrite create_task_eq by done. unfold stored; cbn [snd redis_client].
  rewrite redis_get_lpush, !redis_get_sadd. apply redis_get_set_task.
Qed.

Lemma stored_update tid s p e r now tid' :
  stored tid' (exec (UpdateTaskStatus tid s p e r now) tm) =
  if decide (tid = tid') then updated s p e r now <$> stored tid tm
  else stored tid' tm.
Proof.
  cbn [exec]. destruct (stored tid tm) as [t|] eqn:Hs.
  - erewrite update_task_status_found by done.
    unfold stored; cbn [snd redis_client]. rewrite redis_get_set_task.
    case_decide; [done|]. by destruct (is_terminal s).
  - rewrite update_task_status_missing by done.
    unfold stored in *; cbn [snd redis_client]. case_decide; subst; cbn; done.
Qed.

Lemma stored_retry tid now tid' :
  stored tid' (exec (RetryTask tid now) tm) =
  if decide (tid = tid')
  then (λ t, if decide (max_retries t ≤ retry_count t) then t
             else retried now t) <$> stored tid tm
  else stored tid' tm.
Proof.
  cbn [exec]. destruct (stored tid tm) as [t|] eqn:Hs.
  - cbn [fmap option_fmap option_map].
    destruct (decide (max_retries t ≤ retry_count t)) as [Hlim|Hlim].
    + erewrite retry_task_exhausted by done.
      unfold stored in *; cbn [snd redis_client]. case_decide; subst; cbn; done.
    + erewrite retry_task_below_limit; [|done..|lia].
      unfold stored; cbn [snd redis_client].
      rewrite redis_get_lpush, redis_get_sadd. apply redis_get_set_task.
  - rewrite retry_task_missing by done.
    unfold stored in *; cbn [snd redis_client]. case_decide; subst; cbn; done.
Qed.

Lemma stored_next dr p tid' :
  stored tid' (exec (GetNextTask dr p) tm) = stored tid' tm.
Proof.
  cbn [exec]. rewrite get_next_task_eq by done.
  destruct (redis_rpop_spec (queue_name p) (redis_client tm))
    as (r' & -> & Hkv & _).
  unfold stored, redis_get; cbn [snd redis_client]. by rewrite Hkv.
Qed.


Lemma queue_update tid s p e r now q :
  queue q (exec (UpdateTaskStatus tid s p e r now) tm) = queue q tm.
Proof.
  cbn [exec]. destruct (stored tid tm) as [t|] eqn:Hs.
  - erewrite update_task_status_found by done.
    unfold queue; cbn [snd redis_client]. by destruct (is_terminal s).
  - by rewrite update_task_status_missing.
Qed.

Lemma queue_retry tid now q :
  queue q (exec (RetryTask tid now) tm) =
  match stored tid tm with
  | Some t =>
      if decide (max_retries t ≤ retry_count t) then queue q tm
      else if decide (priority t = q) then tid :: queue q tm
      else queue q tm
  | None => queue q tm
  end.
Proof.
  cbn [exec]. destruct (stored tid tm) as [t|] eqn:Hs.
  - destruct (decide (max_retries t ≤ retry_count t)) as [Hlim|Hlim].
    + by erewrite retry_task_exhausted.
    + erewrite retry_task_below_limit; [|done..|lia].
      unfold queue; cbn [snd redis_client]. rewrite lrange_lpush_queue.
      case_decide; by subst.
  - by rewrite retry_task_missing.
Qed.

End calls.

(** ** Outcome and effect of one call *)

Lemma stored_state_after_update tm tid s p e r now t :
  initialized tm = true →
  stored tid tm = Some t →
  outcome_of (update_task_status tid s p e r now) tm = Returned () ∧
  stored tid (state_after (update_task_status tid s p e r now) tm) =
    Some (updated s p e r now t).
Proof.
  intros Hinit Hs. unfold outcome_of, state_after.
  split; [by erewrite update_task_status_found|].
  change (snd (update_task_status tid s p e r now tm))
    with (exec (UpdateTaskStatus tid s p e r now) tm).
  rewrite stored_update by done. rewrite decide_True by done. by rewrite Hs.
Qed.

(** ** Terminal records *)

(** C1, as stated, fails: a task that has failed is set to running again
    by a later [update_task_status(task_id, "running")], a completed task
    is marked failed by a later [fail_task], and a repeated
    [complete_task] with the same result rewrites the timestamps. *)
Lemma terminal_record_changes :
  status <$> stored "t1" manager_failed = Some "failed" ∧
  outcome_of (Main.mark_running "t1" "09:05") manager_failed = Returned () ∧
  status <$> stored "t1" (state_after (Main.mark_running "t1" "09:05") manager_failed)
    = Some "running" ∧
  status <$> stored "t1" manager_completed = Some "completed" ∧
  status <$> stored "t1" (state_after (fail_task "t1" "late" "09:05") manager_completed)
    = Some "failed" ∧
  stored "t1" (state_after (complete_task "t1" (Some "[1, 2, 3]") "09:05")
                 manager_completed)
    ≠ stored "t1" manager_completed.
Proof. vm_compute. repeat split; discriminate. Qed.

(** C1, amended: on a task whose stored status is terminal, [mark_running],
    a progress update, [complete_task] and [fail_task] all return normally
    and write the record [updated ...]: the status, [updated_at] and the
    fields of the call are overwritten.  Repeating [complete_task] with the
    identical result (or with none) on a completed task returns normally
    and changes nothing but [updated_at] and [completed_at]. *)
Theorem terminal_record_is_overwritten tm tid t now :
  initialized tm = true →
  stored tid tm = Some t →
  is_terminal (status t) = true →
  (outcome_of (Main.mark_running tid now) tm = Returned () ∧
   stored tid (state_after (Main.mark_running tid now) tm) =
     Some (updated "running" None None None now t)) ∧
  (∀ s p,
     outcome_of (update_task_status tid s (Some p) None None now) tm = Returned () ∧
     stored tid (state_after (update_task_status tid s (Some p) None None now) tm) =
       Some (updated s (Some p) None None now t)) ∧
  (∀ r,
     outcome_of (complete_task tid r now) tm = Returned () ∧
     stored tid (state_after (complete_task tid r now) tm) =
       Some (updated "completed" (Some 100) None r now t)) ∧
  (∀ e,
     outcome_of (fail_task tid e now) tm = Returned () ∧
     stored tid (state_after (fail_task tid e now) tm) =
       Some (updated "failed" None (Some e) None now t)) ∧
  (status t = "completed" → progress t = 100 →
   ∀ r, r = None ∨ r = result t →
     updated "completed" (Some 100) None r now t =
       set_completed_at (Some now) (set_updated_at now t)).
Proof.
  intros Hinit Hs _.
  split; [exact (stored_state_after_update tm tid _ _ _ _ now t Hinit Hs)|].
  split; [intros s p; exact (stored_state_after_update tm tid _ _ _ _ now t Hinit Hs)|].
  split; [intros r; exact (stored_state_after_update tm tid _ _ _ _ now t Hinit Hs)|].
  split; [intros e; exact (stored_state_after_update tm tid _ _ _ _ now t Hinit Hs)|].
  intros Hst Hpr r Hr. unfold updated, set_completed_at, set_updated_at.
  destruct t as [? ? ? ? st ? ? ? ? ? ? sa ? res ? pr]; cbn in *. subst st pr.
  destruct Hr as [->| ->]; [done|]. by destruct res.
Qed.

Lemma terminal_record_is_overwritten_witness :
  stored "t1" (state_after (Main.mark_running "t1" "09:05") manager_failed) =
  Some (mk_task "t1" "content_generation" "u1" "{}" "running" MEDIUM 3 0
          300 "09:00" "09:05" (Some "09:05") (Some "09:01") None (Some "boom") 0).
Proof.
  refine (proj2 (proj1 (terminal_record_is_overwritten manager_failed "t1"
              (mk_task "t1" "content_generation" "u1" "{}" "failed" MEDIUM 3 0
                 300 "09:00" "09:01" None (Some "09:01") None (Some "boom") 0)
              "09:05" _ _ _))); vm_compute; reflexivity.
Defined.

(** ** Progress updates *)

(** C7, as stated, fails: a progress of 150 is stored as 150, and a later
    progress of 20 replaces the stored 150. *)
Lemma progress_is_not_clamped :
  progress <$> stored "t1" manager_running = Some 50 ∧
  progress <$> stored "t1"
     (state_after (update_task_status "t1" "running" (Some 150) None None "09:02")
        manager_running) = Some 150 ∧
  progress <$> stored "t1"
     (state_after (update_task_status "t1" "running" (Some 20) None None "09:02")
        manager_running) = Some 20.
Proof. vm_compute. repeat split. Qed.

(** C7, amended: for every existing task and every integer progress value,
    a progress update returns normally and stores the value as given; there
    is no range check and no comparison with the stored progress. *)
Theorem update_progress_stores_value tm tid t s p now :
  initialized tm = true →
  stored tid tm = Some t →
  outcome_of (update_task_status tid s (Some p) None None now) tm = Returned () ∧
  progress <$> stored tid
    (state_after (update_task_status tid s (Some p) None None now) tm) = Some p.
Proof.
  intros Hinit Hs.
  destruct (stored_state_after_update tm tid s (Some p) None None now t Hinit Hs)
    as [-> ->]. done.
Qed.

Lemma update_progress_stores_value_witness :
  progress <$> stored "t1"
    (state_after (update_task_status "t1" "running" (Some (-7)) None None "09:02")
       manager_running) = Some (-7).
Proof.
  refine (proj2 (update_progress_stores_value manager_running "t1"
            (mk_task "t1" "content_generation" "u1" "{}" "running" MEDIUM 3 0
               300 "09:00" "09:01" (Some "09:01") None None None 50)
            "running" (-7) "09:02" _ _)); vm_compute; reflexivity.
Defined.

(** ** Marking a task as running *)

(** C9, as stated, fails: [update_task_status(task_id, "running")] on an
    identifier with no stored record returns normally, as it does for a
    stored task; nothing is raised and nothing distinguishes the two for
    the caller. *)
Lemma mark_running_of_absent_task_returns :
  stored "ghost" manager0 = None ∧
  outcome_of (Main.mark_running "ghost" "09:00") manager0 = Returned () ∧
  outcome_of (Main.mark_running "t1" "09:05") manager_failed = Returned ().
Proof. vm_compute. repeat split. Qed.

(** C9, amended: on a task absent from the store, [mark_running] returns
    normally, leaves the store unchanged and logs a warning; on an existing
    task (terminal or not) it sets status running, and sets the started
    timestamp only if it is not already set. *)
Theorem mark_running_effect tm tid now :
  initialized tm = true →
  outcome_of (Main.mark_running tid now) tm = Returned () ∧
  match stored tid tm with
  | None =>
      redis_client (state_after (Main.mark_running tid now) tm) = redis_client tm ∧
      logger (state_after (Main.mark_running tid now) tm) =
        mk_log WARNING ("Task " +:+ tid +:+ " not found for status update")
          :: logger tm
  | Some t =>
      ∃ t', stored tid (state_after (Main.mark_running tid now) tm) = Some t' ∧
            status t' = "running" ∧
            started_at t' = (if truthy (started_at t) then started_at t
                             else Some now) ∧
            t' = set_started_at (started_at t')
                   (set_updated_at now (set_status "running" t))
  end.
Proof.
  intros Hinit. unfold Main.mark_running.
  destruct (stored tid tm) as [t|] eqn:Hs.
  - destruct (stored_state_after_update tm tid "running" None None None now t
                Hinit Hs) as [Ho Hst].
    split; [done|]. eexists. split; [exact Hst|].
    unfold updated. cbn. split; [done|].
    by destruct (truthy (started_at t)).
  - unfold outcome_of, state_after.
    by rewrite update_task_status_missing.
Qed.

Lemma mark_running_effect_witness :
  outcome_of (Main.mark_running "t1" "09:05") manager_running = Returned ().
Proof.
  refine (proj1 (mark_running_effect manager_running "t1" "09:05" _)).
  vm_compute. reflexivity.
Defined.

(** ** Cancellation *)

(** C5, as stated, fails for [TaskManager.cancel_task]: called on a
    completed task it returns normally and the record becomes cancelled. *)
Lemma cancel_task_of_completed_task_succeeds :
  status <$> stored "t1" manager_completed = Some "completed" ∧
  outcome_of (cancel_task "t1" "Cancelled by user" "09:05") manager_completed
    = Returned () ∧
  status <$> stored "t1"
    (state_after (cancel_task "t1" "Cancelled by user" "09:05") manager_completed)
    = Some "cancelled".
Proof. vm_compute. repeat split. Qed.

Lemma route_cancel_terminal tm tid uid now t :
  initialized tm = true →
  stored tid tm = Some t →
  user_id t = uid →
  is_terminal (status t) = true →
  Main.cancel_task tid uid now tm =
  (Raised (HTTPException 400 "Task cannot be cancelled"), tm).
Proof.
  intros Hinit Hs Hu Ht. unfold Main.cancel_task, try_except.
  unfold mbind at 1, M_bind at 1. rewrite get_task_status_eq, Hs by done.
  rewrite bool_decide_eq_true_2 by done. cbn [negb].
  unfold is_terminal in Ht. cbn [TaskStatus_value] in Ht. rewrite Ht. done.
Qed.

Lemma route_cancel_allowed tm tid uid now t :
  initialized tm = true →
  stored tid tm = Some t →
  user_id t = uid →
  is_terminal (status t) = false →
  Main.cancel_task tid uid now tm =
  (Returned ("Task cancelled successfully", tid),
   state_after (cancel_task tid "Cancelled by user" now) tm).
Proof.
  intros Hinit Hs Hu Ht. unfold Main.cancel_task, try_except, state_after.
  unfold mbind at 1, M_bind at 1. rewrite get_task_status_eq, Hs by done.
  rewrite bool_decide_eq_true_2 by done. cbn [negb].
  unfold is_terminal in Ht. cbn [TaskStatus_value] in Ht. rewrite Ht.
  unfold mbind, M_bind, cancel_task.
  by rewrite (update_task_status_found tm tid _ _ _ _ now t Hinit Hs).
Qed.

(** C5, amended: [TaskManager.cancel_task] does not look at the current
    status: on every existing task it returns normally, sets status
    cancelled and stores the reason as the error field.  The rejection is
    made by the route [DELETE /tasks/{task_id}]: for the owner of a task in
    a terminal status it raises [HTTPException(400)] and leaves everything
    unchanged; for the owner of a task in any other status it calls
    [cancel_task] with the reason "Cancelled by user". *)
Theorem cancel_guard_is_in_the_route tm tid t now :
  initialized tm = true →
  stored tid tm = Some t →
  (∀ reason,
     outcome_of (cancel_task tid reason now) tm = Returned () ∧
     ∃ t', stored tid (state_after (cancel_task tid reason now) tm) = Some t' ∧
           t' = updated "cancelled" None (Some reason) None now t ∧
           status t' = "cancelled" ∧ error t' = Some reason) ∧
  (is_terminal (status t) = true →
     Main.cancel_task tid (user_id t) now tm =
       (Raised (HTTPException 400 "Task cannot be cancelled"), tm)) ∧
  (is_terminal (status t) = false →
     outcome_of (Main.cancel_task tid (user_id t) now) tm =
       Returned ("Task cancelled successfully", tid) ∧
     stored tid (state_after (Main.cancel_task tid (user_id t) now) tm) =
       Some (updated "cancelled" None (Some "Cancelled by user") None now t)).
Proof.
  intros Hinit Hs. split; [|split].
  - intros reason.
    destruct (stored_state_after_update tm tid "cancelled" None (Some reason)
                None now t Hinit Hs) as [Ho Hst].
    split; [done|]. eexists. split; [exact Hst|]. done.
  - intros Ht. by apply (route_cancel_terminal tm tid _ now t).
  - intros Ht. unfold outcome_of, state_after at 1.
    rewrite (route_cancel_allowed tm tid _ now t Hinit Hs eq_refl Ht).
    split; [done|]. cbn [snd].
    apply (stored_state_after_update tm tid "cancelled" None
             (Some "Cancelled by user") None now t Hinit Hs).
Qed.

Lemma cancel_guard_is_in_the_route_witness :
  Main.cancel_task "t1" "u1" "09:05" manager_completed =
  (Raised (HTTPException 400 "Task cannot be cancelled"), manager_completed).
Proof.
  refine (proj1 (proj2 (cancel_guard_is_in_the_route manager_completed "t1"
     (mk_task "t1" "content_generation" "u1" "{}" "completed" MEDIUM 3 0 300
        "09:00" "09:02" (Some "09:01") (Some "09:02") (Some "[1, 2, 3]")
        None 100) "09:05" _ _)) _); vm_compute; reflexivity.
Defined.

(** ** Retries *)

Lemma active_tasks_retry tm tid t now :
  initialized tm = true →
  stored tid tm = Some t →
  retry_count t < max_retries t →
  active_tasks (state_after (retry_task tid now) tm) = active_tasks tm ∪ {[tid]}.
Proof.
  intros Hinit Hs Hlt. unfold state_after, active_tasks.
  rewrite (retry_task_below_limit tm tid now t Hinit Hs Hlt). cbn [snd redis_client].
  by rewrite smembers_lpush, smembers_sadd, decide_True.
Qed.

(** C6, as stated, fails: [retry_task] is accepted on a task that is
    still pending (it is queued a second time) and on a completed task. *)
Lemma retry_task_accepted_on_pending_and_completed :
  let created :=
    exec (CreateTask "content_generation" "u1" "{}" MEDIUM 3 300 "t1" "09:00")
      manager0 in
  status <$> stored "t1" created = Some "pending" ∧
  outcome_of (retry_task "t1" "09:05") created = Returned true ∧
  retry_count <$> stored "t1" (state_after (retry_task "t1" "09:05") created)
    = Some 1 ∧
  queue MEDIUM (state_after (retry_task "t1" "09:05") created) = ["t1"; "t1"] ∧
  status <$> stored "t1" manager_completed = Some "completed" ∧
  outcome_of (retry_task "t1" "09:05") manager_completed = Returned true ∧
  status <$> stored "t1" (state_after (retry_task "t1" "09:05") manager_completed)
    = Some "pending".
Proof. vm_compute. repeat split. Qed.

(** C6, amended: [retry_task] does not look at the status.  On every
    existing task below the retry limit it returns [True], increments
    [retry_count], resets status to pending, clears [started_at],
    [completed_at], [error] and [progress] (the stored [result] is kept),
    puts the task back in the active set and pushes its identifier on the
    queue of its priority tier; the other tiers are untouched. *)
Theorem retry_task_effect tm tid t now :
  initialized tm = true →
  stored tid tm = Some t →
  retry_count t < max_retries t →
  outcome_of (retry_task tid now) tm = Returned true ∧
  stored tid (state_after (retry_task tid now) tm) = Some (retried now t) ∧
  queue (priority t) (state_after (retry_task tid now) tm) =
    tid :: queue (priority t) tm ∧
  (∀ q, q ≠ priority t →
        queue q (state_after (retry_task tid now) tm) = queue q tm) ∧
  tid ∈ active_tasks (state_after (retry_task tid now) tm).
Proof.
  intros Hinit Hs Hlt.
  split; [unfold outcome_of; by rewrite (retry_task_below_limit tm tid now t)|].
  change (state_after (retry_task tid now) tm) with (exec (RetryTask tid now) tm).
  split; [|split; [|split]].
  - rewrite stored_retry, decide_True, Hs by done. cbn.
    rewrite decide_False by lia. done.
  - rewrite queue_retry, Hs by done.
    rewrite decide_False by lia. by rewrite decide_True.
  - intros q Hq. rewrite queue_retry, Hs by done.
    rewrite decide_False by lia. by rewrite decide_False.
  - change (exec (RetryTask tid now) tm) with (state_after (retry_task tid now) tm).
    rewrite (active_tasks_retry tm tid t now) by done. set_solver.
Qed.

Lemma retry_task_effect_witness :
  outcome_of (retry_task "t1" "09:05") manager_failed = Returned true.
Proof.
  refine (proj1 (retry_task_effect manager_failed "t1"
     (mk_task "t1" "content_generation" "u1" "{}" "failed" MEDIUM 3 0
        300 "09:00" "09:01" None (Some "09:01") None (Some "boom") 0)
     "09:05" _ _ _)); vm_compute; reflexivity.
Defined.

Lemma retry_bounded_exec c tm :
  initialized tm = true →
  nonneg_max_retries c → retry_bounded tm → retry_bounded (exec c tm).
Proof.
  intros Hinit Hc Hb tid' t'. rewrite exec_as_update.
  assert (Hc' : nonneg_max_retries (as_update c)) by (by destruct c).
  revert Hc'. pattern (as_update c). apply call_cases; clear c Hc;
    cbn beta; cbn [nonneg_max_retries].
  - intros ty u ps p mr to tid now Hmr. rewrite stored_create by done.
    case_decide; [|by apply Hb]. intros [= <-]. done.
  - intros tid s p e r now _. rewrite stored_update by done.
    case_decide; [|by apply Hb].
    destruct (stored tid tm) as [t|] eqn:Hs; [|done]. intros [= <-].
    unfold updated; cbn [retry_count max_retries]. by apply (Hb tid).
  - intros tid now _. rewrite stored_retry by done.
    case_decide; [|by apply Hb].
    destruct (stored tid tm) as [t|] eqn:Hs; [|done]. cbn.
    case_decide; intros [= <-]; [by apply (Hb tid)|]. cbn. lia.
  - intros dr p _. rewrite stored_next by done. by apply Hb.
Qed.

Lemma retry_bounded_exec_all cs tm :
  initialized tm = true →
  Forall nonneg_max_retries cs → retry_bounded tm →
  retry_bounded (exec_all cs tm).
Proof.
  revert tm. induction cs as [|c cs IH]; intros tm Hinit Hcs Hb; [done|].
  inversion_clear Hcs. rewrite exec_all_cons. apply IH; [|done|].
  - by rewrite exec_initialized.
  - by apply retry_bounded_exec.
Qed.

(** C2, as stated, fails: [create_task] accepts a negative [max_retries],
    and the record it stores has [retry_count = 0] above it. *)
Lemma negative_max_retries_is_exceeded :
  let created :=
    exec (CreateTask "content_generation" "u1" "{}" MEDIUM (-1) 300 "t1" "09:00")
      manager0 in
  max_retries <$> stored "t1" created = Some (-1) ∧
  retry_count <$> stored "t1" created = Some 0.
Proof. vm_compute. split; reflexivity. Qed.

(** C2, amended: when every task is created with [max_retries >= 0], after
    every sequence of calls the stored [retry_count] of every task is at
    most its [max_retries]; and [retry_task] on a task whose [retry_count]
    has reached [max_retries] returns [False] with the warning
    "has exceeded max retries", leaving the server (record, queues, sets)
    unchanged. *)
Theorem retry_count_never_exceeds_max_retries cs tm0 :
  initialized tm0 = true →
  retry_bounded tm0 →
  Forall nonneg_max_retries cs →
  retry_bounded (exec_all cs tm0) ∧
  ∀ tid t now,
    stored tid (exec_all cs tm0) = Some t →
    max_retries t ≤ retry_count t →
    outcome_of (retry_task tid now) (exec_all cs tm0) = Returned false ∧
    redis_client (state_after (retry_task tid now) (exec_all cs tm0)) =
      redis_client (exec_all cs tm0) ∧
    logger (state_after (retry_task tid now) (exec_all cs tm0)) =
      mk_log WARNING ("Task " +:+ tid +:+ " has exceeded max retries")
        :: logger (exec_all cs tm0).
Proof.
  intros Hinit Hb Hcs. split; [by apply retry_bounded_exec_all|].
  intros tid t now Hs Hlim. unfold outcome_of, state_after.
  rewrite (retry_task_exhausted (exec_all cs tm0) tid now t); [done| |done..].
  by rewrite exec_all_initialized.
Qed.

Lemma stored_manager0 tid : stored tid manager0 = None.
Proof. unfold stored, redis_get. cbn. by rewrite lookup_empty. Qed.


(** The scenario of the design document: a task with [max_retries = 1]
    fails, is retried, fails again, and cannot be retried any more. *)
Lemma retry_count_never_exceeds_max_retries_witness :
  let history :=
    [CreateTask "trend_analysis" "u1" "{}" LOW 1 300 "t2" "09:00";
     FailTask "t2" "boom" "09:01";
     RetryTask "t2" "09:02";
     FailTask "t2" "boom again" "09:03"] in
  outcome_of (retry_task "t2" "09:04") (exec_all history manager0) = Returned false.
Proof.
  intros history.
  refine (proj1 (proj2 (retry_count_never_exceeds_max_retries history manager0
                          _ _ _) "t2"
     (mk_task "t2" "trend_analysis" "u1" "{}" "failed" LOW 1 1 300 "09:00"
        "09:03" None (Some "09:03") None (Some "boom again") 0) "09:04" _ _)).
  - vm_compute; reflexivity.
  - intros tid t Hs. rewrite stored_manager0 in Hs. discriminate.
  - repeat constructor. simpl. lia.
  - vm_compute; reflexivity.
  - simpl. lia.
Defined.

(** ** The priority queues *)






(** ** First in, first out *)


Lemma popped_as_update p c tm : popped p c tm = popped p (as_update c) tm.
Proof. by destruct c. Qed.








Lemma enqueued_app p cs1 cs2 tm :
  enqueued p (cs1 ++ cs2) tm =
  enqueued p cs1 tm ++ enqueued p cs2 (exec_all cs1 tm).
Proof.
  revert tm. induction cs1 as [|c cs1 IH]; intros tm; [done|].
  cbn [app enqueued]. by rewrite IH, exec_all_cons, app_assoc.
Qed.







(** C4 at its failing input: a manager initialised with the client of
    [main.py] ([decode_responses=True]) on which two tasks were created in
    one tier.  Each [get_next_task] removes the oldest identifier from the
    queue and returns [None]: the identifiers leave the queue in the order
    of their enqueuing, but none is handed out.  The claim wants ["a"]
    and then ["c"] returned, which is what a client that replies in bytes
    gets. *)
Theorem dequeue_with_str_client_hands_out_nothing :
  queue HIGH manager_two_tasks = ["c"; "a"] ∧
  outcome_of (get_next_task true HIGH) manager_two_tasks = Returned None ∧
  queue HIGH (state_after (get_next_task true HIGH) manager_two_tasks) = ["c"] ∧
  dequeued HIGH [GetNextTask true HIGH; GetNextTask true HIGH]
    manager_two_tasks = [] ∧
  taken HIGH [GetNextTask true HIGH; GetNextTask true HIGH]
    manager_two_tasks = ["a"; "c"] ∧
  queue HIGH (exec_all [GetNextTask true HIGH; GetNextTask true HIGH]
                manager_two_tasks) = [] ∧
  dequeued HIGH [GetNextTask false HIGH; GetNextTask false HIGH]
    manager_two_tasks = ["a"; "c"].
Proof. vm_compute. repeat split. Qed.

(** ** Connecting an identity *)

Lemma resume_blocked_when_locked {A : Type} (k : WS.coro A) (s : WS.state) h :
  WS._lock s = Some h → WS.resume (WS.Acquire k) s = WS.Blocked k s.
Proof. intros H. cbn. by rewrite H. Qed.


(** Called on its own with the lock free, [disconnect] closes the channel
    of a registered identity and removes it, and releases the lock. *)
Lemma disconnect_registered (close_raises : WS.WebSocket → option string)
    uid w (s : WS.state) :
  WS._lock s = None →
  WS.active_connections s !! uid = Some w →
  ∃ s', WS.run_alone close_raises 1 (WS.resume (WS.disconnect uid) s) = Some ((), s') ∧
        WS.active_connections s' = delete uid (WS.active_connections s) ∧
        WS.subscriptions s' = delete uid (WS.subscriptions s) ∧
        WS.closed s' = w :: WS.closed s ∧
        WS._lock s' = None.
Proof.
  intros Hlock Hsome. unfold WS.disconnect, WS.with_lock.
  cbn. rewrite Hlock. cbn. rewrite Hsome. cbn.
  destruct (close_raises w); cbn;
    repeat (case_decide; cbn); eexists; (split; [reflexivity|]); cbn;
    repeat split; try done;
    symmetry; apply delete_id; by apply eq_None_not_Some.
Qed.

(** On a registered identity, [connect] takes the lock and then waits for
    it inside [disconnect]: the state is the one at the call, with the
    lock held by the caller. *)
Lemma connect_registered_blocks uid ws now (s : WS.state) :
  WS._lock s = None →
  is_Some (WS.active_connections s !! uid) →
  ∃ k, WS.resume (WS.connect uid ws now) s =
       WS.Blocked k (WS.set_lock (Some WS.This) s).
Proof.
  intros Hlock Hsome. unfold WS.connect, WS.connect_at, WS.with_lock.
  cbn. rewrite Hlock. cbn.
  rewrite decide_True by done. cbn. eauto.
Qed.


Section blocked_forever.
Context {A : Type} (close_raises : WS.WebSocket → option string).

Lemma run_alone_blocked fuel (k : WS.coro A) (s : WS.state) h :
  WS._lock s = Some h →
  WS.run_alone close_raises fuel (WS.Blocked k s) = None.
Proof.
  intros Hlock. induction fuel as [|fuel IH]; [done|].
  cbn [WS.run_alone]. by rewrite (resume_blocked_when_locked k s h).
Qed.

End blocked_forever.


Section connect_wakes.
Variable close_raises : WS.WebSocket → option string.

End connect_wakes.

(** C10, as stated, fails: ["u1"] is registered on channel [1] and a
    [disconnect("u1")] holds the lock, awaiting [close()], when
    [connect("u1", 2)] is called.  The call waits for the lock; the
    [disconnect] finishes, removes ["u1"] and releases the lock; [connect]
    then gets the lock, finds no connection for ["u1"], registers channel
    [2] and returns. *)
Lemma connect_completes_after_concurrent_disconnect :
  ∃ kd k s1 s2,
    WS.resume (WS.disconnect "u1") u1_connected =
      WS.Awaiting 1%nat kd (u1_disconnecting WS.This) ∧
    WS.active_connections (u1_disconnecting WS.Other) !! "u1" = Some 1%nat ∧
    WS.resume (WS.connect "u1" 2%nat "09:05") (u1_disconnecting WS.Other) =
      WS.Blocked k (u1_disconnecting WS.Other) ∧
    WS.resume (kd None) (u1_disconnecting WS.This) = WS.Finished () s1 ∧
    WS.active_connections s1 = ∅ ∧ WS._lock s1 = None ∧
    WS.resume (WS.Acquire k) s1 = WS.Finished () s2 ∧
    WS.wakes (λ _, None) (WS.Blocked k (u1_disconnecting WS.Other))
      (WS.Finished () s2) ∧
    WS.active_connections s2 = {["u1" := 2%nat]} ∧
    WS.closed s2 = [1%nat] ∧ WS._lock s2 = None.
Proof.
  do 4 eexists. split; [reflexivity|]. split; [reflexivity|].
  split; [reflexivity|]. split; [reflexivity|].
  split; [reflexivity|]. split; [reflexivity|].
  lazymatch goal with
  | |- ?E ∧ _ => eassert (Hwoken : E) by reflexivity
  end.
  split; [exact Hwoken|]. split.
  - rewrite <- Hwoken. by apply WS.wakes_blocked.
  - vm_compute. repeat split; reflexivity.
Qed.



(** C8 at its failing input: ["u1"] is connected on channel [1] and
    reconnects on channel [2].  The first [connect] returned and registered
    channel [1]; the second one is blocked, channel [1] has not been closed
    and is still the registered one, and no amount of running it alone
    makes it return.  The claim wants channel [1] closed and replaced by
    channel [2]. *)
Theorem reconnect_does_not_replace :
  WS.resume (WS.connect "u1" 1%nat "09:00") WS.init = WS.Finished () u1_connected ∧
  (∃ k s, WS.resume (WS.connect "u1" 2%nat "09:05") u1_connected = WS.Blocked k s ∧
          WS.active_connections s !! "u1" = Some 1%nat ∧
          WS.closed s = [] ∧
          WS._lock s = Some WS.This) ∧
  WS.run_alone (λ _, None) 1000
    (WS.resume (WS.connect "u1" 2%nat "09:05") u1_connected) = None.
Proof.
  split; [by vm_compute|]. split.
  - destruct (connect_registered_blocks "u1" 2%nat "09:05" u1_connected)
      as [k Hk]; [by vm_compute|by vm_compute; eauto|].
    exists k, (WS.set_lock (Some WS.This) u1_connected).
    split; [exact Hk|]. clear Hk. vm_compute. repeat split; reflexivity.
  - destruct (connect_registered_blocks "u1" 2%nat "09:05" u1_connected)
      as [k ->]; [by vm_compute|by vm_compute; eauto|].
    by apply (run_alone_blocked (λ _, None) 1000 k _ WS.This).
Qed.

(** * Further properties of the task manager *)

#[local] Set Warnings "-clear-no-such-hyp".

(** ** An instance that was never initialised *)

Lemma get_task_status_uninitialized tm task_id :
  initialized tm = false →
  get_task_status task_id tm =
  (Raised (RuntimeError "Task Manager not initialized"), tm).
Proof. intros H. unfold get_task_status. by apply require_initialized_false. Qed.

Lemma get_user_tasks_uninitialized decode iter tm user_id limit status_filter offset :
  initialized tm = false →
  get_user_tasks decode iter user_id limit status_filter offset tm =
  (Raised (RuntimeError "Task Manager not initialized"), tm).
Proof. intros H. unfold get_user_tasks. by apply require_initialized_false. Qed.

(** X1.  On a [TaskManager] that was never initialised nothing is read or
    written: [create_task], [get_task_status], [update_task_status] (hence
    [complete_task], [fail_task], [cancel_task]), [retry_task] and
    [get_user_tasks] raise [RuntimeError], while [get_next_task],
    [get_task_queue_length], [get_active_tasks_count],
    [get_all_queue_lengths] and [cleanup_expired_tasks] answer [None], [0]
    or an empty dictionary as if the server were empty. *)
Theorem uninitialized_manager decode iter scan tm :
  initialized tm = false →
  let refused {A} : outcome A * TaskManager :=
    (Raised (RuntimeError "Task Manager not initialized"), tm) in
  (∀ ty u ps p mr to tid now, create_task ty u ps p mr to tid now tm = refused) ∧
  (∀ tid, get_task_status tid tm = refused) ∧
  (∀ tid s p e r now, update_task_status tid s p e r now tm = refused) ∧
  (∀ tid now, retry_task tid now tm = refused) ∧
  (∀ u limit f offset, get_user_tasks decode iter u limit f offset tm = refused) ∧
  (∀ dr p, get_next_task dr p tm = (Returned None, tm)) ∧
  (∀ p, get_task_queue_length p tm = (Returned 0, tm)) ∧
  get_active_tasks_count tm = (Returned 0, tm) ∧
  get_all_queue_lengths tm = (Returned ∅, tm) ∧
  (∀ cutoff, cleanup_expired_tasks scan cutoff tm = (Returned 0, tm)).
Proof.
  intros Hinit refused. unfold refused. repeat split; intros.
  - by apply create_task_uninitialized.
  - by apply get_task_status_uninitialized.
  - by apply update_task_status_uninitialized.
  - by apply retry_task_uninitialized.
  - by apply get_user_tasks_uninitialized.
  - by apply get_next_task_uninitialized.
  - unfold get_task_queue_length. run_M. by rewrite Hinit.
  - unfold get_active_tasks_count. run_M. by rewrite Hinit.
  - unfold get_all_queue_lengths. run_M. by rewrite Hinit.
  - unfold cleanup_expired_tasks. run_M. by rewrite Hinit.
Qed.

Lemma uninitialized_manager_witness :
  get_task_status "t1" (mk_tm redis_empty false []) =
  (Raised (RuntimeError "Task Manager not initialized"), mk_tm redis_empty false []).
Proof.
  refine (proj1 (proj2 (uninitialized_manager false elements (λ _, [])
                          (mk_tm redis_empty false []) _)) "t1").
  reflexivity.
Defined.

(** ** Creation and lookup *)



(** ** The expiry sweep *)

#[global] Instance expired_dec cutoff t : Decision (expired cutoff t).
Proof. unfold expired. apply _. Defined.

Lemma cleanup_key_eq cutoff key tm :
  cleanup_key cutoff key tm =
  (Returned (sweep_key cutoff key (redis_client tm)).1,
   mk_tm (sweep_key cutoff key (redis_client tm)).2 (initialized tm) (logger tm)).
Proof.
  destruct tm as [r i l]. unfold cleanup_key, sweep_key. run_M.
  destruct (redis_get key r) as [t|]; [|done].
  destruct (String.ltb (created_at t) cutoff); [|done].
  by destruct (truthy (Some (user_id t))).
Qed.

Lemma cleanup_keys_eq cutoff keys n tm :
  cleanup_keys cutoff keys n tm =
  (Returned (sweep cutoff keys n (redis_client tm)).1,
   mk_tm (sweep cutoff keys n (redis_client tm)).2 (initialized tm) (logger tm)).
Proof.
  revert n tm. induction keys as [|key keys IH]; intros n tm.
  - by destruct tm.
  - cbn [cleanup_keys sweep]. unfold mbind, M_bind.
    rewrite cleanup_key_eq.
    destruct (sweep_key cutoff key (redis_client tm)) as [cleaned r1].
    cbn [fst snd]. by rewrite IH.
Qed.

Lemma cleanup_expired_tasks_eq scan cutoff tm :
  initialized tm = true →
  cleanup_expired_tasks scan cutoff tm =
  let res := sweep cutoff (scan (redis_client tm)) 0 (redis_client tm) in
  (Returned res.1,
   mk_tm res.2 true
     (mk_log INFO ("Cleaned up " +:+ pretty res.1 +:+ " expired tasks")
        :: logger tm)).
Proof.
  intros Hinit. unfold cleanup_expired_tasks.
  unfold mbind at 1, M_bind at 1, self. rewrite Hinit.
  unfold mbind at 1, M_bind at 1. rewrite cleanup_keys_eq.
  run_M. by rewrite Hinit.
Qed.

Lemma sweep_key_expired cutoff key r t ex :
  kv r !! key = Some (t, ex) →
  expired cutoff t →
  ∃ r', sweep_key cutoff key r = (true, r') ∧
        kv r' = delete key (kv r) ∧
        lists r' = lists r ∧
        ∀ K x, x ∈ smembers K r' ↔
               x ∈ smembers K r ∧
               ¬ (task_id t = x ∧
                  (K = active_tasks_prefix ∨
                   (user_id t ≠ "" ∧ K = user_tasks_prefix +:+ user_id t))).
Proof.
  intros Hk Hexp. unfold sweep_key, redis_get. rewrite Hk. cbn.
  rewrite Hexp. eexists. split; [reflexivity|].
  destruct (decide (user_id t = "")) as [Hu|Hu]; cbn.
  - split; [done|]. split; [done|]. intros K x.
    rewrite smembers_srem. unfold smembers at 2. cbn [sets redis_delete].
    fold (smembers K r).
    case_decide; set_unfold; naive_solver.
  - split; [done|]. split; [done|]. intros K x.
    rewrite !smembers_srem. unfold smembers at 3 4. cbn [sets redis_delete].
    fold (smembers K r).
    fold (smembers (user_tasks_prefix +:+ user_id t) r).
    repeat case_decide; set_unfold; naive_solver.
Qed.

Lemma sweep_key_kept cutoff key r :
  (∀ t ex, kv r !! key = Some (t, ex) → ¬ expired cutoff t) →
  sweep_key cutoff key r = (false, r).
Proof.
  intros Hk. unfold sweep_key, redis_get.
  destruct (kv r !! key) as [[t ex]|] eqn:Hkv; [|done]. cbn.
  specialize (Hk t ex eq_refl). unfold expired in Hk.
  by destruct (String.ltb (created_at t) cutoff).
Qed.

Lemma sweep_spec cutoff keys n r :
  (∀ k, kv (sweep cutoff keys n r).2 !! k =
        match kv r !! k with
        | Some v => if decide (k ∈ keys ∧ expired cutoff v.1) then None else Some v
        | None => None
        end) ∧
  lists (sweep cutoff keys n r).2 = lists r ∧
  (∀ K x, x ∈ smembers K (sweep cutoff keys n r).2 ↔
          x ∈ smembers K r ∧ ¬ sweeps_out cutoff keys r K x) ∧
  (sweep cutoff keys n r).1 =
    n + Z.of_nat (size (filter (λ kv, kv.1 ∈ keys ∧ expired cutoff kv.2.1) (kv r))).
Proof.
  revert n r. induction keys as [|key keys IH]; intros n r.
  - cbn [sweep fst snd]. split; [|split; [done|split; [intros K x; split|]]].
    + intros k. destruct (kv r !! k); [|done].
      rewrite decide_False; [done|]. intros [Hin _]. by apply elem_of_nil in Hin.
    + intros Hx. split; [done|]. intros (k & t & ex & Hin & _).
      by apply elem_of_nil in Hin.
    + by intros [Hx _].
    + rewrite (map_empty_filter_2 _ (kv r)); [rewrite map_size_empty; lia|].
      intros k v _ [Hin _]. by apply elem_of_nil in Hin.
  - cbn [sweep].
    destruct (kv r !! key) as [[t ex]|] eqn:Hkey.
    + destruct (decide (expired cutoff t)) as [Hexp|Hexp].
      * destruct (sweep_key_expired cutoff key r t ex Hkey Hexp)
          as (r1 & -> & Hkv1 & Hl1 & Hs1).
        destruct (IH (n + 1) r1) as (IHkv & IHl & IHs & IHn).
        split; [|split; [|split; [intros K x; split|]]].
        -- intros k. rewrite IHkv, Hkv1.
           destruct (decide (k = key)) as [->|Hne].
           ++ rewrite lookup_delete_eq, Hkey. cbn.
              rewrite decide_True; [done|]. split; [set_solver|done].
           ++ rewrite lookup_delete_ne by done.
              destruct (kv r !! k) as [v|]; [|done].
              destruct (decide (k ∈ keys ∧ expired cutoff v.1)) as [[]|Hn];
                [rewrite decide_True; [done|set_solver]|].
              rewrite decide_False; [done|]. intros [Hin ?]. apply Hn.
              split; [set_solver|done].
        -- by rewrite IHl.
        -- rewrite IHs, Hs1. intros [[Hx Hhead] Hrest]. split; [done|].
           intros (k & t' & ex' & Hin & Hk & Hexp' & Hid & HK).
           destruct (decide (k = key)) as [->|Hne].
           ++ rewrite Hkey in Hk. injection Hk as <- <-. by apply Hhead.
           ++ apply Hrest. exists k, t', ex'. rewrite Hkv1.
              rewrite lookup_delete_ne by done. split; [set_solver|done].
        -- rewrite IHs, Hs1. intros [Hx Hout].
           split; [split; [done|]|].
           ++ intros [Hid HK]. apply Hout. exists key, t, ex.
              split; [set_solver|done].
           ++ intros (k & t' & ex' & Hin & Hk & Hrest). apply Hout.
              exists k, t', ex'. rewrite Hkv1 in Hk.
              apply lookup_delete_Some in Hk as [Hne Hk]. split; [set_solver|done].
        -- rewrite IHn, Hkv1.
           assert (Hsize :
             size (filter (λ kv, kv.1 ∈ key :: keys ∧ expired cutoff kv.2.1) (kv r))
             = S (size (filter (λ kv, kv.1 ∈ keys ∧ expired cutoff kv.2.1)
                          (delete key (kv r))))); [|lia].
           rewrite <- (insert_delete_id (kv r) key (t, ex)) at 1 by done.
           rewrite map_filter_insert_True by (split; [set_solver|done]).
           rewrite map_size_insert_None
             by (by rewrite map_filter_delete, lookup_delete_eq).
           f_equal. f_equal. apply map_filter_ext. intros k v Hk.
           apply lookup_delete_Some in Hk as [Hne Hk]. cbn. set_solver.
      * rewrite sweep_key_kept
          by (intros t' ex' Hk; rewrite Hkey in Hk; by injection Hk as <- <-).
        destruct (IH n r) as (IHkv & IHl & IHs & IHn).
        split; [|split; [|split; [intros K x; split|]]].
        -- intros k. rewrite IHkv. destruct (kv r !! k) as [v|] eqn:Hk; [|done].
           destruct (decide (k ∈ keys ∧ expired cutoff v.1)) as [[]|Hn];
             [rewrite decide_True; [done|set_solver]|].
           rewrite decide_False; [done|]. intros [Hin Hexp']. apply Hn.
           split; [|done]. apply elem_of_cons in Hin as [->|]; [|done].
           rewrite Hkey in Hk. injection Hk as <-. done.
        -- done.
        -- rewrite IHs. intros [Hx Hout]. split; [done|].
           intros (k & t' & ex' & Hin & Hk & Hexp' & Hrest). apply Hout.
           exists k, t', ex'. split; [|done].
           apply elem_of_cons in Hin as [->|]; [|done].
           rewrite Hkey in Hk. injection Hk as <- <-. done.
        -- rewrite IHs. intros [Hx Hout]. split; [done|].
           intros (k & t' & ex' & Hin & Hrest). apply Hout.
           exists k, t', ex'. split; [set_solver|done].
        -- rewrite IHn. f_equal. f_equal. f_equal.
           apply map_filter_ext. intros k v Hk. cbn. split.
           ++ intros [Hin Hexp']. split; [set_solver|done].
           ++ intros [Hin Hexp']. split; [|done].
              apply elem_of_cons in Hin as [->|]; [|done].
              rewrite Hkey in Hk. injection Hk as <-. done.
    + rewrite sweep_key_kept by (intros t' ex' Hk; congruence).
      destruct (IH n r) as (IHkv & IHl & IHs & IHn).
      split; [|split; [|split; [intros K x; split|]]].
      -- intros k. rewrite IHkv. destruct (kv r !! k) as [v|] eqn:Hk; [|done].
         destruct (decide (k ∈ keys ∧ expired cutoff v.1)) as [[]|Hn];
           [rewrite decide_True; [done|set_solver]|].
         rewrite decide_False; [done|]. intros [Hin Hexp']. apply Hn.
         split; [|done]. apply elem_of_cons in Hin as [->|]; [|done]. congruence.
      -- done.
      -- rewrite IHs. intros [Hx Hout]. split; [done|].
         intros (k & t' & ex' & Hin & Hk & Hrest). apply Hout.
         exists k, t', ex'. split; [|done].
         apply elem_of_cons in Hin as [->|]; [|done]. congruence.
      -- rewrite IHs. intros [Hx Hout]. split; [done|].
         intros (k & t' & ex' & Hin & Hrest). apply Hout.
         exists k, t', ex'. split; [set_solver|done].
      -- rewrite IHn. f_equal. f_equal. f_equal.
         apply map_filter_ext. intros k v Hk. cbn. split.
         ++ intros [Hin Hexp']. split; [set_solver|done].
         ++ intros [Hin Hexp']. split; [|done].
            apply elem_of_cons in Hin as [->|]; [|done]. congruence.
Qed.

Lemma prefix_append (p s : string) : String.prefix p (p +:+ s) = true.
Proof.
  induction p as [|a p IH]; [by destruct s|].
  change (String a p +:+ s) with (String a (p +:+ s)). cbn [String.prefix].
  destruct (Ascii.ascii_dec a a); [exact IH|done].
Qed.

Lemma scan_in_table_order_spec : scans_task_keys scan_in_table_order.
Proof.
  intros r k. unfold scan_in_table_order.
  rewrite list_elem_of_filter, list_elem_of_fmap. split.
  - intros [Hp ([k' v] & -> & Hin)]. apply elem_of_map_to_list in Hin.
    split; [by eexists|done].
  - intros [[v Hv] Hp]. split; [done|]. exists (k, v).
    split; [done|]. by apply elem_of_map_to_list.
Qed.

(** What a sweep leaves of the records, of the queues and of the sets. *)
Lemma stored_cleanup scan cutoff tm tid :
  initialized tm = true →
  scans_task_keys scan →
  stored tid (state_after (cleanup_expired_tasks scan cutoff) tm) =
  match stored tid tm with
  | Some t => if decide (expired cutoff t) then None else Some t
  | None => None
  end.
Proof.
  intros Hinit Hscan. unfold state_after.
  rewrite cleanup_expired_tasks_eq by done. cbn [snd].
  unfold stored, redis_get. cbn [redis_client].
  destruct (sweep_spec cutoff (scan (redis_client tm)) 0 (redis_client tm))
    as (Hkv & _). rewrite Hkv.
  destruct (kv (redis_client tm) !! (task_prefix +:+ tid)) as [[t ex]|] eqn:Hk;
    [|done]. cbn.
  destruct (decide (expired cutoff t)) as [Hexp|Hexp].
  - rewrite decide_True; [done|]. split; [|done].
    apply Hscan. split; [by eexists|apply prefix_append].
  - rewrite decide_False; [done|]. by intros [_ ?].
Qed.


Lemma smembers_cleanup scan cutoff tm K x :
  initialized tm = true →
  x ∈ smembers K (redis_client (state_after (cleanup_expired_tasks scan cutoff) tm)) ↔
  x ∈ smembers K (redis_client tm) ∧
  ¬ sweeps_out cutoff (scan (redis_client tm)) (redis_client tm) K x.
Proof.
  intros Hinit. unfold state_after.
  rewrite cleanup_expired_tasks_eq by done. cbn [snd redis_client].
  destruct (sweep_spec cutoff (scan (redis_client tm)) 0 (redis_client tm))
    as (_ & _ & Hs & _). apply Hs.
Qed.

Lemma initialized_cleanup scan cutoff tm :
  initialized (state_after (cleanup_expired_tasks scan cutoff) tm) = initialized tm.
Proof.
  unfold state_after. destruct (initialized tm) eqn:Hinit.
  - by rewrite cleanup_expired_tasks_eq.
  - unfold cleanup_expired_tasks. run_M. by rewrite Hinit.
Qed.

(** X3.  [cleanup_expired_tasks] deletes exactly the records whose
    [created_at] is below the cutoff (in string order), whatever their
    status: afterwards such a task is unknown to [get_task_status], and
    every other record is what it was. *)
Theorem cleanup_removes_exactly_the_expired scan cutoff tm tid :
  initialized tm = true →
  scans_task_keys scan →
  let tm' := state_after (cleanup_expired_tasks scan cutoff) tm in
  get_task_status tid tm' =
  (Returned match stored tid tm with
            | Some t => if decide (expired cutoff t) then None else Some t
            | None => None
            end, tm').
Proof.
  intros Hinit Hscan tm'.
  rewrite get_task_status_eq by (unfold tm'; by rewrite initialized_cleanup).
  unfold tm'. by rewrite stored_cleanup.
Qed.

Lemma cleanup_removes_exactly_the_expired_witness :
  outcome_of (get_task_status "t1")
    (state_after (cleanup_expired_tasks scan_in_table_order "09:30")
       manager_failed) = Returned None.
Proof.
  refine (f_equal fst (cleanup_removes_exactly_the_expired scan_in_table_order
            "09:30" manager_failed "t1" _ scan_in_table_order_spec)).
  vm_compute; reflexivity.
Defined.

(** X4.  The number [cleanup_expired_tasks] returns is the number of
    stored records older than the cutoff, also when [SCAN] yields a key
    several times. *)
Theorem cleanup_counts_the_expired scan cutoff tm :
  initialized tm = true →
  scans_task_keys scan →
  outcome_of (cleanup_expired_tasks scan cutoff) tm =
  Returned (Z.of_nat (size (filter
     (λ kv, String.prefix task_prefix kv.1 = true ∧ expired cutoff kv.2.1)
     (kv (redis_client tm))))).
Proof.
  intros Hinit Hscan. unfold outcome_of.
  rewrite cleanup_expired_tasks_eq by done. cbn [fst].
  destruct (sweep_spec cutoff (scan (redis_client tm)) 0 (redis_client tm))
    as (_ & _ & _ & ->). f_equal. rewrite Z.add_0_l. f_equal. f_equal.
  apply map_filter_ext. intros k v Hk. cbn.
  rewrite (Hscan (redis_client tm) k). split.
  - by intros [[_ ?] ?].
  - intros [? ?]. split; [split; [by eexists|done]|done].
Qed.

Lemma cleanup_counts_the_expired_witness :
  outcome_of (cleanup_expired_tasks scan_in_table_order "09:30") manager_failed
  = Returned 1.
Proof.
  refine (cleanup_counts_the_expired scan_in_table_order "09:30"
            manager_failed _ scan_in_table_order_spec).
  vm_compute; reflexivity.
Defined.



(** ** The active set and the owner's index *)

Lemma user_key_ne_active u : user_tasks_prefix +:+ u ≠ active_tasks_prefix.
Proof. discriminate. Qed.

Lemma user_key_eq u u' :
  user_tasks_prefix +:+ u = user_tasks_prefix +:+ u' ↔ u = u'.
Proof. split; [apply append_inj_r | by intros ->]. Qed.

Lemma prefix_is_append (p k : string) :
  String.prefix p k = true → ∃ s, k = p +:+ s.
Proof.
  revert k. induction p as [|a p IH]; intros k Hk; [by exists k|].
  destruct k as [|b k]; [done|]. cbn [String.prefix] in Hk.
  destruct (Ascii.ascii_dec a b) as [->|]; [|done].
  destruct (IH k Hk) as [s ->]. by exists s.
Qed.

Section sets_after_a_call.
Variable tm : TaskManager.
Hypothesis Hinit : initialized tm = true.

Lemma active_tasks_create ty u ps p mr to tid now :
  active_tasks (exec (CreateTask ty u ps p mr to tid now) tm) =
  active_tasks tm ∪ {[tid]}.
Proof.
  cbn [exec]. rewrite create_task_eq by done. unfold active_tasks.
  cbn [snd redis_client].
  rewrite smembers_lpush, smembers_sadd, decide_True by done.
  rewrite smembers_sadd, decide_False by apply user_key_ne_active. done.
Qed.

Lemma active_tasks_update tid s p e r now :
  active_tasks (exec (UpdateTaskStatus tid s p e r now) tm) =
  match stored tid tm with
  | Some _ => if is_terminal s then active_tasks tm ∖ {[tid]} else active_tasks tm
  | None => active_tasks tm
  end.
Proof.
  cbn [exec]. destruct (stored tid tm) as [t|] eqn:Hs.
  - erewrite update_task_status_found by done. unfold active_tasks.
    cbn [snd redis_client]. destruct (is_terminal s); [|done].
    change (smembers active_tasks_prefix (redis_set ?k ?v ?ex ?r))
      with (smembers active_tasks_prefix r).
    by rewrite smembers_srem, decide_True.
  - by rewrite update_task_status_missing.
Qed.

Lemma active_tasks_retry_call tid now :
  active_tasks (exec (RetryTask tid now) tm) =
  match stored tid tm with
  | Some t => if decide (max_retries t ≤ retry_count t) then active_tasks tm
              else active_tasks tm ∪ {[tid]}
  | None => active_tasks tm
  end.
Proof.
  cbn [exec]. destruct (stored tid tm) as [t|] eqn:Hs.
  - destruct (decide (max_retries t ≤ retry_count t)) as [Hlim|Hlim].
    + by erewrite retry_task_exhausted.
    + apply (active_tasks_retry tm tid t now); [done..|lia].
  - by rewrite retry_task_missing.
Qed.

Lemma sets_next dr p :
  sets (redis_client (exec (GetNextTask dr p) tm)) = sets (redis_client tm).
Proof.
  cbn [exec]. rewrite get_next_task_eq by done.
  destruct (redis_rpop_spec (queue_name p) (redis_client tm))
    as (r' & -> & _ & Hsets & _). done.
Qed.

Lemma user_tasks_create ty u ps p mr to tid now u' :
  user_tasks u' (exec (CreateTask ty u ps p mr to tid now) tm) =
  if decide (u = u') then user_tasks u tm ∪ {[tid]} else user_tasks u' tm.
Proof.
  cbn [exec]. rewrite create_task_eq by done. unfold user_tasks.
  cbn [snd redis_client].
  rewrite smembers_lpush, smembers_sadd.
  rewrite decide_False by (intros H; by apply (user_key_ne_active u')).
  rewrite smembers_sadd.
  destruct (decide (u = u')) as [->|Hne]; [by rewrite decide_True|].
  rewrite decide_False; [done|]. by rewrite user_key_eq.
Qed.

Lemma user_tasks_update tid s p e r now u :
  user_tasks u (exec (UpdateTaskStatus tid s p e r now) tm) = user_tasks u tm.
Proof.
  cbn [exec]. destruct (stored tid tm) as [t|] eqn:Hs.
  - erewrite update_task_status_found by done. unfold user_tasks.
    cbn [snd redis_client]. destruct (is_terminal s); [|done].
    change (smembers ?K (redis_set ?k ?v ?ex ?r)) with (smembers K r).
    rewrite smembers_srem, decide_False; [done|].
    intros H. by apply (user_key_ne_active u).
  - by rewrite update_task_status_missing.
Qed.

Lemma user_tasks_retry tid now u :
  user_tasks u (exec (RetryTask tid now) tm) = user_tasks u tm.
Proof.
  cbn [exec]. destruct (stored tid tm) as [t|] eqn:Hs.
  - destruct (decide (max_retries t ≤ retry_count t)) as [Hlim|Hlim].
    + by erewrite retry_task_exhausted.
    + erewrite retry_task_below_limit; [|done..|lia]. unfold user_tasks.
      cbn [snd redis_client]. rewrite smembers_lpush, smembers_sadd.
      rewrite decide_False; [done|]. intros H. by apply (user_key_ne_active u).
  - by rewrite retry_task_missing.
Qed.
End sets_after_a_call.

Lemma keys_name_records_exec c tm :
  initialized tm = true →
  keys_name_records tm → keys_name_records (exec c tm).
Proof.
  intros Hinit Hk x t'. rewrite exec_as_update.
  pattern (as_update c). apply call_cases; clear c; cbn beta.
  - intros ty u ps p mr to tid now. rewrite stored_create by done.
    case_decide; [|by apply Hk]. by intros [= <-].
  - intros tid s p e r now. rewrite stored_update by done.
    case_decide; [subst x|by apply Hk].
    destruct (stored tid tm) as [t|] eqn:Hs; [|done]. intros [= <-].
    unfold updated; cbn [task_id]. by apply (Hk tid).
  - intros tid now. rewrite stored_retry by done.
    case_decide; [subst x|by apply Hk].
    destruct (stored tid tm) as [t|] eqn:Hs; [|done]. cbn.
    case_decide; intros [= <-]; unfold retried; cbn [task_id]; by apply (Hk tid).
  - intros dr p. rewrite stored_next by done. by apply Hk.
Qed.

Lemma active_tasks_live_exec c tm :
  initialized tm = true →
  active_tasks_live tm → active_tasks_live (exec c tm).
Proof.
  intros Hinit Ha x t'. rewrite exec_as_update.
  pattern (as_update c). apply call_cases; clear c; cbn beta.
  - intros ty u ps p mr to tid now.
    rewrite active_tasks_create, stored_create by done.
    destruct (decide (tid = x)) as [->|Hne]; [by intros _ [= <-]|].
    intros Hin. apply Ha. set_solver.
  - intros tid s p e r now.
    rewrite active_tasks_update, stored_update by done.
    destruct (stored tid tm) as [t|] eqn:Hs.
    + destruct (is_terminal s) eqn:Hterm.
      * intros [Hin Hne]%elem_of_difference.
        rewrite decide_False by set_solver. by apply Ha.
      * intros Hin. destruct (decide (tid = x)) as [->|Hne]; [|by apply Ha].
        cbn. by intros [= <-].
    + intros Hin. destruct (decide (tid = x)) as [->|Hne]; [done|by apply Ha].
  - intros tid now.
    rewrite active_tasks_retry_call, stored_retry by done.
    destruct (stored tid tm) as [t|] eqn:Hs.
    + destruct (decide (max_retries t ≤ retry_count t)) as [Hlim|Hlim]; cbn.
      * intros Hin. destruct (decide (tid = x)) as [->|Hne]; [|by apply Ha].
        rewrite decide_True by done. intros [= <-]. by apply (Ha x).
      * destruct (decide (tid = x)) as [->|Hne].
        -- intros _. rewrite decide_False by done. by intros [= <-].
        -- intros Hin. apply Ha. set_solver.
    + intros Hin. destruct (decide (tid = x)) as [->|Hne]; [done|by apply Ha].
  - intros dr p. rewrite stored_next by done. unfold active_tasks, smembers.
    rewrite sets_next by done. apply Ha.
Qed.

Lemma records_indexed_exec c tm :
  initialized tm = true →
  records_indexed tm → records_indexed (exec c tm).
Proof.
  intros Hinit Hi x t'. rewrite exec_as_update.
  pattern (as_update c). apply call_cases; clear c; cbn beta.
  - intros ty u ps p mr to tid now. rewrite stored_create by done.
    destruct (decide (tid = x)) as [->|Hne].
    + intros [= <-]. cbn [user_id]. rewrite user_tasks_create by done.
      rewrite decide_True by done. set_solver.
    + intros Hx. rewrite user_tasks_create by done.
      specialize (Hi x t' Hx). case_decide; [subst u|done]. set_solver.
  - intros tid s p e r now. rewrite stored_update, user_tasks_update by done.
    case_decide; [subst x|by apply Hi].
    destruct (stored tid tm) as [t|] eqn:Hs; [|done]. intros [= <-].
    unfold updated; cbn [user_id]. by apply (Hi tid).
  - intros tid now. rewrite stored_retry, user_tasks_retry by done.
    case_decide; [subst x|by apply Hi].
    destruct (stored tid tm) as [t|] eqn:Hs; [|done]. cbn.
    case_decide; intros [= <-]; unfold retried; cbn [user_id]; by apply (Hi tid).
  - intros dr p. rewrite stored_next by done. unfold user_tasks, smembers.
    rewrite sets_next by done. apply Hi.
Qed.

Lemma stored_task_key_is_scanned scan tm tid t :
  scans_task_keys scan →
  stored tid tm = Some t →
  ∃ ex, task_prefix +:+ tid ∈ scan (redis_client tm) ∧
        kv (redis_client tm) !! (task_prefix +:+ tid) = Some (t, ex).
Proof.
  intros Hscan Hs. unfold stored, redis_get in Hs.
  destruct (kv (redis_client tm) !! (task_prefix +:+ tid)) as [[t' ex]|] eqn:Hk;
    [|done].
  injection Hs as ->. exists ex. split; [|done].
  apply Hscan. split; [by eexists|apply prefix_append].
Qed.

Lemma scanned_key_is_stored scan tm k t ex :
  scans_task_keys scan →
  k ∈ scan (redis_client tm) →
  kv (redis_client tm) !! k = Some (t, ex) →
  ∃ tid, k = task_prefix +:+ tid ∧ stored tid tm = Some t.
Proof.
  intros Hscan Hin Hk. apply Hscan in Hin as [_ Hp].
  destruct (prefix_is_append _ _ Hp) as [tid ->]. exists tid.
  split; [done|]. unfold stored, redis_get. by rewrite Hk.
Qed.

Lemma invariants_cleanup scan cutoff tm :
  initialized tm = true →
  scans_task_keys scan →
  keys_name_records tm ∧ active_tasks_live tm ∧ records_indexed tm →
  let tm' := state_after (cleanup_expired_tasks scan cutoff) tm in
  keys_name_records tm' ∧ active_tasks_live tm' ∧ records_indexed tm'.
Proof.
  intros Hinit Hscan (Hk & Ha & Hi) tm'.
  assert (Hstored : ∀ x t, stored x tm' = Some t →
                           stored x tm = Some t ∧ ¬ expired cutoff t).
  { intros x t. unfold tm'. rewrite stored_cleanup by done.
    destruct (stored x tm) as [t0|]; [|done].
    case_decide; [done|]. by intros [= <-]. }
  split; [|split].
  - intros x t Hx. apply Hk. by apply Hstored.
  - intros x t Hin Hx. apply smembers_cleanup in Hin as [Hin _]; [|done].
    apply Hstored in Hx as [Hx _]. by apply (Ha x).
  - intros x t Hx. apply Hstored in Hx as [Hx Hnexp].
    apply smembers_cleanup; [done|]. split; [by apply Hi|].
    intros (k & t2 & ex & Hsc & Hkv & Hexp & Hid & HK).
    destruct (scanned_key_is_stored scan tm k t2 ex Hscan Hsc Hkv) as (y & -> & Hy).
    apply Hk in Hy as Hy'. assert (y = x) as -> by congruence.
    assert (t2 = t) as -> by congruence. done.
Qed.

(** *** The expiry of a task document *)

Lemma stored_expire tid tid' tm :
  stored tid' (expire tid tm) =
  if decide (tid = tid') then None else stored tid' tm.
Proof.
  unfold stored, expire, redis_get, redis_delete. cbn [redis_client kv].
  destruct (decide (tid = tid')) as [->|Hne].
  - by rewrite lookup_delete_eq.
  - rewrite lookup_delete_ne; [done|]. by rewrite task_key_eq.
Qed.


Lemma smembers_expire tid tm K :
  smembers K (redis_client (expire tid tm)) = smembers K (redis_client tm).
Proof. done. Qed.

Lemma invariants_expire tid tm :
  keys_name_records tm ∧ active_tasks_live tm ∧ records_indexed tm →
  keys_name_records (expire tid tm) ∧ active_tasks_live (expire tid tm) ∧
  records_indexed (expire tid tm).
Proof.
  intros (Hk & Ha & Hi).
  assert (Hstored : ∀ x t, stored x (expire tid tm) = Some t →
                           stored x tm = Some t).
  { intros x t. rewrite stored_expire. by case_decide. }
  split; [|split].
  - intros x t Hx. apply Hk. by apply Hstored.
  - intros x t Hin Hx. apply (Ha x); [done|]. by apply Hstored.
  - intros x t Hx. unfold user_tasks. rewrite smembers_expire.
    apply Hi. by apply Hstored.
Qed.

Lemma exec_ops_cons scan o os tm :
  exec_ops scan (o :: os) tm = exec_ops scan os (exec_op scan o tm).
Proof. done. Qed.

Lemma exec_ops_snoc scan os o tm :
  exec_ops scan (os ++ [o]) tm = exec_op scan o (exec_ops scan os tm).
Proof. unfold exec_ops. by rewrite foldl_app. Qed.

Lemma exec_op_initialized scan o tm :
  initialized (exec_op scan o tm) = initialized tm.
Proof.
  destruct o; [apply exec_initialized|apply initialized_cleanup|done].
Qed.

Lemma exec_ops_initialized scan os tm :
  initialized (exec_ops scan os tm) = initialized tm.
Proof.
  revert tm. induction os as [|o os IH]; intros tm; [done|].
  rewrite exec_ops_cons, IH. apply exec_op_initialized.
Qed.

Lemma invariants_exec_ops scan os tm :
  initialized tm = true →
  scans_task_keys scan →
  keys_name_records tm ∧ active_tasks_live tm ∧ records_indexed tm →
  keys_name_records (exec_ops scan os tm) ∧
  active_tasks_live (exec_ops scan os tm) ∧
  records_indexed (exec_ops scan os tm).
Proof.
  revert tm. induction os as [|o os IH]; intros tm Hinit Hscan Hinv; [done|].
  rewrite exec_ops_cons. apply IH; [by rewrite exec_op_initialized|done|].
  destruct o as [c|cutoff|tid].
  - destruct Hinv as (Hk & Ha & Hi). cbn [exec_op]. split; [|split].
    + by apply keys_name_records_exec.
    + by apply active_tasks_live_exec.
    + by apply records_indexed_exec.
  - by apply invariants_cleanup.
  - by apply invariants_expire.
Qed.

Lemma invariants_manager0 :
  keys_name_records manager0 ∧ active_tasks_live manager0 ∧
  records_indexed manager0.
Proof.
  split; [|split].
  - intros tid t Hs. by rewrite stored_manager0 in Hs.
  - intros tid t _ Hs. by rewrite stored_manager0 in Hs.
  - intros tid t Hs. by rewrite stored_manager0 in Hs.
Qed.



(** X7.  Whatever calls, sweeps and expiries of task documents happen on
    a manager started on an empty server, every stored record sits under
    the key of its own [task_id] and its identifier is a member of the
    index of its owner, the set [get_user_tasks] reads. *)
Theorem stored_tasks_are_indexed scan os tid t :
  scans_task_keys scan →
  stored tid (exec_ops scan os manager0) = Some t →
  task_id t = tid ∧ tid ∈ user_tasks (user_id t) (exec_ops scan os manager0).
Proof.
  intros Hscan Hs.
  destruct (invariants_exec_ops scan os manager0) as (Hk & _ & Hi);
    [done|done|apply invariants_manager0|]. split; [by apply Hk|by apply Hi].
Qed.

Lemma stored_tasks_are_indexed_witness :
  "t2" ∈ user_tasks "u1"
    (exec_ops scan_in_table_order
       [Call (CreateTask "content_generation" "u1" "{}" MEDIUM 3 300 "t1" "09:00");
        Call (CreateTask "trend_analysis" "u1" "{}" LOW 3 300 "t2" "09:40");
        CleanupExpiredTasks "09:30"] manager0).
Proof.
  refine (proj2 (stored_tasks_are_indexed scan_in_table_order
       [Call (CreateTask "content_generation" "u1" "{}" MEDIUM 3 300 "t1" "09:00");
        Call (CreateTask "trend_analysis" "u1" "{}" LOW 3 300 "t2" "09:40");
        CleanupExpiredTasks "09:30"] "t2"
       (mk_task "t2" "trend_analysis" "u1" "{}" "pending" LOW 3 0 300
          "09:40" "09:40" None None None None 0)
       scan_in_table_order_spec _)).
  vm_compute; reflexivity.
Defined.

(** ** Queue entries through calls, sweeps and expiries *)









(** ** The identity of a record *)

Lemma same_identity_refl t : same_identity t t.
Proof. by repeat split. Qed.

Lemma same_identity_trans t1 t2 t3 :
  same_identity t1 t2 → same_identity t2 t3 → same_identity t1 t3.
Proof.
  unfold same_identity. intros H12 H23.
  destruct H12 as (?&?&?&?&?&?&?&?), H23 as (?&?&?&?&?&?&?&?).
  repeat split; congruence.
Qed.

(** A call that is not a creation of [tid] keeps the record of [tid], up
    to the fields it may assign; a sweep and an expiry keep it or delete
    it. *)
Lemma stored_identity_exec_op scan o tm tid :
  initialized tm = true →
  scans_task_keys scan →
  ¬ creates tid o →
  match stored tid tm, stored tid (exec_op scan o tm) with
  | Some t, Some t' => same_identity t t'
  | None, Some _ => False
  | _, None => True
  end.
Proof.
  intros Hinit Hscan Hc. destruct o as [c|cutoff|tid']; cbn [exec_op].
  - rewrite exec_as_update.
    assert (Hc' : ¬ creates tid (Call (as_update c))) by (by destruct c).
    revert Hc'. pattern (as_update c). apply call_cases; clear c Hc;
      cbn beta; cbn [creates].
    + intros ty u ps p mr to tid' now Hne. rewrite stored_create by done.
      rewrite decide_False by done.
      destruct (stored tid tm); [apply same_identity_refl|done].
    + intros tid' s p e r now _. rewrite stored_update by done.
      destruct (decide (tid' = tid)) as [->|].
      * destruct (stored tid tm); [by repeat split|done].
      * destruct (stored tid tm); [apply same_identity_refl|done].
    + intros tid' now _. rewrite stored_retry by done.
      destruct (decide (tid' = tid)) as [->|].
      * destruct (stored tid tm) as [t|]; [|done]. cbn.
        case_decide; by repeat split.
      * destruct (stored tid tm); [apply same_identity_refl|done].
    + intros dr p _. rewrite stored_next by done.
      destruct (stored tid tm); [apply same_identity_refl|done].
  - rewrite stored_cleanup by done.
    destruct (stored tid tm) as [t|]; [|done].
    case_decide; [done|apply same_identity_refl].
  - rewrite stored_expire.
    destruct (stored tid tm) as [t|]; [|by case_decide].
    case_decide; [done|apply same_identity_refl].
Qed.

Lemma stored_identity_exec_ops scan os tm tid t t' :
  initialized tm = true →
  scans_task_keys scan →
  Forall (λ o, ¬ creates tid o) os →
  stored tid tm = Some t →
  stored tid (exec_ops scan os tm) = Some t' →
  same_identity t t'.
Proof.
  revert tm t. induction os as [|o os IH]; intros tm t Hinit Hscan Hos Hs Hs'.
  - cbn in Hs'. assert (t' = t) as -> by congruence. apply same_identity_refl.
  - inversion_clear Hos as [|? ? Ho Hos']. rewrite exec_ops_cons in Hs'.
    pose proof (stored_identity_exec_op scan o tm tid Hinit Hscan Ho) as Hstep.
    rewrite Hs in Hstep.
    destruct (stored tid (exec_op scan o tm)) as [t1|] eqn:Hs1.
    + apply (same_identity_trans t t1 t'); [done|].
      apply (IH (exec_op scan o tm) t1); try done.
      by rewrite exec_op_initialized.
    + exfalso. clear IH Hstep Hs.
      assert (Hinit1 : initialized (exec_op scan o tm) = true)
        by (by rewrite exec_op_initialized).
      revert Hs1 Hs' Hinit1. generalize (exec_op scan o tm). clear tm Hinit Ho.
      induction os as [|o' os IH]; intros tm Hnone Hs' Hinit; [cbn in Hs'; congruence|].
      inversion_clear Hos' as [|? ? Ho' Hos]. rewrite exec_ops_cons in Hs'.
      pose proof (stored_identity_exec_op scan o' tm tid Hinit Hscan Ho') as Hstep.
      rewrite Hnone in Hstep.
      destruct (stored tid (exec_op scan o' tm)) eqn:Hs1; [done|].
      apply (IH Hos (exec_op scan o' tm)); try done.
      by rewrite exec_op_initialized.
Qed.

(** X8.  Between two observations of a task with no [create_task]
    drawing its identifier again, the task id, type, owner, parameters,
    priority, [max_retries], timeout and creation time of its record are
    the same, whatever updates, completions, failures, cancellations,
    retries, dequeues, sweeps and expiries were made. *)
Theorem record_identity_is_immutable scan os tm tid t t' :
  initialized tm = true →
  scans_task_keys scan →
  Forall (λ o, ¬ creates tid o) os →
  stored tid tm = Some t →
  stored tid (exec_ops scan os tm) = Some t' →
  same_identity t t'.
Proof. apply stored_identity_exec_ops. Qed.

Lemma record_identity_is_immutable_witness :
  ∃ t t',
    stored "t1" manager_failed = Some t ∧
    stored "t1"
      (exec_ops scan_in_table_order
         [Call (RetryTask "t1" "09:02");
          Call (GetNextTask true MEDIUM);
          Call (UpdateTaskStatus "t1" "running" (Some 10) None None "09:03");
          CleanupExpiredTasks "08:00";
          Call (CancelTask "t1" "Cancelled by user" "09:04")] manager_failed)
    = Some t' ∧
    same_identity t t'.
Proof.
  eexists _, _.
  split; [vm_compute; reflexivity|].
  split; [vm_compute; reflexivity|].
  refine (record_identity_is_immutable scan_in_table_order
         [Call (RetryTask "t1" "09:02");
          Call (GetNextTask true MEDIUM);
          Call (UpdateTaskStatus "t1" "running" (Some 10) None None "09:03");
          CleanupExpiredTasks "08:00";
          Call (CancelTask "t1" "Cancelled by user" "09:04")] manager_failed "t1"
         _ _ _ scan_in_table_order_spec _ _ _).
  - vm_compute; reflexivity.
  - repeat constructor; intros [].
  - vm_compute; reflexivity.
  - vm_compute; reflexivity.
Defined.

(** ** Queue lengths *)





(** ** The retry budget *)

Lemma retry_granted_as_update tid c tm :
  retry_granted tid c tm = retry_granted tid (as_update c) tm.
Proof. by destruct c. Qed.

(** One call that does not create [tid] again adds to the stored
    [retry_count] of [tid] what it grants. *)
Lemma retry_count_exec c tm tid t :
  initialized tm = true →
  ¬ creates tid (Call c) →
  stored tid tm = Some t →
  ∃ t', stored tid (exec c tm) = Some t' ∧
        retry_count t' = retry_count t + retry_granted tid c tm ∧
        max_retries t' = max_retries t.
Proof.
  intros Hinit Hc Hs. rewrite exec_as_update, retry_granted_as_update.
  assert (Hc' : ¬ creates tid (Call (as_update c))) by (by destruct c).
  revert Hc'. pattern (as_update c). apply call_cases; clear c Hc;
    cbn beta; cbn [creates retry_granted].
  - intros ty u ps p mr to tid' now Hne. rewrite stored_create by done.
    rewrite decide_False by done. exists t. split; [done|]. split; [lia|done].
  - intros tid' s p e r now _. rewrite stored_update by done.
    destruct (decide (tid' = tid)) as [->|].
    + rewrite Hs. eexists. split; [done|]. unfold updated.
      cbn [retry_count max_retries]. split; [lia|done].
    + exists t. split; [done|]. split; [lia|done].
  - intros tid' now _. rewrite stored_retry by done. unfold outcome_of.
    destruct (decide (tid' = tid)) as [->|].
    + rewrite Hs. cbn.
      destruct (decide (max_retries t ≤ retry_count t)) as [Hlim|Hlim].
      * rewrite (retry_task_exhausted tm tid now t) by done.
        exists t. split; [done|]. cbn. split; [lia|done].
      * rewrite (retry_task_below_limit tm tid now t) by (done || lia).
        eexists. split; [done|]. by cbn.
    + exists t. split; [done|]. split; [lia|done].
  - intros dr p _. rewrite stored_next by done.
    exists t. split; [done|]. split; [lia|done].
Qed.

Lemma retry_count_exec_all cs tm tid t :
  initialized tm = true →
  Forall (λ c, ¬ creates tid (Call c)) cs →
  stored tid tm = Some t →
  ∃ t', stored tid (exec_all cs tm) = Some t' ∧
        retry_count t' = retry_count t + retries_granted tid cs tm ∧
        max_retries t' = max_retries t.
Proof.
  revert tm t. induction cs as [|c cs IH]; intros tm t Hinit Hcs Hs.
  - exists t. cbn. split; [done|]. split; [lia|done].
  - inversion_clear Hcs as [|? ? Hc Hcs'].
    destruct (retry_count_exec c tm tid t Hinit Hc Hs) as (t1 & Hs1 & Hr1 & Hm1).
    destruct (IH (exec c tm) t1) as (t' & Hs' & Hr' & Hm');
      [by rewrite exec_initialized|done..|].
    exists t'. rewrite exec_all_cons. split; [done|].
    cbn [retries_granted]. split; [lia|congruence].
Qed.

Lemma retry_granted_nonneg tid c tm : 0 ≤ retry_granted tid c tm.
Proof.
  destruct c; cbn; try lia. case_decide; [|lia].
  destruct (outcome_of _ _) as [[]|]; lia.
Qed.

Lemma retry_bounded_step tid c tm t :
  initialized tm = true →
  ¬ creates tid (Call c) →
  stored tid tm = Some t →
  retry_count t ≤ max_retries t →
  retry_count t + retry_granted tid c tm ≤ max_retries t.
Proof.
  intros Hinit Hc Hs Hb. destruct c; cbn; try lia.
  case_decide; [subst|lia]. unfold outcome_of.
  destruct (decide (max_retries t ≤ retry_count t)) as [Hlim|Hlim].
  - rewrite (retry_task_exhausted tm tid now t) by done. cbn. lia.
  - rewrite (retry_task_below_limit tm tid now t) by (done || lia). cbn. lia.
Qed.

Lemma retries_granted_bounded cs tm tid t :
  initialized tm = true →
  Forall (λ c, ¬ creates tid (Call c)) cs →
  stored tid tm = Some t →
  retry_count t ≤ max_retries t →
  retry_count t + retries_granted tid cs tm ≤ max_retries t.
Proof.
  revert tm t. induction cs as [|c cs IH]; intros tm t Hinit Hcs Hs Hb.
  - cbn. lia.
  - inversion_clear Hcs as [|? ? Hc Hcs'].
    destruct (retry_count_exec c tm tid t Hinit Hc Hs) as (t1 & Hs1 & Hr1 & Hm1).
    pose proof (retry_bounded_step tid c tm t Hinit Hc Hs Hb) as Hstep.
    specialize (IH (exec c tm) t1). cbn [retries_granted].
    rewrite Hr1, Hm1 in IH. rewrite Z.add_assoc. apply IH; try done.
    by rewrite exec_initialized.
Qed.

(** X10.  The retry budget.  For a task created with [max_retries >= 0]
    and every later history in which its identifier is not drawn again,
    the stored [retry_count] is the number of [retry_task] calls on it
    that returned [True], and that number is at most [max_retries]:
    status updates in between neither consume nor restore the budget. *)
Theorem retry_budget tm ty u ps p mr to tid now cs :
  initialized tm = true →
  0 ≤ mr →
  Forall (λ c, ¬ creates tid (Call c)) cs →
  let created := state_after (create_task ty u ps p mr to tid now) tm in
  retries_granted tid cs created ≤ mr ∧
  ∃ t', stored tid (exec_all cs created) = Some t' ∧
        retry_count t' = retries_granted tid cs created ∧
        max_retries t' = mr.
Proof.
  intros Hinit Hmr Hcs created.
  assert (Hinit' : initialized created = true).
  { unfold created, state_after. by rewrite create_task_eq. }
  assert (Hs : stored tid created =
               Some (mk_task tid ty u ps "pending" p mr 0 to now now
                       None None None None 0)).
  { change created with (exec (CreateTask ty u ps p mr to tid now) tm).
    by rewrite stored_create, decide_True. }
  split.
  - pose proof (retries_granted_bounded cs created tid _ Hinit' Hcs Hs) as Hb.
    cbn [retry_count max_retries] in Hb. lia.
  - destruct (retry_count_exec_all cs created tid _ Hinit' Hcs Hs)
      as (t' & Hs' & Hr & Hm).
    exists t'. cbn [retry_count max_retries] in *. split; [done|]. split; [lia|done].
Qed.

Lemma retry_budget_witness :
  retries_granted "t1"
    [FailTask "t1" "boom" "09:01"; RetryTask "t1" "09:02";
     FailTask "t1" "boom" "09:03"; RetryTask "t1" "09:04"]
    (state_after
       (create_task "content_generation" "u1" "{}" MEDIUM 1 300 "t1" "09:00")
       manager0) ≤ 1.
Proof.
  refine (proj1 (retry_budget manager0 "content_generation" "u1" "{}" MEDIUM 1
                   300 "t1" "09:00"
    [FailTask "t1" "boom" "09:01"; RetryTask "t1" "09:02";
     FailTask "t1" "boom" "09:03"; RetryTask "t1" "09:04"] _ _ _)).
  - vm_compute; reflexivity.
  - lia.
  - repeat constructor; intros [].
Defined.

(** ** Listing the tasks of a user *)

Section sorting.
Implicit Types (x : task_data) (l : list task_data).

Lemma insert_created_at_desc_Permutation x l :
  insert_created_at_desc x l ≡ₚ x :: l.
Proof.
  induction l as [|y l IH]; [done|]. cbn. case_decide; [|done].
  rewrite IH. apply perm_swap.
Qed.

Lemma sort_created_at_desc_Permutation l : sort_created_at_desc l ≡ₚ l.
Proof.
  unfold sort_created_at_desc.
  enough (∀ acc, foldl (λ sorted x, insert_created_at_desc x sorted) acc l
                 ≡ₚ acc ++ l) as H by apply (H []).
  induction l as [|x l IH]; intros acc; cbn; [by rewrite app_nil_r|].
  rewrite IH, insert_created_at_desc_Permutation.
  apply Permutation_middle.
Qed.

Lemma insert_created_at_desc_Sorted x l :
  StronglySorted newer_first l →
  StronglySorted newer_first (insert_created_at_desc x l).
Proof.
  induction 1 as [|y l Hl IH Hy]; cbn; [by repeat constructor|].
  destruct (decide (String.le (created_at x) (created_at y))) as [Hle|Hnle].
  - constructor; [done|].
    rewrite insert_created_at_desc_Permutation. by constructor.
  - assert (Hyx : String.le (created_at y) (created_at x)).
    { by destruct (total String.le (created_at x) (created_at y)). }
    constructor; [by constructor|]. constructor; [done|].
    eapply Forall_impl; [exact Hy|]. intros z Hz. unfold newer_first in *.
    by etrans.
Qed.

Lemma sort_created_at_desc_Sorted l :
  StronglySorted newer_first (sort_created_at_desc l).
Proof.
  unfold sort_created_at_desc.
  enough (∀ acc, StronglySorted newer_first acc →
                 StronglySorted newer_first
                   (foldl (λ sorted x, insert_created_at_desc x sorted) acc l))
    as H by (apply H; constructor).
  induction l as [|x l IH]; intros acc Hacc; cbn; [done|].
  apply IH. by apply insert_created_at_desc_Sorted.
Qed.
End sorting.

Section slices.
Context {A : Type}.
Implicit Types (l : list A).

Lemma py_slice_sublist l start stop : py_slice l start stop `sublist_of` l.
Proof.
  unfold py_slice. etrans; [apply sublist_take|apply sublist_drop].
Qed.

(** With a non-negative start and length, a slice is a page. *)
Lemma py_slice_page l (offset limit : Z) :
  0 ≤ offset → 0 ≤ limit →
  py_slice l offset (offset + limit) =
  take (Z.to_nat limit) (drop (Z.to_nat offset) l).
Proof.
  intros Ho Hl. unfold py_slice, slice_index.
  rewrite !bool_decide_eq_false_2 by lia.
  destruct (decide (offset ≤ Z.of_nat (length l))) as [Hin|Hout].
  - rewrite (Z.min_l offset) by done.
    destruct (decide (offset + limit ≤ Z.of_nat (length l))) as [Hin'|Hout'].
    + rewrite Z.min_l by done. f_equal. lia.
    + rewrite Z.min_r by lia. rewrite Nat2Z.id.
      rewrite !take_ge; [done|rewrite length_drop; lia..].
  - rewrite !Z.min_r by lia. rewrite Nat2Z.id, Nat.sub_diag.
    rewrite drop_all. cbn. rewrite drop_ge by lia. by destruct (Z.to_nat limit).
Qed.
End slices.

Lemma StronglySorted_sublist_of {A : Type} (R : relation A) (l k : list A) :
  l `sublist_of` k → StronglySorted R k → StronglySorted R l.
Proof.
  induction 1 as [|x l k Hlk IH|x l k Hlk IH]; intros Hk; [done|..].
  - apply StronglySorted_inv in Hk as [Hk Hx].
    constructor; [by apply IH|].
    rewrite Forall_forall in *. intros y Hy. apply Hx.
    by eapply elem_of_sublist.
  - apply StronglySorted_inv in Hk as [Hk _]. by apply IH.
Qed.

Lemma collect_tasks_eq tm f ids tasks :
  initialized tm = true →
  collect_tasks f ids tasks tm = (Returned (tasks ++ listed f ids tm), tm).
Proof.
  intros Hinit. revert tasks. unfold listed.
  induction ids as [|id ids IH]; intros tasks.
  - cbn. by rewrite app_nil_r.
  - cbn [collect_tasks omap list_omap]. unfold mbind at 1, M_bind at 1.
    rewrite get_task_status_eq by done.
    destruct (stored id tm) as [t|] eqn:Hs; [|by rewrite IH].
    assert (Hc : truthy f && negb (bool_decide (Some (status t) = f))
                 = negb (kept f t))
      by (unfold kept; by rewrite negb_involutive).
    rewrite Hc, filter_cons.
    destruct (decide (kept f t = true)) as [Hk|Hk].
    + rewrite Hk. cbn [negb]. by rewrite IH, <- app_assoc.
    + apply not_true_is_false in Hk. rewrite Hk. cbn [negb]. by rewrite IH.
Qed.

Lemma get_user_tasks_eq iter tm u limit f offset :
  initialized tm = true →
  enumerates iter →
  get_user_tasks false iter u limit f offset tm =
  (Returned (py_slice (sort_created_at_desc (listed f (iter (user_tasks u tm)) tm))
               offset (offset + limit)), tm).
Proof.
  intros Hinit Hiter. start_M tm Hinit. unfold get_user_tasks. run_M.
  unfold user_tasks. cbn [redis_client].
  destruct (decide (smembers (user_tasks_prefix +:+ u) rc = ∅)) as [Hempty|Hne].
  - rewrite Hempty. specialize (Hiter ∅). rewrite elements_empty in Hiter.
    apply Permutation_nil_r in Hiter. rewrite Hiter.
    unfold listed, sort_created_at_desc, py_slice. cbn [omap list_omap foldl].
    rewrite filter_nil. cbn [foldl]. by rewrite drop_nil, take_nil.
  - by rewrite collect_tasks_eq.
Qed.

Lemma listed_Permutation f ids ids' tm :
  ids ≡ₚ ids' → listed f ids tm ≡ₚ listed f ids' tm.
Proof. intros H. unfold listed. by rewrite H. Qed.

Lemma elem_of_listed f ids tm t :
  t ∈ listed f ids tm ↔
  (∃ tid, tid ∈ ids ∧ stored tid tm = Some t) ∧ kept f t = true.
Proof.
  unfold listed. rewrite list_elem_of_filter, list_elem_of_omap. naive_solver.
Qed.

Lemma length_listed f ids tm : (length (listed f ids tm) ≤ length ids)%nat.
Proof.
  unfold listed. etrans; [apply length_filter|].
  induction ids as [|id ids IH]; cbn; [done|].
  destruct (stored id tm); cbn; lia.
Qed.

Lemma enumerates_elements : enumerates elements.
Proof. by intros s. Qed.

(** X11.  With a client that replies in bytes, the pages of
    [get_user_tasks] for a user and a status filter are windows of one
    listing: the stored records of the identifiers in the user's index
    that pass the filter, each once, most recent [created_at] first.  For
    [offset >= 0] and [limit >= 0] the call returns the [limit] records
    after the first [offset] of that listing and changes nothing. *)
Theorem user_listing_pages iter tm u f :
  initialized tm = true →
  enumerates iter →
  ∃ all,
    all ≡ₚ listed f (elements (user_tasks u tm)) tm ∧
    StronglySorted newer_first all ∧
    ∀ offset limit, 0 ≤ offset → 0 ≤ limit →
      get_user_tasks false iter u limit f offset tm =
      (Returned (take (Z.to_nat limit) (drop (Z.to_nat offset) all)), tm).
Proof.
  intros Hinit Hiter.
  exists (sort_created_at_desc (listed f (iter (user_tasks u tm)) tm)).
  split; [|split].
  - rewrite sort_created_at_desc_Permutation. apply listed_Permutation, Hiter.
  - apply sort_created_at_desc_Sorted.
  - intros offset limit Ho Hl. rewrite get_user_tasks_eq by done.
    by rewrite py_slice_page.
Qed.

Lemma user_listing_pages_witness :
  ∃ all,
    all ≡ₚ listed None (elements (user_tasks "u1" manager_two_tasks))
             manager_two_tasks ∧
    StronglySorted newer_first all ∧
    ∀ offset limit, 0 ≤ offset → 0 ≤ limit →
      get_user_tasks false elements "u1" limit None offset manager_two_tasks =
      (Returned (take (Z.to_nat limit) (drop (Z.to_nat offset) all)),
       manager_two_tasks).
Proof.
  refine (user_listing_pages elements manager_two_tasks "u1" None _
            enumerates_elements).
  vm_compute; reflexivity.
Defined.

(** X12.  For any [offset] and [limit], negative ones included, what
    [get_user_tasks] returns (bytes client) is sorted most recent first,
    and each returned record is stored under an identifier of the user's
    index and, when a non-empty status filter is given, has that status. *)
Theorem user_listing_sound iter tm u limit f offset :
  initialized tm = true →
  enumerates iter →
  ∃ tasks,
    get_user_tasks false iter u limit f offset tm = (Returned tasks, tm) ∧
    StronglySorted newer_first tasks ∧
    ∀ t, t ∈ tasks →
         (∃ tid, tid ∈ user_tasks u tm ∧ stored tid tm = Some t) ∧
         (truthy f = true → Some (status t) = f).
Proof.
  intros Hinit Hiter. eexists. split; [by apply get_user_tasks_eq|]. split.
  - eapply StronglySorted_sublist_of; [apply py_slice_sublist|].
    apply sort_created_at_desc_Sorted.
  - intros t Ht. eapply elem_of_sublist in Ht; [|apply py_slice_sublist].
    rewrite sort_created_at_desc_Permutation in Ht.
    apply elem_of_listed in Ht as [(tid & Hin & Hs) Hkept]. split.
    + exists tid. split; [|done]. rewrite (Hiter _) in Hin.
      by apply elem_of_elements in Hin.
    + intros Hf. unfold kept in Hkept. rewrite Hf in Hkept. cbn in Hkept.
      apply negb_true_iff, negb_false_iff in Hkept.
      by apply bool_decide_eq_true in Hkept.
Qed.

Lemma user_listing_sound_witness :
  ∃ tasks,
    get_user_tasks false elements "u1" (-1) (Some "pending") (-5)
      manager_two_tasks = (Returned tasks, manager_two_tasks) ∧
    StronglySorted newer_first tasks ∧
    ∀ t, t ∈ tasks →
         (∃ tid, tid ∈ user_tasks "u1" manager_two_tasks ∧
                 stored tid manager_two_tasks = Some t) ∧
         (truthy (Some "pending") = true → Some (status t) = Some "pending").
Proof.
  refine (user_listing_sound elements manager_two_tasks "u1" (-1)
            (Some "pending") (-5) _ enumerates_elements).
  vm_compute; reflexivity.
Defined.

(** X13.  After any calls, sweeps and expiries of task documents on a
    manager started on an empty server, a stored task is found by an
    unfiltered [get_user_tasks] (bytes client) of its owner as soon as
    [limit] covers the owner's index: no task of a user is missing from
    the user's listing. *)
Theorem user_listing_complete scan iter os tid t limit :
  scans_task_keys scan →
  enumerates iter →
  let tm := exec_ops scan os manager0 in
  stored tid tm = Some t →
  Z.of_nat (size (user_tasks (user_id t) tm)) ≤ limit →
  ∃ tasks,
    get_user_tasks false iter (user_id t) limit None 0 tm = (Returned tasks, tm) ∧
    t ∈ tasks.
Proof.
  intros Hscan Hiter tm Hs Hlimit.
  assert (Hinit : initialized tm = true)
    by (unfold tm; by rewrite exec_ops_initialized).
  destruct (invariants_exec_ops scan os manager0) as (_ & _ & Hi);
    [done|done|apply invariants_manager0|].
  eexists. split; [by apply get_user_tasks_eq|].
  assert (Hl : 0 ≤ limit) by lia.
  rewrite (py_slice_page _ 0 limit) by done. rewrite drop_0, take_ge.
  - rewrite sort_created_at_desc_Permutation. apply elem_of_listed.
    split; [|done]. exists tid. split; [|done].
    rewrite (Hiter _). apply elem_of_elements. by apply Hi.
  - rewrite sort_created_at_desc_Permutation.
    etrans; [apply length_listed|]. rewrite (Hiter _).
    change (length (elements ?X)) with (size X). lia.
Qed.

Lemma user_listing_complete_witness :
  ∃ tasks,
    get_user_tasks false elements "u1" 10 None 0
      (exec_ops scan_in_table_order
         [Call (CreateTask "content_generation" "u1" "{}" MEDIUM 3 300 "t1" "09:00");
          Call (CreateTask "trend_analysis" "u1" "{}" LOW 3 300 "t2" "09:40");
          CleanupExpiredTasks "09:30"] manager0) =
    (Returned tasks,
     exec_ops scan_in_table_order
         [Call (CreateTask "content_generation" "u1" "{}" MEDIUM 3 300 "t1" "09:00");
          Call (CreateTask "trend_analysis" "u1" "{}" LOW 3 300 "t2" "09:40");
          CleanupExpiredTasks "09:30"] manager0) ∧
    mk_task "t2" "trend_analysis" "u1" "{}" "pending" LOW 3 0 300
      "09:40" "09:40" None None None None 0 ∈ tasks.
Proof.
  refine (user_listing_complete scan_in_table_order elements
         [Call (CreateTask "content_generation" "u1" "{}" MEDIUM 3 300 "t1" "09:00");
          Call (CreateTask "trend_analysis" "u1" "{}" LOW 3 300 "t2" "09:40");
          CleanupExpiredTasks "09:30"] "t2"
         (mk_task "t2" "trend_analysis" "u1" "{}" "pending" LOW 3 0 300
            "09:40" "09:40" None None None None 0) 10
         scan_in_table_order_spec enumerates_elements _ _).
  - vm_compute; reflexivity.
  - vm_compute; discriminate.
Defined.

(** X14.  With the client [main.py] builds ([decode_responses=True]),
    [get_user_tasks] returns the empty list for every user, limit, filter
    and offset, also when the user has tasks: the first [task_id.decode()]
    raises, the method logs the error and answers [[]].  The route
    [GET /tasks/user/{user_id}] therefore always answers with no task;
    nothing is changed on the server. *)
Theorem user_listing_empty_with_str_client iter tm u limit offset :
  initialized tm = true →
  (∀ f, outcome_of (get_user_tasks true iter u limit f offset) tm = Returned []) ∧
  outcome_of (Routes.get_user_tasks iter u limit offset) tm = Returned [] ∧
  redis_client (state_after (Routes.get_user_tasks iter u limit offset) tm) =
    redis_client tm ∧
  (user_tasks u tm ≠ ∅ →
   logger (state_after (Routes.get_user_tasks iter u limit offset) tm) =
     mk_log ERROR ("Failed to get user tasks for " +:+ u +:+ ": "
                   +:+ str_has_no_decode) :: logger tm).
Proof.
  intros Hinit. start_M tm Hinit.
  unfold Routes.get_user_tasks, Routes.decode_responses, try_except,
    outcome_of, state_after, get_user_tasks, user_tasks.
  run_M.
  destruct (decide (smembers (user_tasks_prefix +:+ u) rc = ∅)); done.
Qed.

Lemma user_listing_empty_with_str_client_witness :
  outcome_of (Routes.get_user_tasks elements "u1" 10 0) manager_two_tasks
  = Returned [].
Proof.
  refine (proj1 (proj2 (user_listing_empty_with_str_client elements
                          manager_two_tasks "u1" 10 0 _))).
  vm_compute; reflexivity.
Defined.

(** ** Dequeuing with the client of [main.py] *)

(** X15.  [get_next_task] is written for a client that replies in bytes
    (for which it is the method of the FIFO property).  With the client of
    [main.py] ([decode_responses=True]) each call on a non-empty tier
    removes the oldest identifier from the queue, logs an error and returns
    [None]: the identifier is handed to nobody. *)
Theorem get_next_task_loses_id_with_str_client tm p l x :
  initialized tm = true →
  queue p tm = l ++ [x] →
  x ≠ "" →
  outcome_of (get_next_task Routes.decode_responses p) tm = Returned None ∧
  queue p (state_after (get_next_task Routes.decode_responses p) tm) = l ∧
  logger (state_after (get_next_task Routes.decode_responses p) tm) =
    mk_log ERROR ("Failed to get next task from " +:+ TaskPriority_name p
                  +:+ " queue: " +:+ str_has_no_decode) :: logger tm.
Proof.
  intros Hinit Hq Hx. start_M tm Hinit.
  unfold get_next_task, Routes.decode_responses, outcome_of, state_after.
  run_M. unfold queue in *. cbn [redis_client] in *.
  destruct (redis_rpop_snoc (queue_name p) l x rc Hq) as (r' & -> & _ & _ & Hl).
  cbn. rewrite decide_False by done. cbn.
  split; [done|]. split; [|done]. by rewrite Hl, decide_True.
Qed.

Lemma get_next_task_loses_id_with_str_client_witness :
  outcome_of (get_next_task Routes.decode_responses HIGH)
    manager_two_tasks = Returned None ∧
  queue HIGH
    (state_after (get_next_task Routes.decode_responses HIGH)
       manager_two_tasks) = ["c"].
Proof.
  refine ((λ H, conj (proj1 H) (proj1 (proj2 H)))
            (get_next_task_loses_id_with_str_client manager_two_tasks HIGH
               ["c"] "a" _ _ _)).
  - vm_compute; reflexivity.
  - vm_compute; reflexivity.
  - discriminate.
Defined.

(** ** The task routes *)

Lemma route_get_task_status_eq tm tid :
  initialized tm = true →
  Routes.get_task_status tid tm =
  match stored tid tm with
  | Some t => (Returned t, tm)
  | None => (Raised (HTTPException 404 "Task not found"), tm)
  end.
Proof.
  intros Hinit. unfold Routes.get_task_status, try_except.
  unfold mbind, M_bind. rewrite get_task_status_eq by done.
  by destruct (stored tid tm).
Qed.

Lemma route_cancel_unknown tm tid uid now :
  initialized tm = true →
  stored tid tm = None →
  Main.cancel_task tid uid now tm =
  (Raised (HTTPException 404 "Task not found"), tm).
Proof.
  intros Hinit Hs. unfold Main.cancel_task, try_except.
  unfold mbind, M_bind. by rewrite get_task_status_eq, Hs.
Qed.

Lemma route_cancel_stranger tm tid uid now t :
  initialized tm = true →
  stored tid tm = Some t →
  user_id t ≠ uid →
  Main.cancel_task tid uid now tm =
  (Raised (HTTPException 403 "Not authorized to cancel this task"), tm).
Proof.
  intros Hinit Hs Hu. unfold Main.cancel_task, try_except.
  unfold mbind, M_bind. rewrite get_task_status_eq, Hs by done.
  by rewrite bool_decide_eq_false_2.
Qed.

(** X16.  The routes [GET /tasks/{task_id}] and [DELETE /tasks/{task_id}]
    answer 404 for an identifier with no record.  The first returns the
    record of any task to any caller; the second refuses, with 403 and
    before looking at the status, every [user_id] that is not the owner
    stored in the record.  A refusal changes nothing, not even the log.
    On a manager that was not initialised both answer 500. *)
Theorem task_routes_rejections tm tid uid now :
  (initialized tm = true →
     match stored tid tm with
     | None =>
         Routes.get_task_status tid tm =
           (Raised (HTTPException 404 "Task not found"), tm) ∧
         Main.cancel_task tid uid now tm =
           (Raised (HTTPException 404 "Task not found"), tm)
     | Some t =>
         Routes.get_task_status tid tm = (Returned t, tm) ∧
         (user_id t ≠ uid →
            Main.cancel_task tid uid now tm =
              (Raised (HTTPException 403 "Not authorized to cancel this task"),
               tm))
     end) ∧
  (initialized tm = false →
     outcome_of (Routes.get_task_status tid) tm =
       Raised (HTTPException 500 "Task Manager not initialized") ∧
     outcome_of (Main.cancel_task tid uid now) tm =
       Raised (HTTPException 500 "Task Manager not initialized") ∧
     redis_client (state_after (Main.cancel_task tid uid now) tm) =
       redis_client tm).
Proof.
  split.
  - intros Hinit. rewrite route_get_task_status_eq by done.
    destruct (stored tid tm) as [t|] eqn:Hs.
    + split; [done|]. intros Hu. by apply (route_cancel_stranger tm tid uid now t).
    + split; [done|]. by apply route_cancel_unknown.
  - intros Hinit.
    unfold outcome_of, state_after, Routes.get_task_status, Main.cancel_task,
      try_except.
    unfold mbind, M_bind.
    rewrite !get_task_status_uninitialized by done. done.
Qed.

Lemma task_routes_rejections_witness :
  Main.cancel_task "t1" "u2" "09:05" manager_running =
  (Raised (HTTPException 403 "Not authorized to cancel this task"),
   manager_running).
Proof.
  refine (proj2 (proj1 (task_routes_rejections manager_running "t1" "u2"
                          "09:05") _) _).
  - vm_compute; reflexivity.
  - vm_compute; discriminate.
Defined.

(** * Further properties of the connection registry *)

(** ** Running a coroutine to its return *)

Lemma finish_bind {A B : Type} cr (c : WS.coro A) (k : A → WS.coro B) s :
  Delivery.finish cr (c ≫= k) s =
  match Delivery.finish cr c s with
  | Some (a, s') => Delivery.finish cr (k a) s'
  | None => None
  end.
Proof.
  revert s. induction c as [a|f IH|s' c IH|c IH|c IH|ws f IH]; intros s; cbn.
  - done.
  - apply IH.
  - apply IH.
  - destruct (WS._lock s); [done|apply IH].
  - apply IH.
  - apply IH.
Qed.


(** [finish] is the event loop of the registry with nothing else running. *)
Lemma finish_run_alone {A : Type} cr (c : WS.coro A) s :
  match Delivery.finish cr c s with
  | Some r => ∃ fuel, WS.run_alone cr fuel (WS.resume c s) = Some r
  | None => ∀ fuel, WS.run_alone cr fuel (WS.resume c s) = None
  end.
Proof.
  revert s. induction c as [a|f IH|s' c IH|c IH|c IH|ws f IH]; intros s; cbn.
  - by exists 0%nat.
  - apply IH.
  - apply IH.
  - destruct (WS._lock s) as [h|] eqn:Hlock.
    + intros fuel. by apply (run_alone_blocked cr fuel c s h).
    + apply IH.
  - apply IH.
  - specialize (IH (cr ws) (WS.add_closed ws s)).
    destruct (Delivery.finish cr (f (cr ws)) (WS.add_closed ws s)) as [r|].
    + destruct IH as [fuel IH]. by exists (S fuel).
    + intros [|fuel]; [done|]. apply IH.
Qed.

Lemma finish_locked {A : Type} cr (body : WS.coro A) s h :
  WS._lock s = Some h →
  Delivery.finish cr (WS.with_lock body) s = None.
Proof. intros H. unfold WS.with_lock. cbn. by rewrite H. Qed.

Lemma state_eta (s : WS.state) :
  WS.mk_state (WS.active_connections s) (WS.subscriptions s)
    (WS.connection_metadata s) (WS._lock s) (WS.closed s) (WS.logger s) = s.
Proof. by destruct s. Qed.

Ltac ws_simpl :=
  unfold WS.set_lock, WS.add_log, WS.set_connection_metadata,
    WS.set_subscriptions, WS.set_active_connections, WS.add_closed;
  cbn [WS.active_connections WS.subscriptions WS.connection_metadata
       WS._lock WS.closed WS.logger].

Lemma finish_disconnect cr user_id s :
  WS._lock s = None →
  Delivery.finish cr (WS.disconnect user_id) s = Some ((), without cr user_id s).
Proof.
  intros Hlock. destruct s as [ac su me lk cl lg]. cbn in Hlock. subst lk.
  unfold WS.disconnect, WS.with_lock, without. cbn.
  destruct (ac !! user_id) as [w|] eqn:Hw; cbn; [|done].
  destruct (cr w) as [e|]; cbn;
    repeat (case_decide; cbn in * ); ws_simpl; do 2 f_equal; f_equal; try done;
    symmetry; apply delete_id; by apply eq_None_not_Some.
Qed.

(** ** Disconnecting *)

Lemma without_unregistered cr user_id s :
  WS.active_connections s !! user_id = None → without cr user_id s = s.
Proof. intros H. unfold without. by rewrite H. Qed.

Lemma get_connection_info_without cr user_id u s :
  Registry.get_connection_info u (without cr user_id s) =
  if decide (u = user_id) then None else Registry.get_connection_info u s.
Proof.
  unfold without, Registry.get_connection_info.
  destruct (WS.active_connections s !! user_id) as [w|] eqn:Hw; cbn.
  - case_decide as Hu.
    + subst u. by rewrite lookup_delete_eq.
    + by rewrite !lookup_delete_ne.
  - case_decide as Hu; [|done]. subst u. by rewrite Hw.
Qed.

(** X17.  [disconnect(user_id)], called with the lock free, returns.  For
    an identity with no connection it changes nothing at all.  For a
    registered one it awaits [close()] on the registered socket, removes
    the entries of the identity from the three dictionaries and releases
    the lock, also when [close()] raises; afterwards
    [get_connection_info] answers [None] for the identity, and what it
    answers for every other identity is unchanged. *)
Theorem disconnect_removes_every_trace
    (close_raises : WS.WebSocket → option string) user_id (s : WS.state) :
  WS._lock s = None →
  ∃ s',
    (∃ fuel, WS.run_alone close_raises fuel
               (WS.resume (WS.disconnect user_id) s) = Some ((), s')) ∧
    (WS.active_connections s !! user_id = None → s' = s) ∧
    (∀ websocket, WS.active_connections s !! user_id = Some websocket →
       WS.active_connections s' = delete user_id (WS.active_connections s) ∧
       WS.subscriptions s' = delete user_id (WS.subscriptions s) ∧
       WS.connection_metadata s' = delete user_id (WS.connection_metadata s) ∧
       WS.closed s' = websocket :: WS.closed s ∧
       WS._lock s' = None) ∧
    Registry.get_connection_info user_id s' = None ∧
    ∀ u, u ≠ user_id →
         Registry.get_connection_info u s' = Registry.get_connection_info u s.
Proof.
  intros Hlock. exists (without close_raises user_id s).
  split; [|split; [|split; [|split]]].
  - pose proof (finish_run_alone close_raises (WS.disconnect user_id) s) as H.
    by rewrite finish_disconnect in H.
  - apply without_unregistered.
  - intros w Hw. unfold without. rewrite Hw. by cbn.
  - by rewrite get_connection_info_without, decide_True.
  - intros u Hu. by rewrite get_connection_info_without, decide_False.
Qed.

Lemma disconnect_removes_every_trace_witness :
  ∃ s',
    (∃ fuel, WS.run_alone (λ _, Some "broken pipe") fuel
               (WS.resume (WS.disconnect "u1") u1_connected) = Some ((), s')) ∧
    Registry.get_connection_info "u1" s' = None.
Proof.
  destruct (disconnect_removes_every_trace (λ _, Some "broken pipe") "u1"
              u1_connected) as (s' & Hrun & _ & _ & Hinfo & _).
  - reflexivity.
  - exists s'. split; [exact Hrun|exact Hinfo].
Defined.

(** ** Subscriptions *)

Lemma resume_add_subscription user_id subscription_type s :
  WS.resume (Registry.add_subscription user_id subscription_type) s =
  WS.Finished ()
    (WS.add_log INFO ("User " +:+ user_id +:+ " subscribed to "
                      +:+ subscription_type)
       (WS.set_subscriptions
          (<[user_id:=default ∅ (WS.subscriptions s !! user_id)
                      ∪ {[subscription_type]}]> (WS.subscriptions s)) s)).
Proof.
  unfold Registry.add_subscription. cbn.
  destruct s as [ac su me lk cl lg]. cbn.
  case_decide as Hsome; ws_simpl; do 2 f_equal.
  - destruct Hsome as [x Hx]. rewrite Hx. cbn.
    apply map_eq. intros u. destruct (decide (u = user_id)) as [->|Hu].
    + by rewrite lookup_alter_eq, lookup_insert_eq, Hx.
    + by rewrite lookup_alter_ne, lookup_insert_ne.
  - apply eq_None_not_Some in Hsome. rewrite Hsome. cbn.
    apply map_eq. intros u. destruct (decide (u = user_id)) as [->|Hu].
    + by rewrite lookup_alter_eq, !lookup_insert_eq.
    + by rewrite lookup_alter_ne, !lookup_insert_ne.
Qed.

Lemma resume_remove_subscription user_id subscription_type s :
  WS.resume (Registry.remove_subscription user_id subscription_type) s =
  WS.Finished ()
    match WS.subscriptions s !! user_id with
    | Some subs =>
        WS.add_log INFO ("User " +:+ user_id +:+ " unsubscribed from "
                         +:+ subscription_type)
          (WS.set_subscriptions
             (<[user_id:=subs ∖ {[subscription_type]}]> (WS.subscriptions s)) s)
    | None => s
    end.
Proof.
  unfold Registry.remove_subscription. cbn.
  destruct s as [ac su me lk cl lg]. cbn.
  case_decide as Hsome.
  - destruct Hsome as [x Hx]. rewrite Hx. cbn. ws_simpl. do 2 f_equal.
    apply map_eq. intros u. destruct (decide (u = user_id)) as [->|Hu].
    + by rewrite lookup_alter_eq, lookup_insert_eq, Hx.
    + by rewrite lookup_alter_ne, lookup_insert_ne.
  - apply eq_None_not_Some in Hsome. by rewrite Hsome.
Qed.

(** X18.  [add_subscription], [remove_subscription] and
    [get_user_subscriptions] never wait, whoever holds the lock, and touch
    the subscriptions of one identity only.  After [add_subscription] the
    identity has its former subscriptions and the new one, also when it
    has no connection (an entry is created for it); after
    [remove_subscription] it has its former subscriptions but that one,
    and for an identity without an entry nothing changes, not even the
    log. *)
Theorem subscriptions_are_a_set_per_identity user_id subscription_type
    (s : WS.state) :
  let before := default ∅ (WS.subscriptions s !! user_id) in
  (∃ s', WS.resume (Registry.add_subscription user_id subscription_type) s =
           WS.Finished () s' ∧
         WS.resume (Registry.get_user_subscriptions user_id) s' =
           WS.Finished (before ∪ {[subscription_type]}) s' ∧
         WS.active_connections s' = WS.active_connections s ∧
         WS._lock s' = WS._lock s ∧
         ∀ u, u ≠ user_id → WS.subscriptions s' !! u = WS.subscriptions s !! u) ∧
  (∃ s', WS.resume (Registry.remove_subscription user_id subscription_type) s =
           WS.Finished () s' ∧
         WS.resume (Registry.get_user_subscriptions user_id) s' =
           WS.Finished (before ∖ {[subscription_type]}) s' ∧
         (WS.subscriptions s !! user_id = None → s' = s) ∧
         WS.active_connections s' = WS.active_connections s ∧
         WS._lock s' = WS._lock s ∧
         ∀ u, u ≠ user_id → WS.subscriptions s' !! u = WS.subscriptions s !! u).
Proof.
  intros before. split.
  - eexists. split; [apply resume_add_subscription|].
    unfold Registry.get_user_subscriptions. cbn.
    rewrite lookup_insert_eq. cbn. repeat split; try done.
    intros u Hu. by rewrite lookup_insert_ne.
  - eexists. split; [apply resume_remove_subscription|].
    unfold Registry.get_user_subscriptions, before.
    destruct (WS.subscriptions s !! user_id) as [subs|] eqn:Hs; cbn.
    + rewrite lookup_insert_eq. cbn. repeat split; try done.
      intros u Hu. by rewrite lookup_insert_ne.
    + rewrite Hs. cbn. repeat split; try done.
      f_equal. set_solver.
Qed.

(** ** Connecting *)

Lemma resume_connect_at_unregistered user_id websocket now later s :
  WS._lock s = None →
  WS.active_connections s !! user_id = None →
  WS.resume (WS.connect_at user_id websocket now later) s =
  WS.Finished ()
    (WS.mk_state (<[user_id:=websocket]> (WS.active_connections s))
       (<[user_id:=∅]> (WS.subscriptions s))
       (<[user_id:=WS.mk_metadata now later 0]> (WS.connection_metadata s))
       None (WS.closed s)
       (mk_log INFO ("WebSocket connected for user " +:+ user_id
                     +:+ ". Active connections: "
                     +:+ pretty (size (<[user_id:=websocket]>
                                         (WS.active_connections s))))
        :: WS.logger s)).
Proof.
  intros Hlock Hnone. unfold WS.connect_at, WS.with_lock.
  cbn. rewrite Hlock. cbn. rewrite Hnone.
  rewrite decide_False by (by intros [? ?]). done.
Qed.

Lemma resume_connect_unregistered user_id websocket now s :
  WS._lock s = None →
  WS.active_connections s !! user_id = None →
  WS.resume (WS.connect user_id websocket now) s =
  WS.Finished ()
    (WS.mk_state (<[user_id:=websocket]> (WS.active_connections s))
       (<[user_id:=∅]> (WS.subscriptions s))
       (<[user_id:=WS.mk_metadata now now 0]> (WS.connection_metadata s))
       None (WS.closed s)
       (mk_log INFO ("WebSocket connected for user " +:+ user_id
                     +:+ ". Active connections: "
                     +:+ pretty (size (<[user_id:=websocket]>
                                         (WS.active_connections s))))
        :: WS.logger s)).
Proof. apply resume_connect_at_unregistered. Qed.



(** ** Sending to one identity *)

Section delivery.
Variable env : Delivery.environment.

Lemma registry_get w :
  Delivery.registry env WS.get w = Some (Delivery.manager w, w).
Proof. by destruct w. Qed.

Lemma registry_modify f w :
  Delivery.registry env (WS.modify f) w =
  Some ((), Delivery.mk_world (f (Delivery.manager w)) (Delivery.sent w)).
Proof. done. Qed.

Lemma registry_log l msg w :
  Delivery.registry env (WS.log l msg) w =
  Some ((), Delivery.mk_world (WS.add_log l msg (Delivery.manager w))
              (Delivery.sent w)).
Proof. done. Qed.

Lemma registry_disconnect user_id w :
  WS._lock (Delivery.manager w) = None →
  Delivery.registry env (WS.disconnect user_id) w =
  Some ((), Delivery.mk_world
              (without (Delivery.close_raises env) user_id (Delivery.manager w))
              (Delivery.sent w)).
Proof. intros H. unfold Delivery.registry. by rewrite finish_disconnect. Qed.

Lemma registry_locked {A : Type} (body : WS.coro A) w h :
  WS._lock (Delivery.manager w) = Some h →
  Delivery.registry env (WS.with_lock body) w = None.
Proof. intros H. unfold Delivery.registry. by rewrite (finish_locked _ _ _ h). Qed.

Lemma registry_disconnect_locked user_id w h :
  WS._lock (Delivery.manager w) = Some h →
  Delivery.registry env (WS.disconnect user_id) w = None.
Proof. apply registry_locked. Qed.

Lemma send_personal_message_at_eq user_id message now later w :
  Delivery.send_personal_message_at env user_id message now later w =
  match WS.active_connections (Delivery.manager w) !! user_id with
  | None =>
      Some (false,
            Delivery.mk_world
              (WS.add_log WARNING ("Cannot send message to user " +:+ user_id
                                   +:+ ": not connected") (Delivery.manager w))
              (Delivery.sent w))
  | Some websocket =>
      match Delivery.send_raises env websocket with
      | None =>
          Some (true,
                Delivery.mk_world
                  (Delivery.update_metadata user_id later (Delivery.manager w))
                  ((websocket, <["timestamp":=Delivery.Str now]> message)
                   :: Delivery.sent w))
      | Some e =>
          match WS._lock (Delivery.manager w) with
          | None =>
              Some (false,
                    Delivery.mk_world
                      (without (Delivery.close_raises env) user_id
                         (WS.add_log ERROR ("Error sending message to user "
                                            +:+ user_id +:+ ": " +:+ e)
                            (Delivery.manager w)))
                      (Delivery.sent w))
          | Some _ => None
          end
      end
  end.
Proof.
  unfold Delivery.send_personal_message_at.
  unfold mbind at 1, Delivery.D_bind at 1. rewrite registry_get.
  destruct (WS.active_connections (Delivery.manager w) !! user_id) as [ws|];
    [|done].
  unfold mbind at 1, Delivery.D_bind at 1, Delivery.send_text.
  destruct (Delivery.send_raises env ws) as [e|]; [|done].
  unfold mbind at 1, Delivery.D_bind at 1. rewrite registry_log.
  unfold mbind at 1, Delivery.D_bind at 1.
  destruct (WS._lock (Delivery.manager w)) as [h|] eqn:Hlock.
  - by rewrite (registry_disconnect_locked _ _ h).
  - by rewrite registry_disconnect.
Qed.

Lemma send_personal_message_eq user_id message now w :
  Delivery.send_personal_message env user_id message now w =
  match WS.active_connections (Delivery.manager w) !! user_id with
  | None =>
      Some (false,
            Delivery.mk_world
              (WS.add_log WARNING ("Cannot send message to user " +:+ user_id
                                   +:+ ": not connected") (Delivery.manager w))
              (Delivery.sent w))
  | Some websocket =>
      match Delivery.send_raises env websocket with
      | None =>
          Some (true,
                Delivery.mk_world
                  (Delivery.update_metadata user_id now (Delivery.manager w))
                  ((websocket, <["timestamp":=Delivery.Str now]> message)
                   :: Delivery.sent w))
      | Some e =>
          match WS._lock (Delivery.manager w) with
          | None =>
              Some (false,
                    Delivery.mk_world
                      (without (Delivery.close_raises env) user_id
                         (WS.add_log ERROR ("Error sending message to user "
                                            +:+ user_id +:+ ": " +:+ e)
                            (Delivery.manager w)))
                      (Delivery.sent w))
          | Some _ => None
          end
      end
  end.
Proof. apply send_personal_message_at_eq. Qed.

End delivery.

Lemma update_metadata_alter user_id now s :
  Delivery.update_metadata user_id now s =
  WS.set_connection_metadata
    (alter (one_more_message now) user_id (WS.connection_metadata s)) s.
Proof.
  unfold Delivery.update_metadata.
  destruct (WS.connection_metadata s !! user_id) as [m|] eqn:Hm.
  - f_equal. apply map_eq. intros u. destruct (decide (u = user_id)) as [->|Hu].
    + by rewrite lookup_alter_eq, lookup_insert_eq, Hm.
    + by rewrite lookup_alter_ne, lookup_insert_ne.
  - unfold WS.set_connection_metadata.
    rewrite alter_id' by done. by destruct s.
Qed.



(** ** The task status request of a client *)

(** X25.  [handle_task_status_request] never answers with a task: the
    [TaskManager] it creates for the request is not initialised, so
    [get_task_status] raises, and a client whose socket works receives,
    whatever the task identifier and whatever the server holds, one
    message of type ["error"] with the text "Task Manager not
    initialized". *)
Theorem task_status_request_is_answered_with_an_error env user_id task_id
    now w websocket :
  WS.active_connections (Delivery.manager w) !! user_id = Some websocket →
  Delivery.send_raises env websocket = None →
  ∃ w',
    WebSocketRoutes.handle_task_status_request env user_id task_id now w =
      Some ((), w') ∧
    Delivery.sent w' =
      (websocket,
       <["timestamp":=Delivery.Str now]>
         (<["message":=Delivery.Str
              "Error retrieving task status: Task Manager not initialized"]>
            {["type" := Delivery.Str "error"]}))
      :: Delivery.sent w ∧
    WS.active_connections (Delivery.manager w') =
      WS.active_connections (Delivery.manager w).
Proof.
  intros Hws Hok. unfold WebSocketRoutes.handle_task_status_request.
  rewrite get_task_status_uninitialized by done.
  unfold mbind, Delivery.D_bind. rewrite registry_log.
  rewrite send_personal_message_eq. cbn [Delivery.manager WS.add_log
    WS.active_connections]. rewrite Hws, Hok.
  eexists. split; [done|]. cbn. rewrite update_metadata_alter. by cbn.
Qed.

Lemma task_status_request_is_answered_with_an_error_witness :
  ∃ w',
    WebSocketRoutes.handle_task_status_request
      (Delivery.mk_environment (λ _, None) (λ _, None) map_to_list map_to_list)
      "u1" "t1" "09:30" (Delivery.mk_world u1_connected []) = Some ((), w') ∧
    Delivery.sent w' =
      [(1%nat,
        <["timestamp":=Delivery.Str "09:30"]>
          (<["message":=Delivery.Str
               "Error retrieving task status: Task Manager not initialized"]>
             {["type" := Delivery.Str "error"]}))].
Proof.
  destruct (task_status_request_is_answered_with_an_error
              (Delivery.mk_environment (λ _, None) (λ _, None)
                 map_to_list map_to_list)
              "u1" "t1" "09:30" (Delivery.mk_world u1_connected []) 1%nat)
    as (w' & Hrun & Hsent & _).
  - reflexivity.
  - reflexivity.
  - exists w'. split; [exact Hrun|exact Hsent].
Defined.

(** ** The manager of [main.py] *)

Lemma send_task_update_not_connected env u w :
  WS.active_connections (Delivery.manager w) !! to_user u = None →
  Delivery.send_task_update env (to_user u) (about_task u) (new_status u)
    (with_result u) (with_error u) (sent_at u) w =
  Some ((), Delivery.mk_world
              (WS.add_log WARNING ("Cannot send message to user " +:+ to_user u
                                   +:+ ": not connected") (Delivery.manager w))
              (Delivery.sent w)).
Proof.
  intros Hnone. unfold Delivery.send_task_update.
  unfold mbind, Delivery.D_bind. rewrite send_personal_message_eq.
  by rewrite Hnone.
Qed.

Lemma send_task_updates_nobody_connected env updates w :
  WS.active_connections (Delivery.manager w) = ∅ →
  ∃ w', send_task_updates env updates w = Some ((), w') ∧
        Delivery.sent w' = Delivery.sent w ∧
        WS.active_connections (Delivery.manager w') = ∅ ∧
        WS.logger (Delivery.manager w') =
          reverse ((λ u, mk_log WARNING ("Cannot send message to user "
                                         +:+ to_user u +:+ ": not connected"))
                   <$> updates) ++ WS.logger (Delivery.manager w).
Proof.
  revert w. induction updates as [|u updates IH]; intros w Hempty.
  - exists w. by cbn.
  - cbn [send_task_updates]. unfold mbind, Delivery.D_bind.
    rewrite send_task_update_not_connected
      by (by rewrite Hempty, lookup_empty).
    destruct (IH (Delivery.mk_world
              (WS.add_log WARNING ("Cannot send message to user " +:+ to_user u
                                   +:+ ": not connected") (Delivery.manager w))
              (Delivery.sent w))) as (w' & Hrun & Hsent & Hact & Hlog);
      [done|].
    exists w'. split; [exact Hrun|]. split; [done|]. split; [done|].
    rewrite Hlog, fmap_cons, reverse_cons, <- app_assoc. done.
Qed.

(** X26.  [main.py] creates a [WebSocketManager] of its own and only ever
    calls [send_task_update] on it; the sockets are registered on the
    instance of [api/websocket_routes.py].  Whatever task updates the
    background tasks send through the instance of [main.py], none reaches a
    socket: each call logs the warning "not connected" and returns, and the
    instance stays empty. *)
Theorem task_updates_of_main_reach_nobody env updates :
  ∃ w',
    send_task_updates env updates (Delivery.mk_world WS.init []) = Some ((), w') ∧
    Delivery.sent w' = [] ∧
    WS.active_connections (Delivery.manager w') = ∅ ∧
    WS.logger (Delivery.manager w') =
      reverse ((λ u, mk_log WARNING ("Cannot send message to user "
                                     +:+ to_user u +:+ ": not connected"))
               <$> updates).
Proof.
  destruct (send_task_updates_nobody_connected env updates
              (Delivery.mk_world WS.init [])) as (w' & Hrun & Hsent & Hact & Hlog);
    [done|].
  exists w'. cbn in Hlog. rewrite app_nil_r in Hlog. done.
Qed.

(** ** Sending to several identities *)

Lemma lock_without cr user_id s :
  WS._lock (without cr user_id s) = WS._lock s.
Proof. unfold without. by destruct (WS.active_connections s !! user_id). Qed.

Lemma lock_without_all cr users s :
  WS._lock (without_all cr users s) = WS._lock s.
Proof.
  revert s. induction users as [|u users IH]; intros s; [done|].
  unfold without_all in *. cbn [foldl]. by rewrite IH, lock_without.
Qed.

Lemma disconnect_each_eq env users w :
  WS._lock (Delivery.manager w) = None →
  Delivery.disconnect_each env users w =
  Some ((), Delivery.mk_world
              (without_all (Delivery.close_raises env) users (Delivery.manager w))
              (Delivery.sent w)).
Proof.
  revert w. induction users as [|u users IH]; intros w Hlock.
  - by destruct w.
  - cbn [Delivery.disconnect_each]. unfold mbind, Delivery.D_bind.
    rewrite registry_disconnect by done.
    rewrite IH by (cbn; by rewrite lock_without). done.
Qed.

(** What is left of each dictionary after the disconnections. *)
Lemma lookup_without cr user_id s u :
  (WS.active_connections (without cr user_id s) !! u =
     if decide (u = user_id) then None else WS.active_connections s !! u) ∧
  (WS.subscriptions (without cr user_id s) !! u =
     if decide (u = user_id ∧ is_Some (WS.active_connections s !! u))
     then None else WS.subscriptions s !! u) ∧
  (WS.connection_metadata (without cr user_id s) !! u =
     if decide (u = user_id ∧ is_Some (WS.active_connections s !! u))
     then None else WS.connection_metadata s !! u).
Proof.
  unfold without.
  destruct (WS.active_connections s !! user_id) as [w|] eqn:Hw; cbn.
  - destruct (decide (u = user_id)) as [->|Hu].
    + rewrite !lookup_delete_eq, Hw.
      rewrite !decide_True by (split; [done|by eexists]). done.
    + rewrite !lookup_delete_ne by done.
      rewrite !decide_False by (by intros [? ?]). done.
  - destruct (decide (u = user_id)) as [->|Hu].
    + rewrite Hw. rewrite !decide_False by (by intros [? [? ?]]). done.
    + rewrite !decide_False by (by intros [? ?]). done.
Qed.

Lemma lookup_without_all cr users s u :
  (WS.active_connections (without_all cr users s) !! u =
     if decide (u ∈ users) then None else WS.active_connections s !! u) ∧
  (WS.subscriptions (without_all cr users s) !! u =
     if decide (u ∈ users ∧ is_Some (WS.active_connections s !! u))
     then None else WS.subscriptions s !! u) ∧
  (WS.connection_metadata (without_all cr users s) !! u =
     if decide (u ∈ users ∧ is_Some (WS.active_connections s !! u))
     then None else WS.connection_metadata s !! u).
Proof.
  revert s. induction users as [|x users IH]; intros s.
  - cbn. rewrite decide_False by set_solver.
    rewrite !decide_False by (intros [? ?]; set_solver). done.
  - unfold without_all in *. cbn [foldl].
    destruct (IH (without cr x s)) as (Ha & Hs & Hm).
    destruct (lookup_without cr x s u) as (Ha1 & Hs1 & Hm1).
    rewrite Ha, Hs, Hm, Ha1, Hs1, Hm1. clear Ha Hs Hm Ha1 Hs1 Hm1 IH.
    destruct (decide (u = x)) as [->|Hux].
    + rewrite (decide_True (P:=x ∈ x :: users)) by set_solver.
      destruct (WS.active_connections s !! x) as [w|] eqn:Hw.
      * rewrite !(decide_True (P:=x = x ∧ _)) by (split; [done|by eexists]).
        rewrite !(decide_True (P:=x ∈ x :: users ∧ _))
          by (split; [set_solver|by eexists]).
        repeat case_decide; done.
      * rewrite !(decide_False (P:=x = x ∧ _)) by (by intros [? [? ?]]).
        rewrite !(decide_False (P:=x ∈ x :: users ∧ _))
          by (by intros [? [? ?]]).
        repeat case_decide; try done; naive_solver.
    + rewrite !(decide_False (P:=u = x ∧ _)) by (by intros [? ?]).
      destruct (decide (u ∈ users)) as [Hin|Hnin].
      * rewrite (decide_True (P:=u ∈ x :: users)) by set_solver.
        destruct (WS.active_connections s !! u) as [w|] eqn:Hw.
        -- rewrite !(decide_True (P:=u ∈ users ∧ _))
             by (split; [done|by eexists]).
           rewrite !(decide_True (P:=u ∈ x :: users ∧ _))
             by (split; [set_solver|by eexists]). done.
        -- rewrite !(decide_False (P:=u ∈ users ∧ _)) by (by intros [? [? ?]]).
           rewrite !(decide_False (P:=u ∈ x :: users ∧ _))
             by (by intros [? [? ?]]). done.
      * rewrite (decide_False (P:=u ∈ x :: users)) by set_solver.
        rewrite !(decide_False (P:=u ∈ users ∧ _)) by (by intros [? ?]).
        rewrite !(decide_False (P:=u ∈ x :: users ∧ _))
          by (intros [? ?]; set_solver). done.
Qed.

Lemma lookup_foldl_alter {A : Type} (f : A → A) (users : list string)
    (m : gmap string A) u :
  NoDup users →
  foldl (λ m user_id, alter f user_id m) m users !! u =
  if decide (u ∈ users) then f <$> m !! u else m !! u.
Proof.
  intros Hnd. revert m. induction Hnd as [|x users Hx Hnd IH]; intros m.
  - cbn. by rewrite decide_False by set_solver.
  - cbn [foldl]. rewrite IH. destruct (decide (u = x)) as [->|Hux].
    + rewrite decide_False by done.
      rewrite decide_True by set_solver. by rewrite lookup_alter_eq.
    + rewrite lookup_alter_ne by done.
      destruct (decide (u ∈ users)).
      * by rewrite decide_True by set_solver.
      * by rewrite decide_False by set_solver.
Qed.

Lemma same_registry_refl s : same_registry s s.
Proof. by repeat split. Qed.

Lemma same_registry_trans s1 s2 s3 :
  same_registry s1 s2 → same_registry s2 s3 → same_registry s1 s3.
Proof. unfold same_registry. intros (?&?&?&?) (?&?&?&?). repeat split; congruence. Qed.

Lemma same_registry_update_metadata user_id now s :
  same_registry s (Delivery.update_metadata user_id now s).
Proof. rewrite update_metadata_alter. by repeat split. Qed.

Lemma same_registry_add_log l msg s : same_registry s (WS.add_log l msg s).
Proof. by repeat split. Qed.

Lemma accepted_cons_ok env u ws attempts :
  Delivery.send_raises env ws = None →
  accepted env ((u, ws) :: attempts) = (u, ws) :: accepted env attempts ∧
  refused env ((u, ws) :: attempts) = refused env attempts.
Proof.
  intros H. unfold accepted, refused. rewrite !filter_cons. cbn.
  rewrite decide_True by done.
  rewrite decide_False by (rewrite H; by intros [? ?]). done.
Qed.

Lemma accepted_cons_raises env u ws attempts e :
  Delivery.send_raises env ws = Some e →
  accepted env ((u, ws) :: attempts) = accepted env attempts ∧
  refused env ((u, ws) :: attempts) = (u, ws) :: refused env attempts.
Proof.
  intros H. unfold accepted, refused. rewrite !filter_cons. cbn.
  rewrite decide_False by (by rewrite H).
  rewrite decide_True by (rewrite H; by eexists). done.
Qed.

(** The first loop of [broadcast_message]. *)
Lemma broadcast_loop_spec env message exclude_users now items disconnected_users w :
  let attempts := filter (λ kv, kv.1 ∉ exclude_users) items in
  ∃ s',
    Delivery.broadcast_loop env message exclude_users now items
      disconnected_users w =
    Some (disconnected_users ++ (refused env attempts).*1,
          Delivery.mk_world s'
            (reverse ((λ kv, (kv.2, message)) <$> accepted env attempts)
             ++ Delivery.sent w)) ∧
    same_registry (Delivery.manager w) s' ∧
    WS.connection_metadata s' =
      foldl (λ m user_id, alter (one_more_message now) user_id m)
        (WS.connection_metadata (Delivery.manager w)) (accepted env attempts).*1.
Proof.
  revert disconnected_users w.
  induction items as [|[u ws] items IH]; intros disc w attempts.
  - exists (Delivery.manager w). cbn. rewrite app_nil_r.
    split; [by destruct w|]. split; [apply same_registry_refl|done].
  - cbn [Delivery.broadcast_loop]. unfold attempts. rewrite filter_cons. cbn [fst].
    case_bool_decide as Hex.
    + rewrite decide_False by (by intros ?). apply IH.
    + rewrite decide_True by done.
      unfold mbind at 1, Delivery.D_bind at 1, Delivery.send_text.
      destruct (Delivery.send_raises env ws) as [e|] eqn:Hsend.
      * destruct (accepted_cons_raises env u ws
                    (filter (λ kv, kv.1 ∉ exclude_users) items) e Hsend)
          as [-> ->].
        unfold mbind at 1, Delivery.D_bind at 1. rewrite registry_log.
        destruct (IH (disc ++ [u]) (Delivery.mk_world
                   (WS.add_log ERROR ("Error broadcasting to user " +:+ u
                                      +:+ ": " +:+ e) (Delivery.manager w))
                   (Delivery.sent w))) as (s' & Hrun & Hsame & Hmeta).
        exists s'. rewrite Hrun. cbn [Delivery.sent Delivery.manager] in *.
        rewrite fmap_cons, <- app_assoc. cbn [fst app].
        split; [done|]. split; [|done].
        eapply same_registry_trans; [apply same_registry_add_log|done].
      * destruct (accepted_cons_ok env u ws
                    (filter (λ kv, kv.1 ∉ exclude_users) items) Hsend)
          as [-> ->].
        unfold mbind at 1, Delivery.D_bind at 1. rewrite registry_modify.
        destruct (IH disc (Delivery.mk_world
                   (Delivery.update_metadata u now (Delivery.manager w))
                   ((ws, message) :: Delivery.sent w)))
          as (s' & Hrun & Hsame & Hmeta).
        exists s'. cbn [Delivery.sent Delivery.manager] in *. rewrite Hrun.
        rewrite fmap_cons, reverse_cons, <- app_assoc. cbn [fst snd app foldl].
        split; [done|]. split.
        -- eapply same_registry_trans;
             [apply same_registry_update_metadata|done].
        -- rewrite Hmeta, update_metadata_alter. done.
Qed.

Section iteration.
Context {V : Type} (items : list (string * V)) (m : gmap string V).
Hypothesis Hitems : items ≡ₚ map_to_list m.

Lemma elem_of_items u v : (u, v) ∈ items ↔ m !! u = Some v.
Proof. rewrite Hitems. apply elem_of_map_to_list. Qed.

Lemma NoDup_items : NoDup items.*1.
Proof. rewrite Hitems. apply NoDup_fst_map_to_list. Qed.

Lemma NoDup_filter_items (P : string * V → Prop) `{!∀ x, Decision (P x)} :
  NoDup (filter P items).*1.
Proof.
  eapply sublist_NoDup; [apply NoDup_items|].
  apply fmap_sublist, sublist_filter.
Qed.

Lemma elem_of_filter_items (P : string * V → Prop) `{!∀ x, Decision (P x)} u :
  u ∈ (filter P items).*1 ↔ ∃ v, m !! u = Some v ∧ P (u, v).
Proof.
  rewrite list_elem_of_fmap. split.
  - intros ([u' v] & -> & Hin). apply list_elem_of_filter in Hin as [HP Hin].
    exists v. split; [by apply elem_of_items|done].
  - intros (v & Hv & HP). exists (u, v). split; [done|].
    apply list_elem_of_filter. split; [done|by apply elem_of_items].
Qed.
End iteration.

(** X21.  [broadcast_message], called with the lock free and nothing else
    running, returns.  Every connected identity that is not excluded and
    whose socket accepts the text receives the message, with ["timestamp"]
    set, exactly once, and nobody else receives anything.  An identity
    whose socket raised is disconnected afterwards: its connection,
    subscriptions and metadata are gone.  Every other connection is kept
    with its subscriptions; it counts one more message unless it was
    excluded. *)
Theorem broadcast_reaches_every_connection env message exclude_users now w :
  let exclude := default [] exclude_users in
  let connections := WS.active_connections (Delivery.manager w) in
  WS._lock (Delivery.manager w) = None →
  Delivery.connection_items env connections ≡ₚ map_to_list connections →
  ∃ w' receivers,
    Delivery.broadcast_message env message exclude_users now w = Some ((), w') ∧
    WS._lock (Delivery.manager w') = None ∧
    Delivery.sent w' =
      ((λ kv, (kv.2, <["timestamp":=Delivery.Str now]> message)) <$> receivers)
      ++ Delivery.sent w ∧
    NoDup receivers.*1 ∧
    (∀ u ws, (u, ws) ∈ receivers ↔
             connections !! u = Some ws ∧ (u ∉ exclude) ∧
             Delivery.send_raises env ws = None) ∧
    (∀ u ws, connections !! u = Some ws →
       if decide ((u ∉ exclude) ∧ is_Some (Delivery.send_raises env ws)) then
         WS.active_connections (Delivery.manager w') !! u = None ∧
         WS.subscriptions (Delivery.manager w') !! u = None ∧
         WS.connection_metadata (Delivery.manager w') !! u = None
       else
         WS.active_connections (Delivery.manager w') !! u = Some ws ∧
         WS.subscriptions (Delivery.manager w') !! u =
           WS.subscriptions (Delivery.manager w) !! u ∧
         WS.connection_metadata (Delivery.manager w') !! u =
           (if decide (u ∈ exclude) then id else one_more_message now)
             <$> WS.connection_metadata (Delivery.manager w) !! u) ∧
    (∀ u, connections !! u = None →
          WS.active_connections (Delivery.manager w') !! u = None ∧
          WS.subscriptions (Delivery.manager w') !! u =
            WS.subscriptions (Delivery.manager w) !! u).
Proof.
  intros exclude connections Hlock Hitems.
  unfold Delivery.broadcast_message. fold exclude.
  unfold mbind at 1, Delivery.D_bind at 1. rewrite registry_get.
  fold connections.
  set (items := Delivery.connection_items env connections) in *.
  set (msg := <["timestamp":=Delivery.Str now]> message).
  destruct (broadcast_loop_spec env msg exclude now items [] w)
    as (s1 & Hloop & (Ha1 & Hs1 & Hl1 & Hc1) & Hm1).
  set (attempts := filter (λ kv, kv.1 ∉ exclude) items) in *.
  unfold mbind at 1, Delivery.D_bind at 1. rewrite Hloop. clear Hloop.
  cbn [app].
  unfold mbind at 1, Delivery.D_bind at 1.
  rewrite disconnect_each_eq by (cbn; congruence).
  cbn [Delivery.manager Delivery.sent].
  unfold mbind at 1, Delivery.D_bind at 1. rewrite registry_get.
  rewrite registry_log. cbn [Delivery.manager Delivery.sent].
  set (failed := (refused env attempts).*1).
  assert (Hfailed : ∀ u, u ∈ failed ↔
            ∃ ws, connections !! u = Some ws ∧ (u ∉ exclude) ∧
                  is_Some (Delivery.send_raises env ws)).
  { intros u. unfold failed, refused, attempts. rewrite list_filter_filter.
    rewrite (elem_of_filter_items items connections Hitems). naive_solver. }
  assert (Hok : ∀ u, u ∈ (accepted env attempts).*1 ↔
            ∃ ws, connections !! u = Some ws ∧ (u ∉ exclude) ∧
                  Delivery.send_raises env ws = None).
  { intros u. unfold accepted, attempts. rewrite list_filter_filter.
    rewrite (elem_of_filter_items items connections Hitems). naive_solver. }
  assert (Hnd : NoDup (accepted env attempts).*1).
  { unfold accepted, attempts. rewrite list_filter_filter.
    apply (NoDup_filter_items items connections Hitems). }
  eexists _, (reverse (accepted env attempts)).
  split; [reflexivity|]. cbn [Delivery.manager Delivery.sent].
  split; [|split; [|split; [|split; [|split]]]].
  - cbn. rewrite lock_without_all. congruence.
  - by rewrite fmap_reverse.
  - by rewrite fmap_reverse, reverse_Permutation.
  - intros u ws. rewrite elem_of_reverse. unfold accepted, attempts.
    rewrite list_filter_filter, list_elem_of_filter.
    rewrite (elem_of_items items connections Hitems). cbn. naive_solver.
  - intros u ws Hu. cbn [WS.add_log WS.active_connections WS.subscriptions
      WS.connection_metadata].
    destruct (lookup_without_all (Delivery.close_raises env) failed s1 u)
      as (-> & -> & ->).
    rewrite Ha1, Hs1. fold connections. rewrite Hu.
    case_decide as Hbroken.
    + assert (u ∈ failed) by (apply Hfailed; by exists ws).
      rewrite decide_True by done.
      rewrite !decide_True by (split; [done|by eexists]). done.
    + assert (u ∉ failed).
      { intros (ws' & Hws' & ?)%Hfailed. rewrite Hu in Hws'.
        injection Hws' as <-. by apply Hbroken. }
      rewrite decide_False by done.
      rewrite !decide_False by (by intros [? ?]).
      split; [done|]. split; [done|].
      rewrite Hm1, lookup_foldl_alter by done.
      destruct (decide (u ∈ exclude)) as [Hex|Hex].
      * rewrite decide_False; [by rewrite option_fmap_id|].
        intros (ws' & _ & ? & _)%Hok. done.
      * rewrite decide_True; [done|]. apply Hok. exists ws.
        split; [done|]. split; [done|].
        destruct (Delivery.send_raises env ws) eqn:He; [|done].
        exfalso. apply Hbroken. split; [done|by eexists].
  - intros u Hu. cbn [WS.add_log WS.active_connections WS.subscriptions].
    destruct (lookup_without_all (Delivery.close_raises env) failed s1 u)
      as (-> & -> & _).
    rewrite Ha1, Hs1. fold connections. rewrite Hu.
    rewrite (decide_False (P:=_ ∧ _)) by (by intros [? [? ?]]).
    split; [by case_decide|done].
Qed.

Lemma broadcast_reaches_every_connection_witness :
  ∃ w' (receivers : list (string * WS.WebSocket)),
    Delivery.broadcast_message
      (Delivery.mk_environment (λ _, None) (λ _, None) map_to_list map_to_list)
      {["type" := Delivery.Str "system_alert"]} None "09:30"
      (Delivery.mk_world u1_connected []) = Some ((), w') ∧
    Delivery.sent w' =
      ((λ kv, (kv.2, <["timestamp":=Delivery.Str "09:30"]>
                       {["type" := Delivery.Str "system_alert"]}))
       <$> receivers) ++ [] ∧
    NoDup receivers.*1.
Proof.
  destruct (broadcast_reaches_every_connection
              (Delivery.mk_environment (λ _, None) (λ _, None)
                 map_to_list map_to_list)
              {["type" := Delivery.Str "system_alert"]} None "09:30"
              (Delivery.mk_world u1_connected []))
    as (w' & receivers & Hrun & _ & Hsent & Hnd & _).
  - reflexivity.
  - reflexivity.
  - exists w', receivers. split; [exact Hrun|]. split; [exact Hsent|exact Hnd].
Defined.

(** The first loop of [ping_all_connections]. *)
Lemma ping_loop_spec env ping_message items disconnected_users w :
  ∃ s',
    Delivery.ping_loop env ping_message items disconnected_users w =
    Some (disconnected_users ++ (refused env items).*1,
          Delivery.mk_world s'
            (reverse ((λ kv, (kv.2, ping_message)) <$> accepted env items)
             ++ Delivery.sent w)) ∧
    same_registry (Delivery.manager w) s' ∧
    WS.connection_metadata s' = WS.connection_metadata (Delivery.manager w).
Proof.
  revert disconnected_users w.
  induction items as [|[u ws] items IH]; intros disc w.
  - exists (Delivery.manager w). cbn. rewrite app_nil_r.
    split; [by destruct w|]. split; [apply same_registry_refl|done].
  - cbn [Delivery.ping_loop].
    unfold mbind at 1, Delivery.D_bind at 1, Delivery.send_text.
    destruct (Delivery.send_raises env ws) as [e|] eqn:Hsend.
    + destruct (accepted_cons_raises env u ws items e Hsend) as [-> ->].
      unfold mbind at 1, Delivery.D_bind at 1. rewrite registry_log.
      destruct (IH (disc ++ [u]) (Delivery.mk_world
                 (WS.add_log WARNING ("Ping failed for user " +:+ u
                                      +:+ ": " +:+ e) (Delivery.manager w))
                 (Delivery.sent w))) as (s' & Hrun & Hsame & Hmeta).
      exists s'. rewrite Hrun. cbn [Delivery.sent Delivery.manager] in *.
      rewrite fmap_cons, <- app_assoc. cbn [fst app].
      split; [done|]. split; [|done].
      eapply same_registry_trans; [apply same_registry_add_log|done].
    + destruct (accepted_cons_ok env u ws items Hsend) as [-> ->].
      destruct (IH disc (Delivery.mk_world (Delivery.manager w)
                 ((ws, ping_message) :: Delivery.sent w)))
        as (s' & Hrun & Hsame & Hmeta).
      exists s'. cbn [Delivery.sent Delivery.manager] in *. rewrite Hrun.
      rewrite fmap_cons, reverse_cons, <- app_assoc. cbn [fst snd app].
      done.
Qed.

(** X22.  [ping_all_connections], called with the lock free and nothing
    else running, sends one ["ping"] to every connection and disconnects
    exactly the identities whose socket raised; a connection that answered
    is kept as it was: a ping does not count as a message and does not
    change the last activity. *)
Theorem ping_removes_the_dead_connections env now w :
  let connections := WS.active_connections (Delivery.manager w) in
  WS._lock (Delivery.manager w) = None →
  Delivery.connection_items env connections ≡ₚ map_to_list connections →
  ∃ w' receivers,
    Delivery.ping_all_connections env now w = Some ((), w') ∧
    WS._lock (Delivery.manager w') = None ∧
    Delivery.sent w' =
      ((λ kv, (kv.2, <["timestamp":=Delivery.Str now]>
                       {["type" := Delivery.Str "ping"]})) <$> receivers)
      ++ Delivery.sent w ∧
    NoDup receivers.*1 ∧
    (∀ u ws, (u, ws) ∈ receivers ↔
             connections !! u = Some ws ∧ Delivery.send_raises env ws = None) ∧
    (∀ u ws, connections !! u = Some ws →
       if decide (is_Some (Delivery.send_raises env ws)) then
         WS.active_connections (Delivery.manager w') !! u = None ∧
         WS.subscriptions (Delivery.manager w') !! u = None ∧
         WS.connection_metadata (Delivery.manager w') !! u = None
       else
         WS.active_connections (Delivery.manager w') !! u = Some ws ∧
         WS.subscriptions (Delivery.manager w') !! u =
           WS.subscriptions (Delivery.manager w) !! u ∧
         WS.connection_metadata (Delivery.manager w') !! u =
           WS.connection_metadata (Delivery.manager w) !! u) ∧
    (∀ u, connections !! u = None →
          WS.active_connections (Delivery.manager w') !! u = None ∧
          WS.subscriptions (Delivery.manager w') !! u =
            WS.subscriptions (Delivery.manager w) !! u).
Proof.
  intros connections Hlock Hitems.
  unfold Delivery.ping_all_connections.
  unfold mbind at 1, Delivery.D_bind at 1. rewrite registry_get.
  fold connections.
  set (items := Delivery.connection_items env connections) in *.
  set (msg := <["timestamp":=Delivery.Str now]> _).
  destruct (ping_loop_spec env msg items [] w)
    as (s1 & Hloop & (Ha1 & Hs1 & Hl1 & Hc1) & Hm1).
  unfold mbind at 1, Delivery.D_bind at 1. rewrite Hloop. clear Hloop.
  cbn [app].
  unfold mbind at 1, Delivery.D_bind at 1.
  rewrite disconnect_each_eq by (cbn; congruence).
  cbn [Delivery.manager Delivery.sent].
  unfold mbind at 1, Delivery.D_bind at 1. rewrite registry_get.
  rewrite registry_log. cbn [Delivery.manager Delivery.sent].
  set (failed := (refused env items).*1).
  assert (Hfailed : ∀ u, u ∈ failed ↔
            ∃ ws, connections !! u = Some ws ∧
                  is_Some (Delivery.send_raises env ws)).
  { intros u. unfold failed, refused.
    by rewrite (elem_of_filter_items items connections Hitems). }
  eexists _, (reverse (accepted env items)).
  split; [reflexivity|]. cbn [Delivery.manager Delivery.sent].
  split; [|split; [|split; [|split; [|split]]]].
  - cbn. rewrite lock_without_all. congruence.
  - by rewrite fmap_reverse.
  - rewrite fmap_reverse, reverse_Permutation.
    apply (NoDup_filter_items items connections Hitems).
  - intros u ws. rewrite elem_of_reverse. unfold accepted.
    rewrite list_elem_of_filter.
    rewrite (elem_of_items items connections Hitems). cbn. naive_solver.
  - intros u ws Hu. cbn [WS.add_log WS.active_connections WS.subscriptions
      WS.connection_metadata].
    destruct (lookup_without_all (Delivery.close_raises env) failed s1 u)
      as (-> & -> & ->).
    rewrite Ha1, Hs1, Hm1. fold connections. rewrite Hu.
    case_decide as Hbroken.
    + assert (u ∈ failed) by (apply Hfailed; by exists ws).
      rewrite decide_True by done.
      rewrite !decide_True by (split; [done|by eexists]). done.
    + assert (u ∉ failed).
      { intros (ws' & Hws' & ?)%Hfailed. rewrite Hu in Hws'.
        injection Hws' as <-. by apply Hbroken. }
      rewrite decide_False by done.
      rewrite !decide_False by (by intros [? ?]). done.
  - intros u Hu. cbn [WS.add_log WS.active_connections WS.subscriptions].
    destruct (lookup_without_all (Delivery.close_raises env) failed s1 u)
      as (-> & -> & _).
    rewrite Ha1, Hs1. fold connections. rewrite Hu.
    rewrite (decide_False (P:=_ ∧ _)) by (by intros [? [? ?]]).
    split; [by case_decide|done].
Qed.

Lemma ping_removes_the_dead_connections_witness :
  ∃ w' (receivers : list (string * WS.WebSocket)),
    Delivery.ping_all_connections
      (Delivery.mk_environment (λ _, Some "broken pipe") (λ _, None)
         map_to_list map_to_list)
      "09:30" (Delivery.mk_world u1_connected []) = Some ((), w') ∧
    Delivery.sent w' =
      ((λ kv, (kv.2, <["timestamp":=Delivery.Str "09:30"]>
                       {["type" := Delivery.Str "ping"]})) <$> receivers)
      ++ [] ∧
    NoDup receivers.*1.
Proof.
  destruct (ping_removes_the_dead_connections
              (Delivery.mk_environment (λ _, Some "broken pipe") (λ _, None)
                 map_to_list map_to_list)
              "09:30" (Delivery.mk_world u1_connected []))
    as (w' & receivers & Hrun & _ & Hsent & Hnd & _).
  - reflexivity.
  - reflexivity.
  - exists w', receivers. split; [exact Hrun|]. split; [exact Hsent|exact Hnd].
Defined.

(** The first loop of [send_to_subscribers]. *)
Lemma subscribers_loop_spec env subscription_type message now items
    sent_count disconnected_users w :
  let attempts :=
    subscribed (WS.active_connections (Delivery.manager w)) subscription_type
      items in
  ∃ s',
    Delivery.subscribers_loop env subscription_type message now items
      sent_count disconnected_users w =
    Some ((sent_count + Z.of_nat (length (accepted env attempts)),
           disconnected_users ++ (refused env attempts).*1),
          Delivery.mk_world s'
            (reverse ((λ kv, (kv.2, message)) <$> accepted env attempts)
             ++ Delivery.sent w)) ∧
    same_registry (Delivery.manager w) s' ∧
    WS.connection_metadata s' =
      foldl (λ m user_id, alter (one_more_message now) user_id m)
        (WS.connection_metadata (Delivery.manager w)) (accepted env attempts).*1.
Proof.
  revert sent_count disconnected_users w.
  induction items as [|[u subs] items IH]; intros n disc w attempts.
  - exists (Delivery.manager w). cbn. rewrite app_nil_r, Z.add_0_r.
    split; [by destruct w|]. split; [apply same_registry_refl|done].
  - cbn [Delivery.subscribers_loop].
    unfold mbind at 1, Delivery.D_bind at 1. rewrite registry_get.
    unfold attempts, subscribed. cbn [omap list_omap fst snd].
    fold (subscribed (WS.active_connections (Delivery.manager w))
            subscription_type items).
    destruct (WS.active_connections (Delivery.manager w) !! u) as [ws|] eqn:Hu;
      cbn [fmap option_fmap option_map].
    2: { destruct (bool_decide (subscription_type ∈ subs)); apply IH. }
    case_bool_decide as Hsub; [|apply IH].
    unfold mbind at 1, Delivery.D_bind at 1, Delivery.send_text.
    destruct (Delivery.send_raises env ws) as [e|] eqn:Hsend.
    + destruct (accepted_cons_raises env u ws
                  (subscribed (WS.active_connections (Delivery.manager w))
                     subscription_type items) e Hsend) as [-> ->].
      unfold mbind at 1, Delivery.D_bind at 1. rewrite registry_log.
      destruct (IH n (disc ++ [u]) (Delivery.mk_world
                 (WS.add_log ERROR
                    ("Error sending subscription message to user " +:+ u
                     +:+ ": " +:+ e) (Delivery.manager w))
                 (Delivery.sent w))) as (s' & Hrun & Hsame & Hmeta).
      exists s'. rewrite Hrun. cbn [Delivery.sent Delivery.manager] in *.
      cbn [WS.add_log WS.active_connections].
      rewrite fmap_cons, <- app_assoc. cbn [fst app].
      split; [done|]. split; [|done].
      eapply same_registry_trans; [apply same_registry_add_log|done].
    + destruct (accepted_cons_ok env u ws
                  (subscribed (WS.active_connections (Delivery.manager w))
                     subscription_type items) Hsend) as [-> ->].
      unfold mbind at 1, Delivery.D_bind at 1. rewrite registry_modify.
      destruct (IH (n + 1) disc (Delivery.mk_world
                 (Delivery.update_metadata u now (Delivery.manager w))
                 ((ws, message) :: Delivery.sent w)))
        as (s' & Hrun & Hsame & Hmeta).
      exists s'. cbn [Delivery.sent Delivery.manager] in *.
      rewrite update_metadata_alter in Hrun, Hsame, Hmeta.
      cbn [WS.set_connection_metadata WS.active_connections
           WS.connection_metadata] in Hrun, Hmeta.
      rewrite update_metadata_alter. rewrite Hrun.
      rewrite fmap_cons, reverse_cons, <- app_assoc.
      cbn [fst snd app foldl length].
      split; [do 3 f_equal; lia|]. split; [|done].
      eapply same_registry_trans; [|done]. by repeat split.
Qed.

Lemma subscribed_sublist connections subscription_type items :
  (subscribed connections subscription_type items).*1 `sublist_of` items.*1.
Proof.
  induction items as [|[u subs] items IH]; [done|].
  unfold subscribed. cbn [omap list_omap fst snd].
  fold (subscribed connections subscription_type items).
  destruct (bool_decide (subscription_type ∈ subs));
    [destruct (connections !! u)|]; cbn;
    by (apply sublist_skip || apply sublist_cons).
Qed.

Lemma elem_of_subscribed connections subscription_type items subscriptions u ws :
  items ≡ₚ map_to_list subscriptions →
  (u, ws) ∈ subscribed connections subscription_type items ↔
  connections !! u = Some ws ∧
  subscription_type ∈ default ∅ (subscriptions !! u).
Proof.
  intros Hitems. unfold subscribed. rewrite list_elem_of_omap. split.
  - intros ([u' subs] & Hin & Hsome). cbn in Hsome.
    apply (elem_of_items items subscriptions Hitems) in Hin.
    case_bool_decide as Hsub; [|done].
    destruct (connections !! u') as [ws'|] eqn:Hws; [|done].
    cbn in Hsome. injection Hsome as <- <-. by rewrite Hin.
  - intros [Hws Hsub].
    destruct (subscriptions !! u) as [subs|] eqn:Hsubs; [|set_solver].
    exists (u, subs). split; [by apply (elem_of_items items subscriptions Hitems)|].
    cbn. rewrite bool_decide_eq_true_2 by done. by rewrite Hws.
Qed.

Lemma subscribers_receive_the_message_aux env subscription_type message now w :
  let connections := WS.active_connections (Delivery.manager w) in
  let subscriptions := WS.subscriptions (Delivery.manager w) in
  let subscriber u := subscription_type ∈ default ∅ (subscriptions !! u) in
  WS._lock (Delivery.manager w) = None →
  Delivery.subscription_items env subscriptions ≡ₚ map_to_list subscriptions →
  ∃ w' receivers,
    Delivery.send_to_subscribers env subscription_type message now w =
      Some ((), w') ∧
    WS._lock (Delivery.manager w') = None ∧
    Delivery.sent w' =
      ((λ kv, (kv.2, <["subscription_type":=Delivery.Str subscription_type]>
                       (<["timestamp":=Delivery.Str now]> message)))
       <$> receivers) ++ Delivery.sent w ∧
    NoDup receivers.*1 ∧
    (∀ u ws, (u, ws) ∈ receivers ↔
             connections !! u = Some ws ∧ subscriber u ∧
             Delivery.send_raises env ws = None) ∧
    head (WS.logger (Delivery.manager w')) =
      Some (mk_log INFO ("Subscription message sent to "
                         +:+ pretty (Z.of_nat (length receivers))
                         +:+ " users subscribed to " +:+ subscription_type)) ∧
    (∀ u ws, connections !! u = Some ws →
       if decide (subscriber u ∧ is_Some (Delivery.send_raises env ws)) then
         WS.active_connections (Delivery.manager w') !! u = None ∧
         WS.subscriptions (Delivery.manager w') !! u = None ∧
         WS.connection_metadata (Delivery.manager w') !! u = None
       else
         WS.active_connections (Delivery.manager w') !! u = Some ws ∧
         WS.subscriptions (Delivery.manager w') !! u = subscriptions !! u) ∧
    (∀ u, connections !! u = None →
          WS.active_connections (Delivery.manager w') !! u = None ∧
          WS.subscriptions (Delivery.manager w') !! u = subscriptions !! u).
Proof.
  intros connections subscriptions subscriber Hlock Hitems.
  unfold Delivery.send_to_subscribers.
  unfold mbind at 1, Delivery.D_bind at 1. rewrite registry_get.
  fold subscriptions.
  set (items := Delivery.subscription_items env subscriptions) in *.
  set (msg := <["subscription_type":=_]> _).
  destruct (subscribers_loop_spec env subscription_type msg now items 0 [] w)
    as (s1 & Hloop & (Ha1 & Hs1 & Hl1 & Hc1) & Hm1).
  fold connections in Hloop, Hm1.
  set (attempts := subscribed connections subscription_type items) in *.
  unfold mbind at 1, Delivery.D_bind at 1. rewrite Hloop. clear Hloop.
  cbn [app].
  unfold mbind at 1, Delivery.D_bind at 1.
  rewrite disconnect_each_eq by (cbn; congruence).
  cbn [Delivery.manager Delivery.sent].
  rewrite registry_log. cbn [Delivery.manager Delivery.sent].
  set (failed := (refused env attempts).*1).
  assert (Hattempt : ∀ u ws, (u, ws) ∈ attempts ↔
            connections !! u = Some ws ∧ subscriber u).
  { intros u ws. by apply elem_of_subscribed. }
  assert (Hfailed : ∀ u, u ∈ failed ↔
            ∃ ws, connections !! u = Some ws ∧ subscriber u ∧
                  is_Some (Delivery.send_raises env ws)).
  { intros u. unfold failed, refused. rewrite list_elem_of_fmap. split.
    - intros ([u' ws] & -> & [? Hin]%list_elem_of_filter).
      apply Hattempt in Hin as [? ?]. by exists ws.
    - intros (ws & ? & ? & ?). exists (u, ws). split; [done|].
      apply list_elem_of_filter. split; [done|]. by apply Hattempt. }
  eexists _, (reverse (accepted env attempts)).
  split; [reflexivity|]. cbn [Delivery.manager Delivery.sent].
  split; [|split; [|split; [|split; [|split; [|split]]]]].
  - cbn. rewrite lock_without_all. congruence.
  - by rewrite fmap_reverse.
  - rewrite fmap_reverse, reverse_Permutation.
    eapply sublist_NoDup;
      [|apply fmap_sublist, (sublist_filter _ attempts)].
    eapply sublist_NoDup; [|apply subscribed_sublist].
    apply (NoDup_items items subscriptions Hitems).
  - intros u ws. rewrite elem_of_reverse. unfold accepted.
    rewrite list_elem_of_filter, Hattempt. cbn. naive_solver.
  - cbn. by rewrite length_reverse, Z.add_0_l.
  - intros u ws Hu. cbn [WS.add_log WS.active_connections WS.subscriptions
      WS.connection_metadata].
    destruct (lookup_without_all (Delivery.close_raises env) failed s1 u)
      as (-> & -> & ->).
    rewrite Ha1, Hs1. fold connections subscriptions. rewrite Hu.
    case_decide as Hbroken.
    + assert (u ∈ failed) by (apply Hfailed; exists ws; naive_solver).
      rewrite decide_True by done.
      rewrite !decide_True by (split; [done|by eexists]). done.
    + assert (u ∉ failed).
      { intros (ws' & Hws' & ? & ?)%Hfailed. rewrite Hu in Hws'.
        injection Hws' as <-. by apply Hbroken. }
      rewrite decide_False by done.
      rewrite !decide_False by (by intros [? ?]). done.
  - intros u Hu. cbn [WS.add_log WS.active_connections WS.subscriptions].
    destruct (lookup_without_all (Delivery.close_raises env) failed s1 u)
      as (-> & -> & _).
    rewrite Ha1, Hs1. fold connections subscriptions. rewrite Hu.
    rewrite (decide_False (P:=_ ∧ _)) by (by intros [? [? ?]]).
    split; [by case_decide|done].
Qed.

(** X23.  [send_to_subscribers], called with the lock free and nothing
    else running, returns.  The message, with ["timestamp"] and
    ["subscription_type"] set, goes exactly once to every identity that is
    connected, has the subscription type in its set and whose socket
    accepts it, and to nobody else: a subscription recorded for an
    identity without a connection is skipped.  The number in the log is
    the number of messages sent.  A subscriber whose socket raised is
    disconnected; every other connection is kept with its subscriptions. *)
Theorem subscribers_receive_the_message env subscription_type message now w :
  let connections := WS.active_connections (Delivery.manager w) in
  let subscriptions := WS.subscriptions (Delivery.manager w) in
  let subscriber u := subscription_type ∈ default ∅ (subscriptions !! u) in
  WS._lock (Delivery.manager w) = None →
  Delivery.subscription_items env subscriptions ≡ₚ map_to_list subscriptions →
  ∃ w' receivers,
    Delivery.send_to_subscribers env subscription_type message now w =
      Some ((), w') ∧
    WS._lock (Delivery.manager w') = None ∧
    Delivery.sent w' =
      ((λ kv, (kv.2, <["subscription_type":=Delivery.Str subscription_type]>
                       (<["timestamp":=Delivery.Str now]> message)))
       <$> receivers) ++ Delivery.sent w ∧
    NoDup receivers.*1 ∧
    (∀ u ws, (u, ws) ∈ receivers ↔
             connections !! u = Some ws ∧ subscriber u ∧
             Delivery.send_raises env ws = None) ∧
    head (WS.logger (Delivery.manager w')) =
      Some (mk_log INFO ("Subscription message sent to "
                         +:+ pretty (Z.of_nat (length receivers))
                         +:+ " users subscribed to " +:+ subscription_type)) ∧
    (∀ u ws, connections !! u = Some ws →
       if decide (subscriber u ∧ is_Some (Delivery.send_raises env ws)) then
         WS.active_connections (Delivery.manager w') !! u = None ∧
         WS.subscriptions (Delivery.manager w') !! u = None ∧
         WS.connection_metadata (Delivery.manager w') !! u = None
       else
         WS.active_connections (Delivery.manager w') !! u = Some ws ∧
         WS.subscriptions (Delivery.manager w') !! u = subscriptions !! u) ∧
    (∀ u, connections !! u = None →
          WS.active_connections (Delivery.manager w') !! u = None ∧
          WS.subscriptions (Delivery.manager w') !! u = subscriptions !! u).
Proof. apply subscribers_receive_the_message_aux. Qed.

(** ** The dictionaries of the registry agree *)

Lemma finish_of_resume {A : Type} cr (c : WS.coro A) s a s' :
  WS.resume c s = WS.Finished a s' → Delivery.finish cr c s = Some (a, s').
Proof.
  revert s. induction c as [x|f IH|s0 c IH|c IH|c IH|ws f IH]; intros s; cbn.
  - by intros [= -> ->].
  - apply IH.
  - apply IH.
  - destruct (WS._lock s); [done|apply IH].
  - apply IH.
  - done.
Qed.

(** The registry is at rest: the lock is free and the dictionaries agree. *)
Lemma at_rest_add_log l msg s :
  coherent s ∧ WS._lock s = None →
  coherent (WS.add_log l msg s) ∧ WS._lock (WS.add_log l msg s) = None.
Proof. done. Qed.

Lemma at_rest_without cr user_id s :
  coherent s ∧ WS._lock s = None →
  coherent (without cr user_id s) ∧ WS._lock (without cr user_id s) = None.
Proof.
  intros [[Hm Hs] Hl]. rewrite lock_without. split; [|done].
  unfold without. destruct (WS.active_connections s !! user_id); [|done].
  unfold coherent. cbn. rewrite !dom_delete_L. split; [by rewrite Hm|set_solver].
Qed.

Lemma at_rest_without_all cr users s :
  coherent s ∧ WS._lock s = None →
  coherent (without_all cr users s) ∧ WS._lock (without_all cr users s) = None.
Proof.
  revert s. induction users as [|u users IH]; intros s H; [done|].
  unfold without_all in *. cbn [foldl]. by apply IH, at_rest_without.
Qed.

Lemma dom_foldl_alter {A : Type} (f : A → A) (users : list string)
    (m : gmap string A) :
  dom (foldl (λ m user_id, alter f user_id m) m users) = dom m.
Proof.
  revert m. induction users as [|u users IH]; intros m; [done|].
  cbn [foldl]. by rewrite IH, dom_alter_L.
Qed.

Lemma at_rest_same_registry s s' :
  same_registry s s' →
  dom (WS.connection_metadata s') = dom (WS.connection_metadata s) →
  coherent s ∧ WS._lock s = None →
  coherent s' ∧ WS._lock s' = None.
Proof.
  intros (Ha & Hs & Hl & _) Hm [[Hcm Hcs] Hlock]. unfold coherent.
  rewrite Ha, Hs, Hl, Hm. done.
Qed.

Lemma at_rest_update_metadata user_id now s :
  coherent s ∧ WS._lock s = None →
  coherent (Delivery.update_metadata user_id now s) ∧
  WS._lock (Delivery.update_metadata user_id now s) = None.
Proof.
  apply at_rest_same_registry; [apply same_registry_update_metadata|].
  rewrite update_metadata_alter. cbn. by rewrite dom_alter_L.
Qed.

Lemma at_rest_send_personal_message env user_id message now w r w' :
  Delivery.send_personal_message env user_id message now w = Some (r, w') →
  coherent (Delivery.manager w) ∧ WS._lock (Delivery.manager w) = None →
  coherent (Delivery.manager w') ∧ WS._lock (Delivery.manager w') = None.
Proof.
  rewrite send_personal_message_eq. intros Hrun Hrest.
  destruct (WS.active_connections (Delivery.manager w) !! user_id) as [ws|].
  - destruct (Delivery.send_raises env ws) as [e|].
    + destruct Hrest as [Hc Hl]. rewrite Hl in Hrun.
      injection Hrun as <- <-. cbn. by apply at_rest_without.
    + injection Hrun as <- <-. cbn. by apply at_rest_update_metadata.
  - injection Hrun as <- <-. done.
Qed.

Lemma at_rest_perform env c w w' :
  perform env c w = Some ((), w') →
  coherent (Delivery.manager w) ∧ WS._lock (Delivery.manager w) = None →
  coherent (Delivery.manager w') ∧ WS._lock (Delivery.manager w') = None.
Proof.
  intros Hrun Hrest. pose proof Hrest as [[Hcm Hcs] Hlock].
  destruct c as [u ws now|u|u t|u t|u m now|m ex now|t m now|now|u tid now
                 |u t now]; cbn [perform] in Hrun.
  - (* connect *)
    unfold Delivery.registry in Hrun.
    destruct (WS.active_connections (Delivery.manager w) !! u) as [ws'|] eqn:Hu.
    + pose proof (finish_run_alone (Delivery.close_raises env)
                    (WS.connect u ws now) (Delivery.manager w)) as Hfin.
      destruct (connect_registered_blocks u ws now (Delivery.manager w))
        as [k Hk]; [done|by eexists|].
      destruct (Delivery.finish _ _ _) as [[[] s1]|]; [|done].
      destruct Hfin as [fuel Hfuel]. rewrite Hk in Hfuel.
      by rewrite (run_alone_blocked _ fuel k _ WS.This) in Hfuel.
    + rewrite (finish_of_resume _ _ _ _ _
                 (resume_connect_unregistered u ws now _ Hlock Hu)) in Hrun.
      injection Hrun as <-. cbn. split; [|done]. unfold coherent. cbn.
      rewrite !dom_insert_L. split; [by rewrite Hcm|set_solver].
  - (* disconnect *)
    rewrite registry_disconnect in Hrun by done. injection Hrun as <-.
    cbn. by apply at_rest_without.
  - (* add_subscription *)
    unfold Delivery.registry in Hrun.
    rewrite (finish_of_resume _ _ _ _ _ (resume_add_subscription u t _)) in Hrun.
    injection Hrun as <-. cbn. split; [|done]. unfold coherent. cbn.
    rewrite dom_insert_L. split; [done|set_solver].
  - (* remove_subscription *)
    unfold Delivery.registry in Hrun.
    rewrite (finish_of_resume _ _ _ _ _ (resume_remove_subscription u t _))
      in Hrun.
    injection Hrun as <-. cbn.
    destruct (WS.subscriptions (Delivery.manager w) !! u) as [subs|] eqn:Hsubs;
      [|done].
    split; [|done]. unfold coherent. cbn.
    rewrite dom_insert_L. split; [done|].
    assert (u ∈ dom (WS.subscriptions (Delivery.manager w)))
      by (apply elem_of_dom; by eexists).
    set_solver.
  - (* send_personal_message *)
    unfold mbind, Delivery.D_bind in Hrun.
    destruct (Delivery.send_personal_message env u m now w) as [[r w1]|] eqn:Hs;
      [|done].
    injection Hrun as <-. by eapply at_rest_send_personal_message.
  - (* broadcast_message *)
    unfold Delivery.broadcast_message in Hrun.
    unfold mbind at 1, Delivery.D_bind at 1 in Hrun. rewrite registry_get in Hrun.
    destruct (broadcast_loop_spec env (<["timestamp":=Delivery.Str now]> m)
                (default [] ex) now
                (Delivery.connection_items env
                   (WS.active_connections (Delivery.manager w))) [] w)
      as (s1 & Hloop & Hsame & Hm1).
    unfold mbind at 1, Delivery.D_bind at 1 in Hrun. rewrite Hloop in Hrun.
    assert (Hrest1 : coherent s1 ∧ WS._lock s1 = None).
    { eapply at_rest_same_registry; [done| |done].
      by rewrite Hm1, dom_foldl_alter. }
    unfold mbind at 1, Delivery.D_bind at 1 in Hrun.
    rewrite disconnect_each_eq in Hrun by (cbn; apply Hrest1).
    unfold mbind at 1, Delivery.D_bind at 1 in Hrun.
    rewrite registry_get, registry_log in Hrun. injection Hrun as <-.
    cbn. by apply at_rest_without_all.
  - (* send_to_subscribers *)
    unfold Delivery.send_to_subscribers in Hrun.
    unfold mbind at 1, Delivery.D_bind at 1 in Hrun. rewrite registry_get in Hrun.
    destruct (subscribers_loop_spec env t
                (<["subscription_type":=Delivery.Str t]>
                   (<["timestamp":=Delivery.Str now]> m)) now
                (Delivery.subscription_items env
                   (WS.subscriptions (Delivery.manager w))) 0 [] w)
      as (s1 & Hloop & Hsame & Hm1).
    unfold mbind at 1, Delivery.D_bind at 1 in Hrun. rewrite Hloop in Hrun.
    assert (Hrest1 : coherent s1 ∧ WS._lock s1 = None).
    { eapply at_rest_same_registry; [done| |done].
      by rewrite Hm1, dom_foldl_alter. }
    unfold mbind at 1, Delivery.D_bind at 1 in Hrun.
    rewrite disconnect_each_eq in Hrun by (cbn; apply Hrest1).
    rewrite registry_log in Hrun. injection Hrun as <-.
    cbn. by apply at_rest_without_all.
  - (* ping_all_connections *)
    unfold Delivery.ping_all_connections in Hrun.
    unfold mbind at 1, Delivery.D_bind at 1 in Hrun. rewrite registry_get in Hrun.
    destruct (ping_loop_spec env
                (<["timestamp":=Delivery.Str now]>
                   {["type" := Delivery.Str "ping"]})
                (Delivery.connection_items env
                   (WS.active_connections (Delivery.manager w))) [] w)
      as (s1 & Hloop & Hsame & Hm1).
    unfold mbind at 1, Delivery.D_bind at 1 in Hrun. rewrite Hloop in Hrun.
    assert (Hrest1 : coherent s1 ∧ WS._lock s1 = None).
    { eapply at_rest_same_registry; [done| |done]. by rewrite Hm1. }
    unfold mbind at 1, Delivery.D_bind at 1 in Hrun.
    rewrite disconnect_each_eq in Hrun by (cbn; apply Hrest1).
    unfold mbind at 1, Delivery.D_bind at 1 in Hrun.
    rewrite registry_get, registry_log in Hrun. injection Hrun as <-.
    cbn. by apply at_rest_without_all.
  - (* handle_task_status_request *)
    unfold WebSocketRoutes.handle_task_status_request in Hrun.
    rewrite get_task_status_uninitialized in Hrun by done.
    unfold mbind, Delivery.D_bind in Hrun. rewrite registry_log in Hrun.
    destruct (Delivery.send_personal_message _ _ _ _ _) as [[r w1]|] eqn:Hs;
      [|done].
    injection Hrun as <-.
    eapply at_rest_send_personal_message; [exact Hs|]. done.
  - (* handle_subscription_request *)
    unfold WebSocketRoutes.handle_subscription_request in Hrun.
    unfold mbind, Delivery.D_bind, Delivery.registry in Hrun.
    rewrite (finish_of_resume _ _ _ _ _ (resume_add_subscription u t _)) in Hrun.
    destruct (Delivery.send_personal_message _ _ _ _ _) as [[r w1]|] eqn:Hs;
      [|done].
    injection Hrun as <-.
    eapply at_rest_send_personal_message; [exact Hs|]. cbn.
    split; [|done]. unfold coherent. cbn.
    rewrite dom_insert_L. split; [done|set_solver].
Qed.

(** X24.  Whatever connections, disconnections, subscription changes,
    sends, broadcasts, pings and client requests were made, one after the
    other, on a manager that started empty, whatever the network answered
    and in whatever order the dictionaries were iterated: when the last
    call has returned the lock is free, an identity has metadata exactly
    when it has a connection, and every connection has a subscription set
    (so [get_connection_info] reports a connection time for every
    connected identity). *)
Theorem registry_is_coherent_at_rest cs w' :
  perform_all cs (Delivery.mk_world WS.init []) = Some ((), w') →
  WS._lock (Delivery.manager w') = None ∧
  dom (WS.connection_metadata (Delivery.manager w')) =
    dom (WS.active_connections (Delivery.manager w')) ∧
  dom (WS.active_connections (Delivery.manager w')) ⊆
    dom (WS.subscriptions (Delivery.manager w')) ∧
  ∀ u info, Registry.get_connection_info u (Delivery.manager w') = Some info →
            is_Some (Registry.info_connected_at info).
Proof.
  intros Hrun.
  assert (Hrest : coherent (Delivery.manager w') ∧
                  WS._lock (Delivery.manager w') = None).
  { assert (H0 : coherent (Delivery.manager (Delivery.mk_world WS.init [])) ∧
                 WS._lock (Delivery.manager (Delivery.mk_world WS.init [])) = None)
      by (by repeat split).
    revert Hrun H0. generalize (Delivery.mk_world WS.init []).
    induction cs as [|[env c] cs IH]; intros w Hrun Hrest.
    - cbn in Hrun. by injection Hrun as <-.
    - cbn [perform_all] in Hrun. unfold mbind, Delivery.D_bind in Hrun.
      destruct (perform env c w) as [[[] w1]|] eqn:Hc; [|done].
      apply (IH w1 Hrun). by apply (at_rest_perform env c w). }
  destruct Hrest as [[Hcm Hcs] Hlock].
  split; [done|]. split; [done|]. split; [done|].
  intros u info. unfold Registry.get_connection_info.
  destruct (WS.active_connections (Delivery.manager w') !! u) as [ws|] eqn:Hu;
    [|done].
  intros [= <-]. cbn.
  assert (Hin : u ∈ dom (WS.connection_metadata (Delivery.manager w'))).
  { rewrite Hcm. apply elem_of_dom. by eexists. }
  apply elem_of_dom in Hin as [md ->]. by eexists.
Qed.

Lemma registry_is_coherent_at_rest_witness :
  ∃ w',
    perform_all
      [(Delivery.mk_environment (λ _, None) (λ _, None) map_to_list map_to_list,
        Connect "u1" 1%nat "09:00");
       (Delivery.mk_environment (λ _, None) (λ _, None) map_to_list map_to_list,
        HandleSubscriptionRequest "u2" "all" "09:01");
       (Delivery.mk_environment (λ _, Some "broken pipe") (λ _, Some "closed")
          map_to_list map_to_list,
        BroadcastMessage {["type" := Delivery.Str "system_alert"]} None "09:02")]
      (Delivery.mk_world WS.init []) = Some ((), w') ∧
    WS._lock (Delivery.manager w') = None.
Proof.
  eexists. split; [vm_compute; reflexivity|].
  refine (proj1 (registry_is_coherent_at_rest
      [(Delivery.mk_environment (λ _, None) (λ _, None) map_to_list map_to_list,
        Connect "u1" 1%nat "09:00");
       (Delivery.mk_environment (λ _, None) (λ _, None) map_to_list map_to_list,
        HandleSubscriptionRequest "u2" "all" "09:01");
       (Delivery.mk_environment (λ _, Some "broken pipe") (λ _, Some "closed")
          map_to_list map_to_list,
        BroadcastMessage {["type" := Delivery.Str "system_alert"]} None "09:02")]
      _ _)).
  vm_compute; reflexivity.
Defined.

(** ** A subscription request and the updates that follow *)

Lemma handle_subscription_request_connected env user_id subscription_type now
    w ws :
  WS.active_connections (Delivery.manager w) !! user_id = Some ws →
  Delivery.send_raises env ws = None →
  ∃ s1,
    WebSocketRoutes.handle_subscription_request env user_id subscription_type
      now w =
    Some ((), Delivery.mk_world s1
      ((ws, <["timestamp":=Delivery.Str now]>
              (<["message":=Delivery.Str ("Subscribed to " +:+ subscription_type
                                          +:+ " updates")]>
                 (<["subscription_type":=Delivery.Str subscription_type]>
                    {["type" := Delivery.Str "subscription_confirmed"]})))
       :: Delivery.sent w)) ∧
    WS.active_connections s1 = WS.active_connections (Delivery.manager w) ∧
    WS._lock s1 = WS._lock (Delivery.manager w) ∧
    WS.subscriptions s1 !! user_id =
      Some (default ∅ (WS.subscriptions (Delivery.manager w) !! user_id)
            ∪ {[subscription_type]}).
Proof.
  intros Hws Hok. unfold WebSocketRoutes.handle_subscription_request.
  unfold mbind, Delivery.D_bind, Delivery.registry.
  rewrite (finish_of_resume _ _ _ _ _
             (resume_add_subscription user_id subscription_type _)).
  rewrite send_personal_message_eq. cbn [Delivery.manager Delivery.sent].
  cbn [WS.add_log WS.set_subscriptions WS.active_connections].
  rewrite Hws, Hok. eexists. split; [reflexivity|].
  rewrite update_metadata_alter. cbn. by rewrite lookup_insert_eq.
Qed.

(** X27.  A client that is connected on a working socket and sends a
    subscription request receives the confirmation, and from then on
    every [send_to_subscribers] for that subscription type reaches its
    socket, with ["subscription_type"] and ["timestamp"] set. *)
Theorem subscriber_receives_later_updates env user_id subscription_type
    message now later w ws :
  WS._lock (Delivery.manager w) = None →
  WS.active_connections (Delivery.manager w) !! user_id = Some ws →
  Delivery.send_raises env ws = None →
  (∀ subscriptions,
     Delivery.subscription_items env subscriptions ≡ₚ map_to_list subscriptions) →
  ∃ w1 w2,
    WebSocketRoutes.handle_subscription_request env user_id subscription_type
      now w = Some ((), w1) ∧
    head (Delivery.sent w1) =
      Some (ws, <["timestamp":=Delivery.Str now]>
                  (<["message":=Delivery.Str ("Subscribed to "
                                              +:+ subscription_type
                                              +:+ " updates")]>
                     (<["subscription_type":=Delivery.Str subscription_type]>
                        {["type" := Delivery.Str "subscription_confirmed"]}))) ∧
    Delivery.send_to_subscribers env subscription_type message later w1 =
      Some ((), w2) ∧
    (ws, <["subscription_type":=Delivery.Str subscription_type]>
           (<["timestamp":=Delivery.Str later]> message)) ∈ Delivery.sent w2.
Proof.
  intros Hlock Hws Hok Hitems.
  destruct (handle_subscription_request_connected env user_id
              subscription_type now w ws Hws Hok)
    as (s1 & Hrun1 & Ha1 & Hl1 & Hs1).
  set (w1 := Delivery.mk_world s1 _) in Hrun1.
  destruct (subscribers_receive_the_message_aux env subscription_type message
              later w1) as (w2 & receivers & Hrun2 & _ & Hsent & _ & Hrecv & _).
  { cbn. congruence. }
  { apply Hitems. }
  exists w1, w2. split; [done|]. split; [done|]. split; [done|].
  rewrite Hsent. apply elem_of_app. left.
  apply list_elem_of_fmap. exists (user_id, ws). split; [done|].
  apply Hrecv. cbn. rewrite Ha1, Hws, Hs1. cbn. split; [done|].
  split; [set_solver|done].
Qed.

Lemma subscribers_receive_the_message_witness :
  ∃ w' (receivers : list (string * WS.WebSocket)),
    Delivery.send_to_subscribers
      (Delivery.mk_environment (λ _, None) (λ _, None) map_to_list map_to_list)
      "agent_updates" {["type" := Delivery.Str "agent_status_update"]} "09:30"
      (Delivery.mk_world
         (WS.set_subscriptions {["u1" := {["agent_updates"]}]} u1_connected) [])
      = Some ((), w') ∧
    Delivery.sent w' =
      ((λ kv, (kv.2, <["subscription_type":=Delivery.Str "agent_updates"]>
                       (<["timestamp":=Delivery.Str "09:30"]>
                          {["type" := Delivery.Str "agent_status_update"]})))
       <$> receivers) ++ [] ∧
    NoDup receivers.*1.
Proof.
  destruct (subscribers_receive_the_message
      (Delivery.mk_environment (λ _, None) (λ _, None) map_to_list map_to_list)
      "agent_updates" {["type" := Delivery.Str "agent_status_update"]} "09:30"
      (Delivery.mk_world
         (WS.set_subscriptions {["u1" := {["agent_updates"]}]} u1_connected) []))
    as (w' & receivers & Hrun & _ & Hsent & Hnd & _).
  - reflexivity.
  - reflexivity.
  - exists w', receivers. split; [exact Hrun|]. split; [exact Hsent|exact Hnd].
Defined.

Lemma subscriber_receives_later_updates_witness :
  ∃ w1 w2,
    WebSocketRoutes.handle_subscription_request
      (Delivery.mk_environment (λ _, None) (λ _, None) map_to_list map_to_list)
      "u1" "all" "09:10" (Delivery.mk_world u1_connected []) = Some ((), w1) ∧
    Delivery.send_to_subscribers
      (Delivery.mk_environment (λ _, None) (λ _, None) map_to_list map_to_list)
      "all" {["type" := Delivery.Str "agent_status_update"]} "09:30" w1
      = Some ((), w2) ∧
    (1%nat, <["subscription_type":=Delivery.Str "all"]>
              (<["timestamp":=Delivery.Str "09:30"]>
                 {["type" := Delivery.Str "agent_status_update"]}))
      ∈ Delivery.sent w2.
Proof.
  destruct (subscriber_receives_later_updates
      (Delivery.mk_environment (λ _, None) (λ _, None) map_to_list map_to_list)
      "u1" "all" {["type" := Delivery.Str "agent_status_update"]}
      "09:10" "09:30" (Delivery.mk_world u1_connected []) 1%nat)
    as (w1 & w2 & Hrun1 & _ & Hrun2 & Hin).
  - reflexivity.
  - reflexivity.
  - reflexivity.
  - intros subscriptions. reflexivity.
  - exists w1, w2. split; [exact Hrun1|]. split; [exact Hrun2|exact Hin].
Defined.

(** ** Connection information *)

(** X30.  [get_all_connections_info] has one entry for each connected
    identity, the one [get_connection_info] returns for it, marked as
    connected; their number is [get_connection_count], and
    [get_connected_users] lists the same identities, each once. *)
Theorem connections_info_lists_every_connection env (s : WS.state) :
  Delivery.connection_items env (WS.active_connections s)
    ≡ₚ map_to_list (WS.active_connections s) →
  Z.of_nat (length (Delivery.get_all_connections_info env s)) =
    Registry.get_connection_count s ∧
  Z.of_nat (length (Delivery.get_connected_users env s)) =
    Registry.get_connection_count s ∧
  NoDup (Delivery.get_connected_users env s) ∧
  (∀ u, u ∈ Delivery.get_connected_users env s ↔
        is_Some (WS.active_connections s !! u)) ∧
  (∀ info, info ∈ Delivery.get_all_connections_info env s ↔
           ∃ u, Registry.get_connection_info u s = Some info) ∧
  Forall (λ info, Registry.connected info = true)
    (Delivery.get_all_connections_info env s).
Proof.
  intros Hitems.
  unfold Delivery.get_all_connections_info, Delivery.get_connected_users,
    Registry.get_connection_count.
  set (items := Delivery.connection_items env (WS.active_connections s)) in *.
  assert (Husers : ∀ u, u ∈ items.*1 ↔ is_Some (WS.active_connections s !! u)).
  { intros u. rewrite list_elem_of_fmap. split.
    - intros ([u' ws] & -> & Hin).
      apply (elem_of_items items _ Hitems) in Hin. by eexists.
    - intros [ws Hws]. exists (u, ws). split; [done|].
      by apply (elem_of_items items _ Hitems). }
  assert (Hlen : length items.*1 = size (WS.active_connections s)).
  { by rewrite length_fmap, Hitems, length_map_to_list. }
  assert (Hall : ∀ l : list string,
            (∀ u, u ∈ l → is_Some (WS.active_connections s !! u)) →
            length (omap (λ u, Registry.get_connection_info u s) l) = length l).
  { induction l as [|u l IH]; intros Hl; [done|]. cbn.
    destruct (Hl u) as [ws Hws]; [set_solver|].
    unfold Registry.get_connection_info at 1. rewrite Hws. cbn.
    f_equal. apply IH. intros u' Hu'. apply Hl. set_solver. }
  split; [|split; [|split; [|split; [|split]]]].
  - rewrite Hall; [by rewrite Hlen|]. intros u Hu. by apply Husers.
  - by rewrite Hlen.
  - apply (NoDup_items items _ Hitems).
  - done.
  - intros info. rewrite list_elem_of_omap. split.
    + intros (u & _ & Hinfo). by exists u.
    + intros (u & Hinfo). exists u. split; [|done]. apply Husers.
      unfold Registry.get_connection_info in Hinfo.
      destruct (WS.active_connections s !! u); [by eexists|done].
  - apply Forall_forall. intros info (u & _ & Hinfo)%list_elem_of_omap.
    unfold Registry.get_connection_info in Hinfo.
    destruct (WS.active_connections s !! u); [|done].
    by injection Hinfo as <-.
Qed.

Lemma connections_info_lists_every_connection_witness :
  Z.of_nat (length (Delivery.get_all_connections_info
    (Delivery.mk_environment (λ _, None) (λ _, None) map_to_list map_to_list)
    u1_connected)) = Registry.get_connection_count u1_connected.
Proof.
  refine (proj1 (connections_info_lists_every_connection
    (Delivery.mk_environment (λ _, None) (λ _, None) map_to_list map_to_list)
    u1_connected _)).
  reflexivity.
Defined.

(** * Further properties of the background tasks *)

Lemma send_task_update_unconnected env user_id task_id status result error
    now w :
  WS.active_connections (Delivery.manager w) !! user_id = None →
  Delivery.send_task_update env user_id task_id status result error now w =
  Some ((), Delivery.mk_world
              (WS.add_log WARNING ("Cannot send message to user " +:+ user_id
                                   +:+ ": not connected") (Delivery.manager w))
              (Delivery.sent w)).
Proof.
  intros Hnone. unfold Delivery.send_task_update.
  unfold mbind, Delivery.D_bind. rewrite send_personal_message_eq.
  by rewrite Hnone.
Qed.

Lemma update_found_effect tm tid s p e r now t :
  initialized tm = true →
  stored tid tm = Some t →
  ∃ tm',
    update_task_status tid s p e r now tm = (Returned (), tm') ∧
    initialized tm' = true ∧
    stored tid tm' = Some (updated s p e r now t) ∧
    (∀ q, queue q tm' = queue q tm) ∧
    active_tasks tm' =
      (if is_terminal s then active_tasks tm ∖ {[tid]} else active_tasks tm).
Proof.
  intros Hinit Hs. exists (exec (UpdateTaskStatus tid s p e r now) tm).
  split; [|split; [|split; [|split]]].
  - cbn [exec]. destruct (update_task_status tid s p e r now tm) as [o tm'] eqn:H.
    pose proof (proj1 (stored_state_after_update tm tid s p e r now t Hinit Hs))
      as Ho.
    unfold outcome_of in Ho. rewrite H in Ho. cbn in Ho. by subst o.
  - by rewrite exec_initialized.
  - by rewrite stored_update, decide_True, Hs.
  - intros q. by apply queue_update.
  - by rewrite active_tasks_update, Hs.
Qed.

(** The body of a background task on a task that is stored when it starts
    and when the crew answers. *)
Lemma execute_effect env name tid u meanwhile answer now later tm w t t1 :
  initialized tm = true →
  stored tid tm = Some t →
  let running := state_after (Main.mark_running tid now) tm in
  initialized (meanwhile running) = true →
  stored tid (meanwhile running) = Some t1 →
  WS.active_connections (Delivery.manager w) !! u = None →
  ∃ tm' w',
    Background.execute env name tid u meanwhile answer now later
      (Background.mk_system tm w) =
      Some (Returned (), Background.mk_system tm' w') ∧
    stored tid tm' =
      Some match answer with
           | inl result => updated "completed" (Some 100) None (Some result) later t1
           | inr e => updated "failed" None (Some e) None later t1
           end ∧
    (∀ q, queue q tm' = queue q (meanwhile running)) ∧
    (tid ∉ active_tasks tm') ∧
    Delivery.sent w' = Delivery.sent w.
Proof.
  intros Hinit Hs running Hinit1 Hs1 Hu.
  destruct (update_found_effect tm tid "running" None None None now t Hinit Hs)
    as (tm1 & Hrun1 & _ & _ & _ & _).
  assert (Hrunning : running = tm1).
  { unfold running, state_after, Main.mark_running. by rewrite Hrun1. }
  rewrite Hrunning in *. clear Hrunning running.
  unfold Background.execute, Background.try_except.
  unfold mbind at 1, Background.B_bind at 1, Background.tasks at 1.
  cbn [Background.task_manager Background.websocket_manager]. rewrite Hrun1.
  unfold mbind at 1, Background.B_bind at 1, Background.await_crew.
  cbn [Background.task_manager Background.websocket_manager].
  destruct answer as [result|e].
  - destruct (update_found_effect (meanwhile tm1) tid "completed" (Some 100)
                None (Some result) later t1 Hinit1 Hs1)
      as (tm2 & Hrun2 & _ & Hst2 & Hq2 & Hact2).
    unfold mbind, Background.B_bind, Background.tasks, Background.sockets,
      complete_task.
    cbn [Background.task_manager Background.websocket_manager TaskStatus_value].
    rewrite Hrun2.
    cbn [Background.task_manager Background.websocket_manager].
    rewrite send_task_update_unconnected by done.
    eexists _, _. split; [reflexivity|]. split; [done|]. split; [done|].
    split; [|done]. rewrite Hact2. cbn. set_solver.
  - cbn [WebSocketRoutes.str_exn].
    unfold mbind, Background.B_bind, Background.tasks, Background.sockets,
      fail_task.
    cbn [Background.task_manager Background.websocket_manager TaskStatus_value].
    unfold log at 1. cbn [Background.task_manager Background.websocket_manager].
    set (tm1' := mk_tm _ _ _).
    destruct (update_found_effect tm1' tid "failed" None (Some e)
                None later t1) as (tm3 & Hrun3 & _ & Hst3 & Hq3 & Hact3);
      [done|done|].
    rewrite Hrun3.
    cbn [Background.task_manager Background.websocket_manager].
    rewrite send_task_update_unconnected by done.
    eexists _, _. split; [reflexivity|]. split; [done|]. split; [done|].
    split; [|done]. rewrite Hact3. cbn. set_solver.
Qed.

(** X28.  A background task ([execute_content_generation],
    [execute_trend_analysis], [execute_video_creation]) on a stored task
    marks it as running, waits for the crew and then writes the outcome
    over whatever record the task has by then: completed with the result
    and progress 100 when the crew answered, failed with the error text
    when it raised.  The task leaves the active set, but its identifier
    is not taken from any queue; and with no connection registered on the
    manager of [main.py] no update reaches a socket. *)
Theorem background_task_writes_the_outcome env name tid u meanwhile answer
    now later tm w t t1 :
  initialized tm = true →
  stored tid tm = Some t →
  let running := state_after (Main.mark_running tid now) tm in
  initialized (meanwhile running) = true →
  stored tid (meanwhile running) = Some t1 →
  WS.active_connections (Delivery.manager w) !! u = None →
  ∃ tm' w',
    Background.execute env name tid u meanwhile answer now later
      (Background.mk_system tm w) =
      Some (Returned (), Background.mk_system tm' w') ∧
    stored tid tm' =
      Some match answer with
           | inl result => updated "completed" (Some 100) None (Some result) later t1
           | inr e => updated "failed" None (Some e) None later t1
           end ∧
    (∀ q, queue q tm' = queue q (meanwhile running)) ∧
    (tid ∉ active_tasks tm') ∧
    Delivery.sent w' = Delivery.sent w.
Proof. apply execute_effect. Qed.

Lemma background_task_writes_the_outcome_witness :
  ∃ tm' w',
    Background.execute_content_generation
      (Delivery.mk_environment (λ _, None) (λ _, None) map_to_list map_to_list)
      "t1" "u1" id (inr "rate limit") "09:01" "09:05"
      (Background.mk_system
         (state_after (create_task "content_generation" "u1" "{}" MEDIUM 3 300
                         "t1" "09:00") manager0)
         (Delivery.mk_world WS.init [])) =
      Some (Returned (), Background.mk_system tm' w') ∧
    queue MEDIUM tm' = ["t1"] ∧
    Delivery.sent w' = [].
Proof.
  destruct (background_task_writes_the_outcome
      (Delivery.mk_environment (λ _, None) (λ _, None) map_to_list map_to_list)
      "Content generation" "t1" "u1" id (inr "rate limit") "09:01" "09:05"
      (state_after (create_task "content_generation" "u1" "{}" MEDIUM 3 300
                      "t1" "09:00") manager0)
      (Delivery.mk_world WS.init [])
      (mk_task "t1" "content_generation" "u1" "{}" "pending" MEDIUM 3 0 300
         "09:00" "09:00" None None None None 0)
      (mk_task "t1" "content_generation" "u1" "{}" "running" MEDIUM 3 0 300
         "09:00" "09:01" (Some "09:01") None None None 0))
    as (tm' & w' & Hrun & _ & Hq & _ & Hsent).
  - vm_compute; reflexivity.
  - vm_compute; reflexivity.
  - vm_compute; reflexivity.
  - vm_compute; reflexivity.
  - reflexivity.
  - exists tm', w'. split; [exact Hrun|]. split; [|exact Hsent].
    rewrite (Hq MEDIUM). vm_compute; reflexivity.
Defined.

(** X29.  A cancellation accepted while the crew is working is lost.  The
    route [DELETE /tasks/{task_id}] answers the owner "Task cancelled
    successfully" and stores the status cancelled; when the crew then
    answers, the background task stores completed with the result, and
    the record keeps "Cancelled by user" as its error. *)
Theorem cancellation_during_execution_is_lost env name tid result now
    cancelled_at later tm w t :
  initialized tm = true →
  stored tid tm = Some t →
  WS.active_connections (Delivery.manager w) !! user_id t = None →
  let running := state_after (Main.mark_running tid now) tm in
  let cancel := Main.cancel_task tid (user_id t) cancelled_at in
  outcome_of cancel running = Returned ("Task cancelled successfully", tid) ∧
  (∃ t1, stored tid (state_after cancel running) = Some t1 ∧
         status t1 = "cancelled") ∧
  ∃ tm' w' t',
    Background.execute env name tid (user_id t) (state_after cancel)
      (inl result) now later (Background.mk_system tm w) =
      Some (Returned (), Background.mk_system tm' w') ∧
    stored tid tm' = Some t' ∧
    status t' = "completed" ∧
    Task.result t' = Some result ∧
    error t' = Some "Cancelled by user".
Proof.
  intros Hinit Hs Hu running cancel.
  destruct (update_found_effect tm tid "running" None None None now t Hinit Hs)
    as (tm1 & Hrun1 & Hinit1 & Hs1 & _ & _).
  assert (Hrunning : running = tm1).
  { unfold running, state_after, Main.mark_running. by rewrite Hrun1. }
  assert (Hcancel : cancel tm1 =
            (Returned ("Task cancelled successfully", tid),
             state_after (cancel_task tid "Cancelled by user" cancelled_at) tm1)).
  { unfold cancel.
    apply (route_cancel_allowed tm1 tid _ cancelled_at _ Hinit1 Hs1); done. }
  destruct (update_found_effect tm1 tid "cancelled" None
              (Some "Cancelled by user") None cancelled_at _ Hinit1 Hs1)
    as (tm2 & Hrun2 & Hinit2 & Hs2 & _ & _).
  assert (Hafter : state_after cancel tm1 = tm2).
  { unfold state_after at 1. rewrite Hcancel. cbn [snd].
    unfold state_after, cancel_task. cbn [TaskStatus_value]. by rewrite Hrun2. }
  rewrite Hrunning. split; [|split].
  - unfold outcome_of. by rewrite Hcancel.
  - rewrite Hafter. eexists. split; [exact Hs2|done].
  - edestruct (execute_effect env name tid (user_id t) (state_after cancel)
                 (inl result) now later tm w t) as
      (tm' & w' & Hrun & Hst & _).
    + exact Hinit.
    + exact Hs.
    + fold running. rewrite Hrunning, Hafter. exact Hinit2.
    + fold running. rewrite Hrunning, Hafter. exact Hs2.
    + exact Hu.
    + exists tm', w'. eexists. split; [exact Hrun|]. split; [exact Hst|]. done.
Qed.

Lemma cancellation_during_execution_is_lost_witness :
  outcome_of (Main.cancel_task "t1" "u1" "09:03")
    (state_after (Main.mark_running "t1" "09:01")
       (state_after (create_task "content_generation" "u1" "{}" MEDIUM 3 300
                       "t1" "09:00") manager0)) =
  Returned ("Task cancelled successfully", "t1").
Proof.
  refine (proj1 (cancellation_during_execution_is_lost
      (Delivery.mk_environment (λ _, None) (λ _, None) map_to_list map_to_list)
      "Content generation" "t1" "[]" "09:01" "09:03" "09:05"
      (state_after (create_task "content_generation" "u1" "{}" MEDIUM 3 300
                      "t1" "09:00") manager0)
      (Delivery.mk_world WS.init [])
      (mk_task "t1" "content_generation" "u1" "{}" "pending" MEDIUM 3 0 300
         "09:00" "09:00" None None None None 0) _ _ _)).
  - vm_compute; reflexivity.
  - vm_compute; reflexivity.
  - reflexivity.
Defined.
